(** * The ldb schema registry and the tdb storage backend

    A shallow embedding of [ldb/common/ldb_attributes.c] (the attribute
    schema registry) and of [ldb/ldb_tdb/ldb_tdb.c] (the key/value
    backend: store, add, delete, modify, rename, sequence number,
    connect), with
    the properties the design document states about them.

    Conventions.
    - C [int] return codes and indices are integers of [Z]; the only
      arithmetic that can leave its C type, the [uint64_t] sequence
      number, has its wrap-around written out ([to_uint64]).
    - A C string is a [string] without NUL; a [struct ldb_val] is the
      byte string it points to.
    - Allocation never fails: the [talloc] failure branches, which only
      return an out-of-memory code, are not part of the model.
    - Reading an array outside its valid entries has no defined result;
      functions that may do so return [option], [None] being that case. *)

From Stdlib Require Import ZArith String Ascii Lia OrdersEx DecimalString.
From Stdlib Require DecimalN.
From stdpp Require Import gmap strings list.

Local Open Scope Z_scope.

(** ** Values, syntaxes, schema attributes *)

Definition ldb_val := string.

(** [struct ldb_schema_syntax]: a name and the four handlers. *)
Record ldb_schema_syntax := {
  syntax_name : string;
  ldif_read_fn : ldb_val -> option ldb_val;
  ldif_write_fn : ldb_val -> option ldb_val;
  canonicalise_fn : ldb_val -> option ldb_val;
  comparison_fn : ldb_val -> ldb_val -> Z
}.

(** [struct ldb_schema_attribute] as it sits in the registry array. The
    one attribute whose [name] is NULL is the built-in default, which is
    not an array entry; [attr_ref] below tells the two apart. *)
Record ldb_schema_attribute := {
  attr_name : string;
  attr_flags : Z;
  attr_syntax : ldb_schema_syntax
}.

(** Modelled from the spec: the flag bits of a schema attribute ("fixed /
    heap-allocated-name / reserved"); the bit positions are those of
    ldb.h, which is not under src/. Only their being distinct bits
    matters below. *)
Definition LDB_ATTR_FLAG_ALLOCATED : Z := 2.
Definition LDB_ATTR_FLAG_FIXED : Z := 4.

Definition has_flag (flags bit : Z) : bool := negb (Z.land flags bit =? 0).

(** Modelled from the spec: the octet-string syntax name and the copy
    and binary-compare handlers it is built from (ldb_attrib_handlers.c
    is not under src/). "Comparison returns zero for equality; the
    default syntax is octet-string with binary compare": lengths first,
    then the bytes as [memcmp] orders them. *)
Definition LDB_SYNTAX_OCTET_STRING : string := "1.3.6.1.4.1.1466.115.121.1.40".

Definition ldb_handler_copy (v : ldb_val) : option ldb_val := Some v.

Definition sign_of (c : comparison) : Z :=
  match c with Eq => 0 | Lt => -1 | Gt => 1 end.

Definition ldb_comparison_binary (v1 v2 : ldb_val) : Z :=
  if Nat.eqb (String.length v1) (String.length v2)
  then sign_of (String.compare v1 v2)
  else Z.of_nat (String.length v1) - Z.of_nat (String.length v2).

Definition ldb_syntax_default : ldb_schema_syntax := {|
  syntax_name := LDB_SYNTAX_OCTET_STRING;
  ldif_read_fn := ldb_handler_copy;
  ldif_write_fn := ldb_handler_copy;
  canonicalise_fn := ldb_handler_copy;
  comparison_fn := ldb_comparison_binary
|}.

(** Modelled from the spec: [ldb_attr_cmp] is not under src/. "Name
    comparison is case-insensitive": the byte-wise order of the two
    names after ASCII upper-casing; only the sign of the result is ever
    inspected by its callers. *)
Definition toupper (c : ascii) : ascii :=
  if (("a" <=? c)%char && (c <=? "z")%char)%bool
  then ascii_of_N (N_of_ascii c - 32)
  else c.

Fixpoint casefold_name (s : string) : string :=
  match s with
  | EmptyString => EmptyString
  | String c r => String (toupper c) (casefold_name r)
  end.

Definition ldb_attr_cmp (s1 s2 : string) : Z :=
  sign_of (String.compare (casefold_name s1) (casefold_name s2)).

(** ** The registry: [ldb->schema] *)

(** [ldb->schema.attributes] with its [num_attributes] valid entries. *)
Record ldb_schema := {
  attributes : list ldb_schema_attribute
}.

Definition num_attributes (ldb : ldb_schema) : Z :=
  Z.of_nat (length (attributes ldb)).

(** What [ldb_schema_attribute_by_name] returns: a pointer to entry [i]
    of the array, or the address of [ldb_attribute_default]. *)
Inductive attr_ref :=
| Slot (i : nat)
| Builtin.

(** Fields read through such a pointer. [&ldb_attribute_default] has
    name NULL, flags 0 and syntax [ldb_syntax_default]. *)
Definition ref_name (ldb : ldb_schema) (r : attr_ref) : option string :=
  match r with
  | Slot i => attr_name <$> attributes ldb !! i
  | Builtin => None
  end.

Definition ref_flags (ldb : ldb_schema) (r : attr_ref) : option Z :=
  match r with
  | Slot i => attr_flags <$> attributes ldb !! i
  | Builtin => Some 0
  end.

Definition ref_syntax (ldb : ldb_schema) (r : attr_ref) : option ldb_schema_syntax :=
  match r with
  | Slot i => attr_syntax <$> attributes ldb !! i
  | Builtin => Some ldb_syntax_default
  end.

(** The [while (b <= e)] loop of [ldb_schema_attribute_by_name]. Each
    turn shrinks [e - b], so [fuel] turns suffice once [fuel] exceeds
    the array length. *)
Fixpoint by_name_loop (fuel : nat) (attrs : list ldb_schema_attribute)
    (name : string) (b e : Z) (def : attr_ref) : option attr_ref :=
  match fuel with
  | O => None
  | S fuel' =>
      if b <=? e then
        let i := Z.quot (b + e) 2 in
        match attrs !! Z.to_nat i with
        | None => None
        | Some a =>
            let r := ldb_attr_cmp name (attr_name a) in
            if r =? 0 then Some (Slot (Z.to_nat i))
            else if r <? 0 then by_name_loop fuel' attrs name b (i - 1) def
            else by_name_loop fuel' attrs name (i + 1) e def
        end
      else Some def
  end.

(** [ldb_schema_attribute_by_name]. The first statement reads
    [attributes[0].name] whatever [num_attributes] is. *)
Definition ldb_schema_attribute_by_name (ldb : ldb_schema) (name : string)
    : option attr_ref :=
  match attributes ldb with
  | [] => None
  | a0 :: _ =>
      let '(def, b) :=
        if String.eqb (attr_name a0) "*" then (Slot 0, 1) else (Builtin, 0) in
      by_name_loop (S (length (attributes ldb))) (attributes ldb) name
                   b (num_attributes ldb - 1) def
  end.

(** [ldb_schema_attribute_remove]: the entry found by name is cut out of
    the array ([memmove] of the tail, [num_attributes--]). *)
Definition ldb_schema_attribute_remove (ldb : ldb_schema) (name : string)
    : option ldb_schema :=
  match ldb_schema_attribute_by_name ldb name with
  | None => None
  | Some Builtin => Some ldb
  | Some (Slot i) =>
      match attributes ldb !! i with
      | None => None
      | Some a =>
          if has_flag (attr_flags a) LDB_ATTR_FLAG_FIXED then Some ldb
          else Some {| attributes := delete i (attributes ldb) |}
      end
  end.

(** [ldb_schema_attribute_add_with_syntax]: the linear scan stops at the
    first entry that compares equal (overwritten unless fixed) or
    greater (the new entry is inserted before it); otherwise the entry
    is appended. [syntax = NULL] is refused. *)
Fixpoint schema_insert (attrs : list ldb_schema_attribute)
    (new : ldb_schema_attribute) : list ldb_schema_attribute :=
  match attrs with
  | [] => [new]
  | a :: rest =>
      let cmp := ldb_attr_cmp (attr_name new) (attr_name a) in
      if cmp =? 0 then
        if has_flag (attr_flags a) LDB_ATTR_FLAG_FIXED then a :: rest
        else new :: rest
      else if cmp <? 0 then new :: a :: rest
      else a :: schema_insert rest new
  end.

Definition LDB_SUCCESS : Z := 0.
Definition LDB_ERR_OPERATIONS_ERROR : Z := 1.

Definition ldb_schema_attribute_add_with_syntax (ldb : ldb_schema)
    (attribute : string) (flags : Z) (syntax : option ldb_schema_syntax)
    : Z * ldb_schema :=
  match syntax with
  | None => (LDB_ERR_OPERATIONS_ERROR, ldb)
  | Some s =>
      (0, {| attributes :=
               schema_insert (attributes ldb)
                 {| attr_name := attribute; attr_flags := flags;
                    attr_syntax := s |} |})
  end.

(** ** Result codes *)

(** Modelled from the spec: the error taxonomy of section 7. ldb.h is
    not under src/; the numeric values are the LDAP result codes ldb
    uses. The functions below only compare them with each other. *)
Definition LDB_ERR_PROTOCOL_ERROR : Z := 2.
Definition LDB_ERR_TIME_LIMIT_EXCEEDED : Z := 3.
Definition LDB_ERR_UNSUPPORTED_CRITICAL_EXTENSION : Z := 12.
Definition LDB_ERR_NO_SUCH_ATTRIBUTE : Z := 16.
Definition LDB_ERR_ATTRIBUTE_OR_VALUE_EXISTS : Z := 20.
Definition LDB_ERR_INVALID_ATTRIBUTE_SYNTAX : Z := 21.
Definition LDB_ERR_NO_SUCH_OBJECT : Z := 32.
Definition LDB_ERR_INSUFFICIENT_ACCESS_RIGHTS : Z := 50.
Definition LDB_ERR_BUSY : Z := 51.
Definition LDB_ERR_ENTRY_ALREADY_EXISTS : Z := 68.
Definition LDB_ERR_OTHER : Z := 80.

Inductive TDB_ERROR :=
| TDB_SUCCESS | TDB_ERR_CORRUPT | TDB_ERR_IO | TDB_ERR_LOCK | TDB_ERR_OOM
| TDB_ERR_EXISTS | TDB_ERR_NOLOCK | TDB_ERR_LOCK_TIMEOUT | TDB_ERR_NOEXIST
| TDB_ERR_EINVAL | TDB_ERR_RDONLY
| TDB_ERR_unlisted.  (* any code the switch of [ltdb_err_map] does not list *)

(** [ltdb_err_map]: map a tdb error code to a ldb error code. *)
Definition ltdb_err_map (tdb_code : TDB_ERROR) : Z :=
  match tdb_code with
  | TDB_SUCCESS => LDB_SUCCESS
  | TDB_ERR_CORRUPT | TDB_ERR_OOM | TDB_ERR_EINVAL => LDB_ERR_OPERATIONS_ERROR
  | TDB_ERR_IO => LDB_ERR_PROTOCOL_ERROR
  | TDB_ERR_LOCK | TDB_ERR_NOLOCK => LDB_ERR_BUSY
  | TDB_ERR_LOCK_TIMEOUT => LDB_ERR_TIME_LIMIT_EXCEEDED
  | TDB_ERR_EXISTS => LDB_ERR_ENTRY_ALREADY_EXISTS
  | TDB_ERR_NOEXIST => LDB_ERR_NO_SUCH_OBJECT
  | TDB_ERR_RDONLY => LDB_ERR_INSUFFICIENT_ACCESS_RIGHTS
  | TDB_ERR_unlisted => LDB_ERR_OTHER
  end.

(** ** Messages *)

(** A DN is kept as its linearized text, which is what every use in
    ldb_tdb.c goes through ([ldb_dn_get_linearized], the special-DN
    tests, [ldb_dn_new] from a literal). *)
Definition ldb_dn := string.

Record ldb_message_element := {
  el_flags : Z;
  el_name : string;
  el_values : list ldb_val
}.

Record ldb_message := {
  msg_dn : ldb_dn;
  msg_elements : list ldb_message_element
}.

(** Modelled from the spec: the modify tags ("each tagged with one of
    ADD, REPLACE, DELETE. Any other flag: protocol-error"); the values
    are those of ldb.h. *)
Definition LDB_FLAG_MOD_MASK : Z := 3.
Definition LDB_FLAG_MOD_ADD : Z := 1.
Definition LDB_FLAG_MOD_REPLACE : Z := 2.
Definition LDB_FLAG_MOD_DELETE : Z := 3.

(** The well-known names of ldb_tdb.h, as the design document spells
    them. *)
Definition LTDB_BASEINFO : ldb_dn := "@BASEINFO".
Definition LTDB_ATTRIBUTES : ldb_dn := "@ATTRIBUTES".
Definition LTDB_INDEXLIST : ldb_dn := "@INDEXLIST".
Definition LTDB_SEQUENCE_NUMBER : string := "sequenceNumber".
Definition LTDB_MOD_TIMESTAMP : string := "modifyTimestamp".

(** Modelled from the spec: the DN library is not under src/. "Special
    DN: any DN whose first component begins with @"; a special DN *is*
    one of the well-known records when its text is that record's name. *)
Definition ldb_dn_is_special (dn : ldb_dn) : bool :=
  match dn with
  | String "@" _ => true
  | _ => false
  end.

Definition ldb_dn_check_special (dn : ldb_dn) (check : string) : bool :=
  ldb_dn_is_special dn && String.eqb dn check.

Definition ldb_dn_get_linearized (dn : ldb_dn) : option string := Some dn.

(** The bytes of a record key: "DN=", the folded DN and the trailing
    NUL, which is part of the key. *)
Definition record_key (dn_folded : string) : string :=
  String.append "DN=" (String.append dn_folded (String "000" EmptyString)).

(** ** The key/value store *)

Inductive tdb_flag := TDB_REPLACE | TDB_INSERT | TDB_MODIFY.

Section Store.
Context {tdb_data : Type}.

(** Modelled from the spec: the single-file key/value store is "assumed
    primitive". It is a finite map from key bytes to value bytes;
    "insert with insert-flag fails if a record already exists", the
    modify-flag needs the record to exist, and deleting or fetching a
    missing key fails with no-exist. A failed call leaves the map as it
    was; the [inl] carries what [tdb_error] reports next. *)
Definition tdb_store (t : gmap string tdb_data) (key : string)
    (data : tdb_data) (flgs : tdb_flag) : TDB_ERROR + gmap string tdb_data :=
  match flgs, t !! key with
  | TDB_INSERT, Some _ => inl TDB_ERR_EXISTS
  | TDB_MODIFY, None => inl TDB_ERR_NOEXIST
  | _, _ => inr (<[key := data]> t)
  end.

Definition tdb_delete (t : gmap string tdb_data) (key : string)
    : TDB_ERROR + gmap string tdb_data :=
  match t !! key with
  | None => inl TDB_ERR_NOEXIST
  | Some _ => inr (delete key t)
  end.

Definition tdb_fetch (t : gmap string tdb_data) (key : string)
    : TDB_ERROR + tdb_data :=
  match t !! key with
  | None => inl TDB_ERR_NOEXIST
  | Some d => inr d
  end.

(** ** The backend state *)

(** What a [struct ldb_module] of this backend reaches: the schema
    registry of [module->ldb] and the store of its private data. *)
Record ldb_module := {
  ldb : ldb_schema;
  tdb : gmap string tdb_data
}.

Definition set_tdb (m : ldb_module) (t : gmap string tdb_data) : ldb_module :=
  {| ldb := ldb m; tdb := t |}.

(** A small state monad for the functions that take [module]. *)
Definition op (A : Type) : Type := ldb_module -> A * ldb_module.
Definition op_ret {A} (a : A) : op A := fun s => (a, s).
Definition op_bind {A B} (c : op A) (k : A -> op B) : op B :=
  fun s => let '(a, s') := c s in k a s'.
(** [ret = c; if (ret != LDB_SUCCESS) return ret; k] *)
Definition op_check (c : op Z) (k : op Z) : op Z :=
  op_bind c (fun r => if r =? LDB_SUCCESS then k else op_ret r).

(** The functions of this repository that ldb_tdb.c calls and that are
    not under src/: the DN library, the record codec, the cache
    loader, the index manager, the sequence tracker and the message
    accessors. They are taken as given; each property below states
    what it assumes of them. The packed form of a record is "the entry
    excluding the DN", so unpacking yields the elements and the caller
    fills in the DN. *)
Class ltdb_collaborators := {
  ldb_dn_get_casefold : ldb_dn -> option string;
  ldb_dn_compare : ldb_dn -> ldb_dn -> Z;
  ltdb_pack_data : ldb_message -> option tdb_data;
  ltdb_unpack_data : tdb_data -> option (list ldb_message_element);
  ltdb_check_at_attributes_values : ldb_val -> Z;
  ltdb_cache_load : op Z;
  ltdb_index_add : ldb_message -> op Z;
  ltdb_index_del : ldb_message -> op Z;
  ltdb_index_one : ldb_message -> Z -> op Z;
  ltdb_index_del_value : string -> ldb_message_element -> nat -> op Z;
  ltdb_reindex : op Z;
  ltdb_increase_sequence_number : op Z;
  ldb_msg_find_attr_as_uint64 : ldb_message -> string -> Z -> Z;
  ldb_msg_find_attr_as_string : ldb_message -> string -> option string;
  ldb_string_to_time : string -> Z
}.
End Store.

Arguments ldb_module : clear implicits.
Arguments ltdb_collaborators : clear implicits.
Arguments op : clear implicits.

Declare Scope op_scope.
Delimit Scope op_scope with op.
Notation "x <- c ;; k" := (op_bind c (fun x => k))
  (at level 100, c at next level, right associativity) : op_scope.
Notation "'check' c ;; k" := (op_check c k)
  (at level 100, c at next level, right associativity) : op_scope.

(** ** Requests and handles *)

Inductive ldb_async_state := LDB_ASYNC_INIT | LDB_ASYNC_PENDING | LDB_ASYNC_DONE.

Record ldb_handle := {
  h_status : Z;
  h_state : ldb_async_state
}.

Record ldb_control := {
  ctrl_oid : string;
  ctrl_critical : bool
}.

(** What the backend reads of a [struct ldb_request] besides the
    operation's own arguments. The completion callback is called with a
    NULL message; [req_callback] is the code it returns, when set. *)
Record ldb_request := {
  req_controls : list ldb_control;
  req_callback : option Z
}.

(** Modelled from the spec: [check_critical_controls] is not under src/.
    The dispatcher "rejects any request bearing a control flagged
    critical that it does not recognize", and this backend recognizes
    none. *)
Definition check_critical_controls (controls : list ldb_control) : bool :=
  existsb ctrl_critical controls.

(** [init_ltdb_handle] *)
Definition init_ltdb_handle : ldb_handle :=
  {| h_status := LDB_SUCCESS; h_state := LDB_ASYNC_INIT |}.

Inductive ldb_sequence_type :=
| LDB_SEQ_HIGHEST_SEQ | LDB_SEQ_HIGHEST_TIMESTAMP | LDB_SEQ_NEXT.

(** Conversion to [uint64_t]. *)
Definition to_uint64 (z : Z) : Z := z mod 2 ^ 64.

(** ** ldb_tdb.c *)

Section Backend.
Context {tdb_data : Type} {C : ltdb_collaborators tdb_data}.
Local Open Scope op_scope.

Abbreviation module := (ldb_module tdb_data).
Abbreviation op := (op tdb_data).

(** [ltdb_key]; a NULL [dptr] is [None]. *)
Definition ltdb_key (dn : ldb_dn) : option string :=
  match ldb_dn_get_casefold dn with
  | None => None
  | Some dn_folded => Some (record_key dn_folded)
  end.

(** [ltdb_check_special_dn] *)
Definition ltdb_check_special_dn (msg : ldb_message) : Z :=
  if negb (ldb_dn_is_special (msg_dn msg))
     || negb (ldb_dn_check_special (msg_dn msg) LTDB_ATTRIBUTES)
  then 0
  else if existsb
            (fun el => existsb
               (fun v => negb (ltdb_check_at_attributes_values v =? 0))
               (el_values el))
            (msg_elements msg)
  then LDB_ERR_INVALID_ATTRIBUTE_SYNTAX
  else 0.

(** [ltdb_modified] *)
Definition ltdb_modified (dn : ldb_dn) : op Z :=
  ret <- (if ldb_dn_is_special dn
             && (ldb_dn_check_special dn LTDB_INDEXLIST
                 || ldb_dn_check_special dn LTDB_ATTRIBUTES)
          then ltdb_reindex
          else op_ret LDB_SUCCESS) ;;
  if (ret =? LDB_SUCCESS)
     && negb (ldb_dn_is_special dn && ldb_dn_check_special dn LTDB_BASEINFO)
  then ltdb_increase_sequence_number
  else op_ret ret.

(** A [tdb_delete] whose result is not looked at. *)
Definition tdb_delete_unchecked (key : string) (s : module) : module :=
  match tdb_delete (tdb s) key with
  | inl _ => s
  | inr t => set_tdb s t
  end.

(** [ltdb_store] *)
Definition ltdb_store (msg : ldb_message) (flgs : tdb_flag) : op Z :=
  fun s =>
    match ltdb_key (msg_dn msg) with
    | None => (LDB_ERR_OTHER, s)
    | Some tdb_key =>
        match ltdb_pack_data msg with
        | None => (LDB_ERR_OTHER, s)
        | Some data =>
            match tdb_store (tdb s) tdb_key data flgs with
            | inl e => (ltdb_err_map e, s)
            | inr t =>
                let '(ret, s') := ltdb_index_add msg (set_tdb s t) in
                if ret =? LDB_SUCCESS then (ret, s')
                else (ret, tdb_delete_unchecked tdb_key s')
            end
        end
    end.

(** [ltdb_add_internal] *)
Definition ltdb_add_internal (msg : ldb_message) : op Z :=
  let ret := ltdb_check_special_dn msg in
  if negb (ret =? LDB_SUCCESS) then op_ret ret
  else
    r <- ltdb_cache_load ;;
    if negb (r =? 0) then op_ret LDB_ERR_OPERATIONS_ERROR
    else
      ret <- ltdb_store msg TDB_INSERT ;;
      if ret =? LDB_ERR_ENTRY_ALREADY_EXISTS then op_ret ret
      else if ret =? LDB_SUCCESS then
        check ltdb_index_one msg 1 ;;
        ltdb_modified (msg_dn msg)
      else op_ret ret.

(** The tail shared by the four request entry points: on an internal
    failure the code goes to the handle, otherwise the callback runs;
    the handle ends DONE either way. *)
Definition finish (req : ldb_request) (tret : Z) : Z * option ldb_handle :=
  if negb (tret =? LDB_SUCCESS)
  then (LDB_SUCCESS, Some {| h_status := tret; h_state := LDB_ASYNC_DONE |})
  else (default LDB_SUCCESS (req_callback req),
        Some {| h_status := LDB_SUCCESS; h_state := LDB_ASYNC_DONE |}).

(** [ltdb_add] *)
Definition ltdb_add (req : ldb_request) (message : ldb_message)
    : op (Z * option ldb_handle) :=
  if check_critical_controls (req_controls req)
  then op_ret (LDB_ERR_UNSUPPORTED_CRITICAL_EXTENSION, None)
  else
    tret <- ltdb_add_internal message ;;
    op_ret (finish req tret).

(** [ltdb_delete_noindex] *)
Definition ltdb_delete_noindex (dn : ldb_dn) : op Z :=
  fun s =>
    match ltdb_key dn with
    | None => (LDB_ERR_OTHER, s)
    | Some tdb_key =>
        match tdb_delete (tdb s) tdb_key with
        | inl e => (ltdb_err_map e, s)
        | inr t => (0, set_tdb s t)
        end
    end.

(** Modelled from the spec: [ltdb_search_dn1] (ldb_search.c) is not
    under src/. "Fetch msg = read(dn); no-such-object on miss": the
    record under the DN's key, unpacked, its DN filled in by the
    caller's, the same steps as the head of [ltdb_modify_internal]. It
    does not write. *)
Definition ltdb_search_dn1 (dn : ldb_dn) (s : module) : Z + ldb_message :=
  match ltdb_key dn with
  | None => inl LDB_ERR_OPERATIONS_ERROR
  | Some tdb_key =>
      match tdb_fetch (tdb s) tdb_key with
      | inl _ => inl LDB_ERR_NO_SUCH_OBJECT
      | inr data =>
          match ltdb_unpack_data data with
          | None => inl LDB_ERR_OPERATIONS_ERROR
          | Some els => inr {| msg_dn := dn; msg_elements := els |}
          end
      end
  end.

(** [ltdb_delete_internal] *)
Definition ltdb_delete_internal (dn : ldb_dn) : op Z :=
  fun s =>
    match ltdb_search_dn1 dn s with
    | inl ret => (ret, s)
    | inr msg =>
        (check ltdb_delete_noindex dn ;;
         check ltdb_index_one msg 0 ;;
         check ltdb_index_del msg ;;
         ltdb_modified dn) s
    end.

(** [ltdb_delete] *)
Definition ltdb_delete (req : ldb_request) (dn : ldb_dn)
    : op (Z * option ldb_handle) :=
  if check_critical_controls (req_controls req)
  then op_ret (LDB_ERR_UNSUPPORTED_CRITICAL_EXTENSION, None)
  else
    r <- ltdb_cache_load ;;
    if negb (r =? 0) then op_ret (LDB_ERR_OPERATIONS_ERROR, None)
    else
      tret <- ltdb_delete_internal dn ;;
      op_ret (finish req tret).

(** [find_element]: the index of the first element with that name;
    [None] is the C function's -1. *)
Definition find_element (msg : ldb_message) (name : string) : option nat :=
  fst <$> list_find (fun e => ldb_attr_cmp (el_name e) name = 0) (msg_elements msg).

(** [msg_add_element]: a copy of [el] is appended. *)
Definition msg_add_element (msg : ldb_message) (el : ldb_message_element)
    : Z * ldb_message :=
  (0, {| msg_dn := msg_dn msg;
         msg_elements := msg_elements msg ++
           [ {| el_flags := el_flags el; el_name := el_name el;
                el_values := el_values el |} ] |}).

(** The calls [ltdb_index_del_value(module, dn, el, j)] for
    [j = from, from + 1, ...], one per value of [el], results dropped. *)
Fixpoint index_del_values (dn : string) (el : ldb_message_element)
    (from : nat) (count : nat) : op unit :=
  match count with
  | O => op_ret tt
  | S count' =>
      _ <- ltdb_index_del_value dn el from ;;
      index_del_values dn el (S from) count'
  end.

(** The loop of [msg_delete_attribute] over the elements: one with the
    name has its values taken out of the index and is dropped. *)
Fixpoint delete_attribute_loop (dn : string) (name : string)
    (els : list ldb_message_element) : op (list ldb_message_element) :=
  match els with
  | [] => op_ret []
  | e :: rest =>
      if ldb_attr_cmp (el_name e) name =? 0 then
        _ <- index_del_values dn e 0 (length (el_values e)) ;;
        delete_attribute_loop dn name rest
      else
        kept <- delete_attribute_loop dn name rest ;;
        op_ret (e :: kept)
  end.

(** [msg_delete_attribute]: delete all elements having a specified
    attribute name. *)
Definition msg_delete_attribute (msg : ldb_message) (name : string)
    : op (Z * ldb_message) :=
  match ldb_dn_get_linearized (msg_dn msg) with
  | None => op_ret (-1, msg)
  | Some dn =>
      els <- delete_attribute_loop dn name (msg_elements msg) ;;
      op_ret (0, {| msg_dn := msg_dn msg; msg_elements := els |})
  end.

(** The comparison function reached by
    [ldb_schema_attribute_by_name(ldb, name)->syntax->comparison_fn]. *)
Definition attr_comparison (l : ldb_schema) (name : string)
    : option (ldb_val -> ldb_val -> Z) :=
  match ldb_schema_attribute_by_name l name with
  | None => None
  | Some a => comparison_fn <$> ref_syntax l a
  end.

(** [msg_delete_element]: the first value of the first element named
    [name] that compares equal to [val] is removed; an element left
    without values is deleted as a whole. *)
Definition msg_delete_element (msg : ldb_message) (name : string) (val : ldb_val)
    (s : module) : option ((Z * ldb_message) * module) :=
  match find_element msg name with
  | None => Some ((-1, msg), s)
  | Some found =>
      match msg_elements msg !! found with
      | None => None
      | Some el =>
          match attr_comparison (ldb s) (el_name el) with
          | None => None
          | Some cmp =>
              match list_find (fun v => cmp v val = 0) (el_values el) with
              | None => Some ((-1, msg), s)
              | Some (i, _) =>
                  let el' := {| el_flags := el_flags el; el_name := el_name el;
                                el_values := delete i (el_values el) |} in
                  let msg' := {| msg_dn := msg_dn msg;
                                 msg_elements := <[found := el']> (msg_elements msg) |} in
                  if Nat.eqb (length (el_values el')) 0
                  then Some (msg_delete_attribute msg' name s)
                  else Some ((0, msg'), s)
              end
          end
      end
  end.

(** Modelled from the spec: [ldb_msg_find_val] (ldb_msg.c) is not under
    src/. Modify-ADD rejects a value "equal (per syntax compare) to any
    existing value": the position of the first value of [el] that
    compares zero with [val] under the comparison function of the
    element's attribute; [Some None] is the C function's NULL. *)
Definition ldb_msg_find_val (l : ldb_schema) (el : ldb_message_element)
    (val : ldb_val) : option (option nat) :=
  match attr_comparison l (el_name el) with
  | None => None
  | Some cmp => Some (fst <$> list_find (fun v => cmp v val = 0) (el_values el))
  end.

(** The test [ldb_msg_find_val(el, &el->values[j]) != &el->values[j]]
    for the values [vs] that sit at positions [j], [j + 1], ... of [el];
    [Some true] when some value fails it. *)
Fixpoint provided_more_than_once (l : ldb_schema) (el : ldb_message_element)
    (j : nat) (vs : list ldb_val) : option bool :=
  match vs with
  | [] => Some false
  | v :: rest =>
      match ldb_msg_find_val l el v with
      | None => None
      | Some found =>
          if bool_decide (found = Some j) then provided_more_than_once l el (S j) rest
          else Some true
      end
  end.

(** The first loop of the ADD branch, over the same values: a value
    found in [el2], or provided more than once, ends it. *)
Fixpoint add_rejected (l : ldb_schema) (el2 el : ldb_message_element)
    (j : nat) (vs : list ldb_val) : option bool :=
  match vs with
  | [] => Some false
  | v :: rest =>
      match ldb_msg_find_val l el2 v with
      | None => None
      | Some (Some _) => Some true
      | Some None =>
          match ldb_msg_find_val l el v with
          | None => None
          | Some found =>
              if bool_decide (found = Some j) then add_rejected l el2 el (S j) rest
              else Some true
          end
      end
  end.

(** The second loop of the DELETE branch: each listed value is deleted
    from the record, then from the index. *)
Fixpoint delete_values (dn : string) (el : ldb_message_element) (j : nat)
    (vs : list ldb_val) (msg2 : ldb_message) (s : module)
    : option ((Z * ldb_message) * module) :=
  match vs with
  | [] => Some ((LDB_SUCCESS, msg2), s)
  | v :: rest =>
      match msg_delete_element msg2 (el_name el) v s with
      | None => None
      | Some ((r, msg2'), s') =>
          if negb (r =? 0) then Some ((LDB_ERR_NO_SUCH_ATTRIBUTE, msg2'), s')
          else
            let '(ret, s'') := ltdb_index_del_value dn el j s' in
            if negb (ret =? LDB_SUCCESS) then Some ((ret, msg2'), s'')
            else delete_values dn el (S j) rest msg2' s''
      end
  end.

Definition set_values (el : ldb_message_element) (vs : list ldb_val)
    : ldb_message_element :=
  {| el_flags := el_flags el; el_name := el_name el; el_values := vs |}.

Definition set_elements (msg : ldb_message) (els : list ldb_message_element)
    : ldb_message :=
  {| msg_dn := msg_dn msg; msg_elements := els |}.

(** One turn of the [for] loop of [ltdb_modify_internal]: the request
    element [el] is applied to the working copy [msg2]. The code is
    [LDB_SUCCESS] when the loop goes on and otherwise what [goto failed]
    returns. [dn] is the DN of the request. *)
Definition modify_element (dn : ldb_dn) (el : ldb_message_element)
    (msg2 : ldb_message) (s : module) : option ((Z * ldb_message) * module) :=
  let flag := Z.land (el_flags el) LDB_FLAG_MOD_MASK in
  if flag =? LDB_FLAG_MOD_ADD then
    match find_element msg2 (el_name el) with
    | None =>
        let '(r, msg2') := msg_add_element msg2 el in
        if negb (r =? 0) then Some ((LDB_ERR_OTHER, msg2'), s)
        else Some ((LDB_SUCCESS, msg2'), s)
    | Some idx =>
        match msg_elements msg2 !! idx with
        | None => None
        | Some el2 =>
            match add_rejected (ldb s) el2 el 0 (el_values el) with
            | None => None
            | Some true => Some ((LDB_ERR_ATTRIBUTE_OR_VALUE_EXISTS, msg2), s)
            | Some false =>
                Some ((LDB_SUCCESS,
                       set_elements msg2
                         (<[idx := set_values el2 (el_values el2 ++ el_values el)]>
                            (msg_elements msg2))), s)
            end
        end
    end
  else if flag =? LDB_FLAG_MOD_REPLACE then
    let '((_, msg2'), s') := msg_delete_attribute msg2 (el_name el) s in
    match provided_more_than_once (ldb s') el 0 (el_values el) with
    | None => None
    | Some true => Some ((LDB_ERR_ATTRIBUTE_OR_VALUE_EXISTS, msg2'), s')
    | Some false =>
        if negb (Nat.eqb (length (el_values el)) 0) then
          let '(r, msg2'') := msg_add_element msg2' el in
          if negb (r =? 0) then Some ((LDB_ERR_OTHER, msg2''), s')
          else Some ((LDB_SUCCESS, msg2''), s')
        else Some ((LDB_SUCCESS, msg2'), s')
    end
  else if flag =? LDB_FLAG_MOD_DELETE then
    match ldb_dn_get_linearized dn with
    | None => Some ((LDB_ERR_OTHER, msg2), s)
    | Some dnstr =>
        if Nat.eqb (length (el_values el)) 0 then
          let '((r, msg2'), s') := msg_delete_attribute msg2 (el_name el) s in
          if negb (r =? 0) then Some ((LDB_ERR_NO_SUCH_ATTRIBUTE, msg2'), s')
          else Some ((LDB_SUCCESS, msg2'), s')
        else delete_values dnstr el 0 (el_values el) msg2 s
    end
  else Some ((LDB_ERR_PROTOCOL_ERROR, msg2), s).

(** The [for] loop itself. *)
Fixpoint modify_elements (dn : ldb_dn) (els : list ldb_message_element)
    (msg2 : ldb_message) (s : module) : option ((Z * ldb_message) * module) :=
  match els with
  | [] => Some ((LDB_SUCCESS, msg2), s)
  | el :: rest =>
      match modify_element dn el msg2 s with
      | None => None
      | Some ((ret, msg2'), s') =>
          if negb (ret =? LDB_SUCCESS) then Some ((ret, msg2'), s')
          else modify_elements dn rest msg2' s'
      end
  end.

(** [ltdb_modify_internal] *)
Definition ltdb_modify_internal (msg : ldb_message) (s : module)
    : option (Z * module) :=
  match ltdb_key (msg_dn msg) with
  | None => Some (LDB_ERR_OTHER, s)
  | Some tdb_key =>
      match tdb_fetch (tdb s) tdb_key with
      | inl e => Some (ltdb_err_map e, s)
      | inr data =>
          match ltdb_unpack_data data with
          | None => Some (LDB_ERR_OTHER, s)
          | Some els2 =>
              let msg2 := {| msg_dn := msg_dn msg; msg_elements := els2 |} in
              match modify_elements (msg_dn msg) (msg_elements msg) msg2 s with
              | None => None
              | Some ((ret, msg2'), s') =>
                  if negb (ret =? LDB_SUCCESS) then Some (ret, s')
                  else Some ((check ltdb_store msg2' TDB_MODIFY ;;
                              ltdb_modified (msg_dn msg)) s')
              end
          end
      end
  end.

(** [ltdb_modify] *)
Definition ltdb_modify (req : ldb_request) (message : ldb_message) (s : module)
    : option ((Z * option ldb_handle) * module) :=
  if check_critical_controls (req_controls req)
  then Some ((LDB_ERR_UNSUPPORTED_CRITICAL_EXTENSION, None), s)
  else
    let tret := ltdb_check_special_dn message in
    if negb (tret =? LDB_SUCCESS) then Some (finish req tret, s)
    else
      let '(r, s1) := ltdb_cache_load s in
      if negb (r =? 0)
      then Some ((LDB_ERR_OPERATIONS_ERROR,
                  Some {| h_status := LDB_SUCCESS; h_state := LDB_ASYNC_DONE |}), s1)
      else
        match ltdb_modify_internal message s1 with
        | None => None
        | Some (tret, s2) => Some (finish req tret, s2)
        end.

(** How [ltdb_rename] leaves once the old record is read: [ret] is
    returned as it stands, the handle status was never touched. *)
Definition rename_done (ret : Z) : Z * option ldb_handle :=
  (ret, Some {| h_status := LDB_SUCCESS; h_state := LDB_ASYNC_DONE |}).

(** [ltdb_rename] *)
Definition ltdb_rename (req : ldb_request) (olddn newdn : ldb_dn)
    : op (Z * option ldb_handle) :=
  if check_critical_controls (req_controls req)
  then op_ret (LDB_ERR_UNSUPPORTED_CRITICAL_EXTENSION, None)
  else
    r <- ltdb_cache_load ;;
    if negb (r =? 0) then op_ret (LDB_ERR_OPERATIONS_ERROR, None)
    else fun s =>
      match ltdb_search_dn1 olddn s with
      | inl tret =>
          ((LDB_SUCCESS, Some {| h_status := tret; h_state := LDB_ASYNC_DONE |}), s)
      | inr found =>
          let msg := {| msg_dn := newdn; msg_elements := msg_elements found |} in
          if ldb_dn_compare olddn newdn =? 0 then
            (ret <- ltdb_delete_internal olddn ;;
             if negb (ret =? LDB_SUCCESS) then op_ret (rename_done ret)
             else
               ret <- ltdb_add_internal msg ;;
               if negb (ret =? LDB_SUCCESS) then op_ret (rename_done ret)
               else op_ret (rename_done (default LDB_SUCCESS (req_callback req)))) s
          else
            (ret <- ltdb_add_internal msg ;;
             if negb (ret =? LDB_SUCCESS) then op_ret (rename_done ret)
             else
               tret <- ltdb_delete_internal olddn ;;
               if negb (tret =? LDB_SUCCESS) then
                 _ <- ltdb_delete_internal newdn ;;
                 op_ret (rename_done LDB_ERR_OPERATIONS_ERROR)
               else op_ret (rename_done (default LDB_SUCCESS (req_callback req)))) s
      end.

(** [ltdb_wait] and [ltdb_request] *)
Definition ltdb_wait (handle : ldb_handle) : Z := h_status handle.

Definition ltdb_request (req : ldb_request) : Z :=
  if check_critical_controls (req_controls req)
  then LDB_ERR_UNSUPPORTED_CRITICAL_EXTENSION
  else LDB_ERR_OPERATIONS_ERROR.

(** [ltdb_sequence_number]: the code returned and the value left in
    [req->op.seq_num.seq_num], a [uint64_t]. The module is only read. *)
Definition ltdb_sequence_number (type : ldb_sequence_type) : op (Z * Z) :=
  fun s =>
    match ltdb_search_dn1 LTDB_BASEINFO s with
    | inl _ => ((LDB_SUCCESS, 0), s)
    | inr msg =>
        match type with
        | LDB_SEQ_HIGHEST_SEQ =>
            ((LDB_SUCCESS, ldb_msg_find_attr_as_uint64 msg LTDB_SEQUENCE_NUMBER 0), s)
        | LDB_SEQ_NEXT =>
            ((LDB_SUCCESS,
              to_uint64 (ldb_msg_find_attr_as_uint64 msg LTDB_SEQUENCE_NUMBER 0 + 1)), s)
        | LDB_SEQ_HIGHEST_TIMESTAMP =>
            match ldb_msg_find_attr_as_string msg LTDB_MOD_TIMESTAMP with
            | Some date => ((LDB_SUCCESS, to_uint64 (ldb_string_to_time date)), s)
            | None => ((LDB_SUCCESS, 0), s)
            end
        end
    end.

End Backend.

(** ** Seeding the registry *)

Section Wellknown.
(** [ldb_standard_syntax_by_name] (ldb_attrib_handlers.c) is not under
    src/; NULL is [None]. *)
Variable ldb_standard_syntax_by_name : string -> option ldb_schema_syntax.

(** [ldb_schema_attribute_add] *)
Definition ldb_schema_attribute_add (l : ldb_schema) (attribute : string)
    (flags : Z) (syntax : string) : Z * ldb_schema :=
  ldb_schema_attribute_add_with_syntax l attribute flags
    (ldb_standard_syntax_by_name syntax).

Definition LDB_SYNTAX_DN : string := "1.3.6.1.4.1.1466.115.121.1.12".
Definition LDB_SYNTAX_DIRECTORY_STRING : string := "1.3.6.1.4.1.1466.115.121.1.15".
Definition LDB_SYNTAX_OBJECTCLASS : string := "LDB_SYNTAX_OBJECTCLASS".

Definition wellknown : list (string * string) :=
  [ ("dn", LDB_SYNTAX_DN); ("distinguishedName", LDB_SYNTAX_DN);
    ("cn", LDB_SYNTAX_DIRECTORY_STRING); ("dc", LDB_SYNTAX_DIRECTORY_STRING);
    ("ou", LDB_SYNTAX_DIRECTORY_STRING); ("objectClass", LDB_SYNTAX_OBJECTCLASS) ].

Fixpoint setup_attributes (todo : list (string * string)) (l : ldb_schema)
    : Z * ldb_schema :=
  match todo with
  | [] => (LDB_SUCCESS, l)
  | (attr, syntax) :: rest =>
      let '(ret, l') := ldb_schema_attribute_add l attr 0 syntax in
      if negb (ret =? LDB_SUCCESS) then (ret, l')
      else setup_attributes rest l'
  end.

(** [ldb_setup_wellknown_attributes] *)
Definition ldb_setup_wellknown_attributes (l : ldb_schema) : Z * ldb_schema :=
  setup_attributes wellknown l.
End Wellknown.

(** ** Notions the properties are stated with *)

(** The registry invariant of the design document: sorted by
    case-insensitive name, a wildcard entry first if present. The
    wildcard is looked for with [strcmp], and the search leaves entry 0
    out when it is the wildcard, so the order is asked of the entries
    after it. *)
Definition is_wildcard (a : ldb_schema_attribute) : Prop := attr_name a = "*".

Definition sorted_from (from : nat) (attrs : list ldb_schema_attribute) : Prop :=
  forall i j a b, (from <= i)%nat -> (i < j)%nat ->
    attrs !! i = Some a -> attrs !! j = Some b ->
    ldb_attr_cmp (attr_name a) (attr_name b) <= 0.

Definition wildcard_first (attrs : list ldb_schema_attribute) : Prop :=
  forall i a, attrs !! i = Some a -> is_wildcard a -> i = 0%nat.

Definition has_wildcard (attrs : list ldb_schema_attribute) : Prop :=
  exists i a, attrs !! i = Some a /\ is_wildcard a.

(** Where the binary search starts: after a leading wildcard. *)
Definition search_start (attrs : list ldb_schema_attribute) : nat :=
  match attrs with
  | a0 :: _ => if String.eqb (attr_name a0) "*" then 1%nat else 0%nat
  | [] => 0%nat
  end.

Definition registry_sorted (l : ldb_schema) : Prop :=
  wildcard_first (attributes l) /\
  sorted_from (search_start (attributes l)) (attributes l).

(** [name] is registered: some entry's name compares equal to it. *)
Definition registered (l : ldb_schema) (name : string) : Prop :=
  exists i a, attributes l !! i = Some a /\ ldb_attr_cmp name (attr_name a) = 0.

(** The same notions as boolean tests, to decide them on a given
    registry. *)
Fixpoint names_sorted (names : list string) : bool :=
  match names with
  | [] => true
  | n :: rest => forallb (fun m => ldb_attr_cmp n m <=? 0) rest && names_sorted rest
  end.

Definition registry_sortedb (l : ldb_schema) : bool :=
  let names := map attr_name (attributes l) in
  forallb (fun n => negb (String.eqb n "*")) (tail names)
  && names_sorted (drop (search_start (attributes l)) names).

Definition registeredb (l : ldb_schema) (name : string) : bool :=
  existsb (fun a => ldb_attr_cmp name (attr_name a) =? 0) (attributes l).

Definition has_wildcardb (attrs : list ldb_schema_attribute) : bool :=
  existsb (fun a => String.eqb (attr_name a) "*") attrs.

(** A comparison function under which every value equals itself. *)
Definition reflexive_comparison (cmp : ldb_val -> ldb_val -> Z) : Prop :=
  forall v, cmp v v = 0.

(** Two values at different positions of [vs] compare equal. *)
Definition has_duplicate (cmp : ldb_val -> ldb_val -> Z) (vs : list ldb_val) : Prop :=
  exists i j v w, (i < j)%nat /\ vs !! i = Some v /\ vs !! j = Some w /\ cmp v w = 0.

(** Some value of [vs] compares equal to a value of [ws]. *)
Definition has_common (cmp : ldb_val -> ldb_val -> Z) (ws vs : list ldb_val) : Prop :=
  exists v w, v ∈ vs /\ w ∈ ws /\ cmp w v = 0.

Section Contracts.
Context {tdb_data : Type} {C : ltdb_collaborators tdb_data}.

(** The sequence number in @BASEINFO, as the sequence-number query
    reports it. *)
Definition baseinfo_seq (s : ldb_module tdb_data) : Z :=
  snd (fst (ltdb_sequence_number LDB_SEQ_HIGHEST_SEQ s)).

(** Modelled from the spec: what the properties about the sequence
    number assume of the code that is not under src/. The sequence
    tracker, when it succeeds, has "increment[ed] @BASEINFO.sequenceNumber
    by one" (an unsigned 64-bit number); the cache loader and the index
    manager maintain other records and leave that number as it is. *)
Definition bumps_sequence (f : op tdb_data Z) : Prop :=
  forall s, fst (f s) = LDB_SUCCESS ->
    baseinfo_seq (snd (f s)) = to_uint64 (baseinfo_seq s + 1).

Definition keeps_sequence {A} (f : op tdb_data A) : Prop :=
  forall s, baseinfo_seq (snd (f s)) = baseinfo_seq s.

Record sequence_contract : Prop := {
  tracker_bumps : bumps_sequence ltdb_increase_sequence_number;
  cache_load_keeps : keeps_sequence ltdb_cache_load;
  index_add_keeps : forall m, keeps_sequence (ltdb_index_add m);
  index_del_keeps : forall m, keeps_sequence (ltdb_index_del m);
  index_one_keeps : forall m a, keeps_sequence (ltdb_index_one m a);
  index_del_value_keeps : forall dn el j, keeps_sequence (ltdb_index_del_value dn el j);
  reindex_keeps : keeps_sequence ltdb_reindex
}.

(** [dn] is a DN other than @BASEINFO: the special-DN test says so and
    its record is not @BASEINFO's. *)
Definition not_baseinfo (dn : ldb_dn) : Prop :=
  ldb_dn_check_special dn LTDB_BASEINFO = false /\
  ltdb_key dn <> ltdb_key LTDB_BASEINFO.

(** The index manager leaves the records under the keys of [primary]
    as they are. *)
Definition index_add_leaves (primary : string -> Prop) : Prop :=
  forall msg s k, primary k ->
    tdb (snd (ltdb_index_add msg s)) !! k = tdb s !! k.
End Contracts.

(** ** A small directory to run the backend on

    Concrete collaborators, so that the functions above can be
    evaluated: records are stored as their element lists, DNs fold to
    upper case, numbers are written in decimal, and no attribute is
    indexed. *)
Module Sample.

Abbreviation data := (list ldb_message_element).

Definition casefold (dn : ldb_dn) : option string :=
  Some (if ldb_dn_is_special dn then dn else casefold_name dn).

Definition dn_compare (a b : ldb_dn) : Z :=
  sign_of (String.compare (default a (casefold a)) (default b (casefold b))).

Definition first_value (msg : ldb_message) (name : string) : option ldb_val :=
  match list_find (fun e => ldb_attr_cmp (el_name e) name = 0) (msg_elements msg) with
  | Some (_, e) => head (el_values e)
  | None => None
  end.

Definition decimal (v : string) : Z :=
  match NilEmpty.uint_of_string v with
  | Some d => Z.of_N (N.of_uint d)
  | None => 0
  end.

Definition to_decimal (n : Z) : string :=
  NilEmpty.string_of_uint (N.to_uint (Z.to_N n)).

Definition find_attr_as_uint64 (msg : ldb_message) (name : string) (dflt : Z) : Z :=
  match first_value msg name with
  | Some v => to_uint64 (decimal v)
  | None => dflt
  end.

Definition baseinfo_key : string := record_key "@BASEINFO".

Definition baseinfo_record (seq : Z) (stamp : string) : data :=
  [ {| el_flags := 0; el_name := LTDB_SEQUENCE_NUMBER; el_values := [to_decimal seq] |};
    {| el_flags := 0; el_name := LTDB_MOD_TIMESTAMP; el_values := [stamp] |} ].

(** The sequence tracker: @BASEINFO is rewritten with the next number. *)
Definition increase_sequence_number : op data Z :=
  fun s =>
    match tdb s !! baseinfo_key with
    | None => (LDB_ERR_NO_SUCH_OBJECT, s)
    | Some els =>
        let msg := {| msg_dn := LTDB_BASEINFO; msg_elements := els |} in
        let seq := find_attr_as_uint64 msg LTDB_SEQUENCE_NUMBER 0 in
        (LDB_SUCCESS,
         set_tdb s (<[baseinfo_key := baseinfo_record (to_uint64 (seq + 1)) "0"]> (tdb s)))
    end.

Definition no_index : op data Z := op_ret LDB_SUCCESS.

(** The collaborators, for a given [ltdb_index_add] and
    [ltdb_index_del]. *)
Definition collaborators_with (index_add index_del : ldb_message -> op data Z)
    : ltdb_collaborators data := {|
  ldb_dn_get_casefold := casefold;
  ldb_dn_compare := dn_compare;
  ltdb_pack_data := fun msg => Some (msg_elements msg);
  ltdb_unpack_data := fun d => Some d;
  ltdb_check_at_attributes_values := fun _ => 0;
  ltdb_cache_load := op_ret 0;
  ltdb_index_add := index_add;
  ltdb_index_del := index_del;
  ltdb_index_one := fun _ _ => no_index;
  ltdb_index_del_value := fun _ _ _ => no_index;
  ltdb_reindex := no_index;
  ltdb_increase_sequence_number := increase_sequence_number;
  ldb_msg_find_attr_as_uint64 := find_attr_as_uint64;
  ldb_msg_find_attr_as_string := first_value;
  ldb_string_to_time := decimal
|}.

#[global] Instance collaborators : ltdb_collaborators data :=
  collaborators_with (fun _ => no_index) (fun _ => no_index).

(** The same directory with an index manager that has written one
    index record when it gives up adding. *)
Definition index_key : string := record_key "@INDEX:CN:X".

Definition broken_index_add (msg : ldb_message) : op data Z :=
  fun s =>
    (LDB_ERR_OPERATIONS_ERROR,
     set_tdb s (<[index_key :=
                    [ {| el_flags := 0; el_name := "@IDX";
                         el_values := [msg_dn msg] |} ]]> (tdb s))).

Definition broken_index : ltdb_collaborators data :=
  collaborators_with broken_index_add (fun _ => no_index).


(** Directory strings compare without regard to case; the other
    standard syntaxes are taken to compare bytes. *)
Definition directory_string : ldb_schema_syntax := {|
  syntax_name := LDB_SYNTAX_DIRECTORY_STRING;
  ldif_read_fn := ldb_handler_copy;
  ldif_write_fn := ldb_handler_copy;
  canonicalise_fn := fun v => Some (casefold_name v);
  comparison_fn := ldb_attr_cmp
|}.

Definition standard_syntax (name : string) : option ldb_schema_syntax :=
  if String.eqb name LDB_SYNTAX_DIRECTORY_STRING then Some directory_string
  else if String.eqb name LDB_SYNTAX_OCTET_STRING then Some ldb_syntax_default
  else if String.eqb name LDB_SYNTAX_DN || String.eqb name LDB_SYNTAX_OBJECTCLASS
  then Some {| syntax_name := name;
               ldif_read_fn := ldb_handler_copy;
               ldif_write_fn := ldb_handler_copy;
               canonicalise_fn := ldb_handler_copy;
               comparison_fn := ldb_comparison_binary |}
  else None.

(** The registry after [ldb_setup_wellknown_attributes]. *)
Definition schema : ldb_schema :=
  snd (ldb_setup_wellknown_attributes standard_syntax {| attributes := [] |}).

Definition entry (name : string) (flags : Z) : ldb_schema_attribute :=
  {| attr_name := name; attr_flags := flags; attr_syntax := ldb_syntax_default |}.

Definition element (flags : Z) (name : string) (values : list ldb_val)
    : ldb_message_element :=
  {| el_flags := flags; el_name := name; el_values := values |}.

(** A store holding @BASEINFO at sequence number 5 and the entry
    cn=x with [cn: x] and [member: alice]. *)
Definition cn_x_key : string := record_key "CN=X".

Definition directory : ldb_module data := {|
  ldb := schema;
  tdb := <[cn_x_key := [element 0 "cn" ["x"]; element 0 "member" ["alice"]]]>
           (<[baseinfo_key := baseinfo_record 5 "0"]> ∅)
|}.

Definition no_controls : ldb_request :=
  {| req_controls := []; req_callback := None |}.

End Sample.

(** ** Further notions *)

(** Sorted with no two entries sharing a name. *)
Definition strictly_sorted (attrs : list ldb_schema_attribute) : Prop :=
  forall i j a b, (i < j)%nat ->
    attrs !! i = Some a -> attrs !! j = Some b ->
    ldb_attr_cmp (attr_name a) (attr_name b) < 0.

Fixpoint names_strictly_sorted (names : list string) : bool :=
  match names with
  | [] => true
  | n :: rest =>
      forallb (fun m => ldb_attr_cmp n m <? 0) rest && names_strictly_sorted rest
  end.

(** The array entry a lookup points to, if it points to one. *)
Definition resolve (l : ldb_schema) (name : string) : option ldb_schema_attribute :=
  match ldb_schema_attribute_by_name l name with
  | Some (Slot i) => attributes l !! i
  | _ => None
  end.

Definition is_fixed (a : ldb_schema_attribute) : bool :=
  has_flag (attr_flags a) LDB_ATTR_FLAG_FIXED.

(** No two of the names compare equal. *)
Fixpoint names_distinct (names : list string) : bool :=
  match names with
  | [] => true
  | n :: rest =>
      forallb (fun m => negb (ldb_attr_cmp m n =? 0)) rest && names_distinct rest
  end.

Section MoreContracts.
Context {tdb_data : Type} {C : ltdb_collaborators tdb_data}.

(** [f] leaves the record under key [k] as it is. *)
Definition leaves_record {A} (f : op tdb_data A) (k : string) : Prop :=
  forall s, tdb (snd (f s)) !! k = tdb s !! k.

(** Modelled from the spec: what the round-trip properties assume of the
    code that is not under src/. The codec's "unpack is the exact
    inverse" of pack; the cache loader, the index manager and the
    sequence tracker write meta and index records and leave the records
    under the keys of [primary] alone. *)
Record store_contract (primary : string -> Prop) : Prop := {
  unpack_inverts_pack :
    forall msg data, ltdb_pack_data msg = Some data ->
      ltdb_unpack_data data = Some (msg_elements msg);
  cache_load_leaves : forall k, primary k -> leaves_record ltdb_cache_load k;
  index_add_leaves_record :
    forall k m, primary k -> leaves_record (ltdb_index_add m) k;
  index_del_leaves : forall k m, primary k -> leaves_record (ltdb_index_del m) k;
  index_one_leaves : forall k m a, primary k -> leaves_record (ltdb_index_one m a) k;
  index_del_value_leaves :
    forall k dn el j, primary k -> leaves_record (ltdb_index_del_value dn el j) k;
  reindex_leaves : forall k, primary k -> leaves_record ltdb_reindex k;
  tracker_leaves : forall k, primary k -> leaves_record ltdb_increase_sequence_number k
}.
End MoreContracts.

(** ** Connecting *)

(** [strchr(s, c) != NULL] *)
Fixpoint has_char (c : ascii) (s : string) : bool :=
  match s with
  | EmptyString => false
  | String d r => Ascii.eqb d c || has_char c r
  end.

(** [strncmp(s, p, strlen(p)) == 0] *)
Fixpoint starts_with (p s : string) : bool :=
  match p, s with
  | EmptyString, _ => true
  | String c p', String d s' => Ascii.eqb c d && starts_with p' s'
  | String _ _, EmptyString => false
  end.

(** [s + n] *)
Fixpoint string_skip (n : nat) (s : string) : string :=
  match n, s with
  | O, _ => s
  | S n', String _ r => string_skip n' r
  | S _, EmptyString => EmptyString
  end.

(** The constants of ldb.h, tdb.h and fcntl.h that [ltdb_connect] uses,
    and [ltdb_wrap_open], none of them under src/. *)
Record connect_env (tdb_data : Type) := {
  LDB_FLG_RDONLY : Z;
  LDB_FLG_NOSYNC : Z;
  LDB_FLG_NOMMAP : Z;
  TDB_DEFAULT : Z;
  TDB_SEQNUM : Z;
  TDB_NOSYNC : Z;
  TDB_NOMMAP : Z;
  O_RDONLY : Z;
  O_CREAT : Z;
  O_RDWR : Z;
  ltdb_wrap_open : string -> Z -> Z -> Z -> Z -> option (gmap string tdb_data)
}.
Arguments LDB_FLG_RDONLY {_} _.
Arguments LDB_FLG_NOSYNC {_} _.
Arguments LDB_FLG_NOMMAP {_} _.
Arguments TDB_DEFAULT {_} _.
Arguments TDB_SEQNUM {_} _.
Arguments TDB_NOSYNC {_} _.
Arguments TDB_NOMMAP {_} _.
Arguments O_RDONLY {_} _.
Arguments O_CREAT {_} _.
Arguments O_RDWR {_} _.
Arguments ltdb_wrap_open {_} _.

Section Connect.
Context {tdb_data : Type} {C : ltdb_collaborators tdb_data}.
Variable env : connect_env tdb_data.

(** The URL parsing at the head of [ltdb_connect]; [None] is the
    "Invalid tdb URL" return. *)
Definition connect_path (url : string) : option string :=
  if has_char ":" url then
    if negb (starts_with "tdb://" url) then None
    else Some (string_skip 6 url)
  else Some url.

Definition connect_tdb_flags (flags : Z) : Z :=
  let f0 := Z.lor (TDB_DEFAULT env) (TDB_SEQNUM env) in
  let f1 := if negb (Z.land flags (LDB_FLG_NOSYNC env) =? 0)
            then Z.lor f0 (TDB_NOSYNC env) else f0 in
  if negb (Z.land flags (LDB_FLG_NOMMAP env) =? 0)
  then Z.lor f1 (TDB_NOMMAP env) else f1.

Definition connect_open_flags (flags : Z) : Z :=
  if negb (Z.land flags (LDB_FLG_RDONLY env) =? 0) then O_RDONLY env
  else Z.lor (O_CREAT env) (O_RDWR env).

(** [ltdb_connect]: the code returned and the module built, for the
    context's registry [l] and creation mode [create_perms]. *)
Definition ltdb_connect (l : ldb_schema) (create_perms : Z) (url : string)
    (flags : Z) : Z * option (ldb_module tdb_data) :=
  match connect_path url with
  | None => (-1, None)
  | Some path =>
      match ltdb_wrap_open env path 10000 (connect_tdb_flags flags)
              (connect_open_flags flags) create_perms with
      | None => (-1, None)
      | Some t =>
          let '(r, m) := ltdb_cache_load {| ldb := l; tdb := t |} in
          if negb (r =? 0) then (-1, None) else (0, Some m)
      end
  end.
End Connect.

(** What a caller sees of an internal result [tret]: the code returned
    and the handle. On a failure the code goes to the handle and the
    callback is not run. *)
Definition reported (req : ldb_request) (tret : Z) (ret : Z) (h : option ldb_handle)
    : Prop :=
  exists handle,
    h = Some handle /\ h_state handle = LDB_ASYNC_DONE /\ ltdb_wait handle = tret /\
    ret = if tret =? LDB_SUCCESS then default LDB_SUCCESS (req_callback req)
          else LDB_SUCCESS.

(** ** More of the small directory *)

Module Fixture.

(** The sample collaborators with a check of @ATTRIBUTES values that
    knows two flag names. *)
Definition check_flag_name (v : ldb_val) : Z :=
  if String.eqb v "CASE_INSENSITIVE" || String.eqb v "INTEGER" then 0 else -1.

Definition checking : ltdb_collaborators Sample.data := {|
  ldb_dn_get_casefold := Sample.casefold;
  ldb_dn_compare := Sample.dn_compare;
  ltdb_pack_data := fun msg => Some (msg_elements msg);
  ltdb_unpack_data := fun d => Some d;
  ltdb_check_at_attributes_values := check_flag_name;
  ltdb_cache_load := op_ret 0;
  ltdb_index_add := fun _ => Sample.no_index;
  ltdb_index_del := fun _ => Sample.no_index;
  ltdb_index_one := fun _ _ => Sample.no_index;
  ltdb_index_del_value := fun _ _ _ => Sample.no_index;
  ltdb_reindex := Sample.no_index;
  ltdb_increase_sequence_number := Sample.increase_sequence_number;
  ldb_msg_find_attr_as_uint64 := Sample.find_attr_as_uint64;
  ldb_msg_find_attr_as_string := Sample.first_value;
  ldb_string_to_time := Sample.decimal
|}.

(** The sample directory with a second entry, cn=y. *)
Definition cn_y_key : string := record_key "CN=Y".

Definition two_entries : ldb_module Sample.data := {|
  ldb := Sample.schema;
  tdb := <[cn_y_key := [Sample.element 0 "cn" ["y"]]]> (tdb Sample.directory)
|}.

End Fixture.

(** * Properties of the schema registry *)

(** The order of attribute names. *)
Section NameOrder.

Lemma sign_of_neg c : sign_of c < 0 <-> c = Lt.
Proof. destruct c; simpl; split; intros; try lia; congruence. Qed.

Lemma sign_of_zero c : sign_of c = 0 <-> c = Eq.
Proof. destruct c; simpl; split; intros; try lia; congruence. Qed.

Lemma string_compare_refl s : String.compare s s = Eq.
Proof.
  destruct (String.compare s s) eqn:E; [done | |];
    pose proof (String.compare_antisym s s) as H; rewrite E in H; discriminate.
Qed.

Lemma string_compare_trans a b c :
  String.compare a b = Lt -> String.compare b c = Lt -> String.compare a c = Lt.
Proof.
  intros H1 H2.
  exact (@StrictOrder_Transitive _ _ String_as_OT.lt_strorder a b c H1 H2).
Qed.

Lemma ldb_attr_cmp_refl a : ldb_attr_cmp a a = 0.
Proof. unfold ldb_attr_cmp. by rewrite string_compare_refl. Qed.

Lemma ldb_attr_cmp_lt_le a b c :
  ldb_attr_cmp a b < 0 -> ldb_attr_cmp b c <= 0 -> ldb_attr_cmp a c < 0.
Proof.
  unfold ldb_attr_cmp. rewrite !sign_of_neg. intros H1 H2.
  destruct (String.compare (casefold_name b) (casefold_name c)) eqn:E;
    simpl in H2; try lia.
  - apply String.compare_eq_iff in E. by rewrite <- E.
  - eapply string_compare_trans; eauto.
Qed.

Lemma ldb_attr_cmp_gt_ge a b c :
  0 < ldb_attr_cmp a c -> ldb_attr_cmp b c <= 0 -> 0 < ldb_attr_cmp a b.
Proof.
  unfold ldb_attr_cmp. intros H1 H2.
  rewrite (String.compare_antisym (casefold_name a) (casefold_name c)) in H1.
  rewrite (String.compare_antisym (casefold_name a) (casefold_name b)).
  destruct (String.compare (casefold_name c) (casefold_name a)) eqn:E1;
    simpl in H1; try lia.
  destruct (String.compare (casefold_name b) (casefold_name c)) eqn:E2;
    simpl in H2; try lia.
  - apply String.compare_eq_iff in E2. rewrite E2, E1. simpl. lia.
  - rewrite (string_compare_trans _ _ _ E2 E1). simpl. lia.
Qed.

End NameOrder.

Section Lookup.

(** The binary search never reads outside the array, ends within its
    fuel, and returns either an entry that compares equal or [def]. *)
Lemma by_name_loop_returns fuel : forall attrs name b e def,
  0 <= b -> e < Z.of_nat (length attrs) -> 0 <= e - b + 1 < Z.of_nat fuel ->
  exists r, by_name_loop fuel attrs name b e def = Some r /\
    (r = def \/
     exists i a, r = Slot i /\ attrs !! i = Some a /\
                 ldb_attr_cmp name (attr_name a) = 0).
Proof.
  induction fuel as [|fuel IH]; intros attrs name b e def Hb He Hfuel; [lia|].
  cbn [by_name_loop]. destruct (Z.leb_spec b e) as [Hbe|Hbe]; [|eauto].
  assert (Hq : b <= Z.quot (b + e) 2 <= e).
  { rewrite Z.quot_div_nonneg by lia. split.
    - apply Z.div_le_lower_bound; lia.
    - apply Z.div_le_upper_bound; lia. }
  destruct (lookup_lt_is_Some_2 attrs (Z.to_nat (Z.quot (b + e) 2))) as [a Ha]; [lia|].
  rewrite Ha.
  destruct (Z.eqb_spec (ldb_attr_cmp name (attr_name a)) 0) as [Heq|Hne].
  { eexists; split; [done|]. right. eauto. }
  destruct (Z.ltb_spec (ldb_attr_cmp name (attr_name a)) 0); apply IH; lia.
Qed.

(** On a sorted stretch, [def] comes back only when no entry of the
    stretch compares equal. *)
Lemma by_name_loop_sorted fuel : forall attrs name b e def from,
  sorted_from from attrs ->
  Z.of_nat from <= b -> e < Z.of_nat (length attrs) ->
  0 <= e - b + 1 < Z.of_nat fuel ->
  (forall i a, (from <= i)%nat -> Z.of_nat i < b -> attrs !! i = Some a ->
     ldb_attr_cmp name (attr_name a) <> 0) ->
  (forall i a, e < Z.of_nat i -> attrs !! i = Some a ->
     ldb_attr_cmp name (attr_name a) <> 0) ->
  exists r, by_name_loop fuel attrs name b e def = Some r /\
    ((exists i a, r = Slot i /\ attrs !! i = Some a /\
                  ldb_attr_cmp name (attr_name a) = 0) \/
     (r = def /\
      forall i a, (from <= i)%nat -> attrs !! i = Some a ->
        ldb_attr_cmp name (attr_name a) <> 0)).
Proof.
  induction fuel as [|fuel IH];
    intros attrs name b e def from Hs Hb He Hfuel Hleft Hright; [lia|].
  cbn [by_name_loop]. destruct (Z.leb_spec b e) as [Hbe|Hbe].
  2:{ eexists; split; [done|]. right. split; [done|]. intros i a Hi Ha.
      destruct (Z.lt_ge_cases (Z.of_nat i) b); [eauto|].
      eapply Hright; [|done]. lia. }
  assert (Hq : b <= Z.quot (b + e) 2 <= e).
  { rewrite Z.quot_div_nonneg by lia. split.
    - apply Z.div_le_lower_bound; lia.
    - apply Z.div_le_upper_bound; lia. }
  set (m := Z.quot (b + e) 2) in *.
  destruct (lookup_lt_is_Some_2 attrs (Z.to_nat m)) as [am Ham]; [lia|].
  rewrite Ham.
  destruct (Z.eqb_spec (ldb_attr_cmp name (attr_name am)) 0) as [Heq|Hne].
  { eexists; split; [done|]. left. eauto. }
  destruct (Z.ltb_spec (ldb_attr_cmp name (attr_name am)) 0) as [Hlt|Hge].
  - apply (IH attrs name b (m - 1) def from); try done; try lia.
    intros i a Hi Ha.
    destruct (decide (i = Z.to_nat m)) as [->|Hne'].
    { by simplify_eq. }
    destruct (Z.lt_ge_cases e (Z.of_nat i)); [by eapply Hright|].
    assert (Hord : ldb_attr_cmp (attr_name am) (attr_name a) <= 0).
    { apply (Hs (Z.to_nat m) i); try done; lia. }
    pose proof (ldb_attr_cmp_lt_le _ _ _ Hlt Hord). lia.
  - apply (IH attrs name (m + 1) e def from); try done; try lia.
    intros i a Hfi Hi Ha.
    destruct (decide (i = Z.to_nat m)) as [->|Hne'].
    { by simplify_eq. }
    destruct (Z.lt_ge_cases (Z.of_nat i) b); [by eapply Hleft|].
    assert (Hord : ldb_attr_cmp (attr_name a) (attr_name am) <= 0).
    { apply (Hs i (Z.to_nat m)); try done; lia. }
    assert (Hpos : 0 < ldb_attr_cmp name (attr_name am)) by lia.
    pose proof (ldb_attr_cmp_gt_ge _ _ _ Hpos Hord). lia.
Qed.

Lemma search_start_spec attrs a0 rest :
  attrs = a0 :: rest ->
  (search_start attrs = 1%nat /\ is_wildcard a0) \/
  (search_start attrs = 0%nat /\ ~ is_wildcard a0).
Proof.
  intros ->. unfold search_start, is_wildcard.
  destruct (String.eqb_spec (attr_name a0) "*"); auto.
Qed.

Lemma by_name_unfold l name a0 rest :
  attributes l = a0 :: rest ->
  ldb_schema_attribute_by_name l name =
    by_name_loop (S (length (attributes l))) (attributes l) name
      (Z.of_nat (search_start (attributes l))) (num_attributes l - 1)
      (if String.eqb (attr_name a0) "*" then Slot 0 else Builtin).
Proof.
  intros H. unfold ldb_schema_attribute_by_name, search_start. rewrite H.
  by destruct (String.eqb (attr_name a0) "*").
Qed.

End Lookup.

(** The boolean tests decide the notions they stand for. *)
Section Deciding.

Lemma names_sorted_spec attrs k :
  names_sorted (drop k (map attr_name attrs)) = true -> sorted_from k attrs.
Proof.
  intros H i j a b Hk Hij Hi Hj.
  assert (Hgen : forall names n m p q,
            names_sorted names = true -> (p < q)%nat ->
            names !! p = Some n -> names !! q = Some m -> ldb_attr_cmp n m <= 0).
  { induction names as [|x names IH]; intros n m p q Hs Hpq Hp Hq; [done|].
    simpl in Hs. apply andb_true_iff in Hs as [Hall Hs].
    destruct p as [|p], q as [|q]; try lia; simplify_eq/=.
    - rewrite forallb_forall in Hall. apply Z.leb_le, Hall.
      apply list_elem_of_In, list_elem_of_lookup. eauto.
    - apply (IH n m p q); auto. lia. }
  apply (Hgen _ _ _ (i - k)%nat (j - k)%nat H); [lia|..];
    rewrite lookup_drop, list_lookup_fmap.
  - replace (k + (i - k))%nat with i by lia. by rewrite Hi.
  - replace (k + (j - k))%nat with j by lia. by rewrite Hj.
Qed.

Lemma registry_sortedb_spec l : registry_sortedb l = true -> registry_sorted l.
Proof.
  unfold registry_sortedb. intros [Hw Hs]%andb_true_iff. split.
  - intros i a Hi Ha. destruct i as [|i]; [done|]. exfalso.
    rewrite forallb_forall in Hw.
    assert (Hin : In (attr_name a) (tail (map attr_name (attributes l)))).
    { apply list_elem_of_In, list_elem_of_lookup. exists i.
      destruct (attributes l); [done|]. simpl in *.
      by rewrite list_lookup_fmap, Hi. }
    apply Hw in Hin. unfold is_wildcard in Ha. rewrite Ha in Hin. done.
  - by apply names_sorted_spec.
Qed.

Lemma registeredb_spec l name : registeredb l name = true <-> registered l name.
Proof.
  unfold registeredb, registered. rewrite existsb_exists. split.
  - intros (a & Hin & Hc). apply list_elem_of_In, list_elem_of_lookup in Hin as [i Hi].
    exists i, a. split; [done|]. by apply Z.eqb_eq.
  - intros (i & a & Hi & Hc). exists a. split; [|by apply Z.eqb_eq].
    apply list_elem_of_In, list_elem_of_lookup. eauto.
Qed.

Lemma has_wildcardb_spec attrs : has_wildcardb attrs = true <-> has_wildcard attrs.
Proof.
  unfold has_wildcardb, has_wildcard, is_wildcard. rewrite existsb_exists. split.
  - intros (a & Hin & Hc). apply list_elem_of_In, list_elem_of_lookup in Hin as [i Hi].
    exists i, a. split; [done|]. by apply String.eqb_eq.
  - intros (i & a & Hi & Hc). exists a. split; [|by apply String.eqb_eq].
    apply list_elem_of_In, list_elem_of_lookup. eauto.
Qed.

Lemma not_registered l name : registeredb l name = false -> ~ registered l name.
Proof. intros H Hr. apply registeredb_spec in Hr. congruence. Qed.

Lemma no_wildcard attrs : has_wildcardb attrs = false -> ~ has_wildcard attrs.
Proof. intros H Hr. apply has_wildcardb_spec in Hr. congruence. Qed.

End Deciding.

(** A registry in case-insensitive order throughout, its wildcard first
    if it has one, is sorted in the sense used below. *)
Lemma sorted_throughout_is_sorted l :
  wildcard_first (attributes l) -> sorted_from 0 (attributes l) ->
  registry_sorted l.
Proof.
  intros Hw Hs. split; [done|].
  intros i j a b _ Hij Hi Hj. apply (Hs i j); [lia|done..].
Qed.

(** C9, as amended. On a registry that has at least one entry and is
    sorted case-insensitively with a wildcard entry first if present,
    [ldb_schema_attribute_by_name] returns: an entry whose name compares
    equal to the queried name when there is one; on a miss the wildcard
    entry when present; and otherwise the built-in default, which has no
    name and whose syntax is octet-string with binary compare. *)
Theorem lookup_by_name (l : ldb_schema) (name : string) :
  attributes l <> [] -> registry_sorted l ->
  exists r, ldb_schema_attribute_by_name l name = Some r /\
    (registered l name ->
       exists i a, r = Slot i /\ attributes l !! i = Some a /\
                   ldb_attr_cmp name (attr_name a) = 0) /\
    (~ registered l name -> has_wildcard (attributes l) ->
       exists a, r = Slot 0 /\ attributes l !! 0%nat = Some a /\ is_wildcard a) /\
    (~ registered l name -> ~ has_wildcard (attributes l) ->
       r = Builtin /\ ref_name l r = None /\
       ref_syntax l r = Some ldb_syntax_default /\
       syntax_name ldb_syntax_default = LDB_SYNTAX_OCTET_STRING /\
       comparison_fn ldb_syntax_default = ldb_comparison_binary).
Proof.
  intros Hne [Hwf Hs].
  destruct (attributes l) as [|a0 rest] eqn:Hattrs; [done|]. clear Hne.
  rewrite (by_name_unfold l name a0 rest Hattrs), Hattrs.
  set (def := if String.eqb (attr_name a0) "*" then Slot 0 else Builtin).
  destruct (by_name_loop_sorted (S (length (a0 :: rest))) (a0 :: rest) name
              (Z.of_nat (search_start (a0 :: rest)))
              (num_attributes l - 1) def (search_start (a0 :: rest)))
    as (r & Hr & Hcases); try done.
  { unfold num_attributes. rewrite Hattrs. lia. }
  { unfold num_attributes. rewrite Hattrs.
    destruct (search_start_spec (a0 :: rest) a0 rest eq_refl) as [[-> _]|[-> _]];
      simpl length; lia. }
  { intros i a ? ?. lia. }
  { unfold num_attributes. rewrite Hattrs. intros i a Hi Ha.
    apply lookup_lt_Some in Ha. lia. }
  exists r. split; [done|].
  assert (Hslot : (exists i a, r = Slot i /\ (a0 :: rest) !! i = Some a /\
                     ldb_attr_cmp name (attr_name a) = 0) ->
                  registered l name).
  { intros (i & a & _ & Ha & Hc). exists i, a. by rewrite Hattrs. }
  destruct (search_start_spec (a0 :: rest) a0 rest eq_refl) as [[Hst Hw]|[Hst Hw]];
    rewrite Hst in Hcases.
  - (* a leading wildcard: the default is entry 0 *)
    assert (Hdef : def = Slot 0).
    { unfold def. unfold is_wildcard in Hw. by rewrite Hw. }
    split; [|split].
    + intros (i & a & Hi & Hc). destruct Hcases as [Hfound|[-> Hnone]]; [done|].
      rewrite Hattrs in Hi. destruct i as [|i].
      * exists 0%nat, a. by rewrite Hdef.
      * exfalso. eapply (Hnone (S i) a); [lia|done..].
    + intros Hnot _. destruct Hcases as [Hfound|[-> _]]; [by apply Hslot in Hfound|].
      exists a0. by rewrite Hdef.
    + intros _ Hnw. exfalso. apply Hnw. by exists 0%nat, a0.
  - (* no wildcard at all: the default is the built-in attribute *)
    assert (Hdef : def = Builtin).
    { unfold def. unfold is_wildcard in Hw.
      by destruct (String.eqb_spec (attr_name a0) "*"). }
    assert (Hnw : ~ has_wildcard (a0 :: rest)).
    { intros (i & a & Hi & Ha). pose proof (Hwf i a Hi Ha) as ->. by simplify_eq/=. }
    split; [|split].
    + intros (i & a & Hi & Hc). destruct Hcases as [Hfound|[-> Hnone]]; [done|].
      rewrite Hattrs in Hi. exfalso. eapply (Hnone i a); [lia|done..].
    + intros _ Hhas. by destruct Hnw.
    + intros Hnot _. destruct Hcases as [Hfound|[-> _]]; [by apply Hslot in Hfound|].
      by rewrite Hdef.
Qed.

(** C10, as amended. Removing a name that is not registered: when the
    first entry of the registry is a wildcard that is not fixed, the
    wildcard entry itself is removed, because the miss resolves to it;
    when the registry has entries but no wildcard, it is left as it
    is. *)
Theorem remove_unregistered (l : ldb_schema) (name : string) :
  ~ registered l name ->
  (forall w rest, attributes l = w :: rest -> is_wildcard w ->
     has_flag (attr_flags w) LDB_ATTR_FLAG_FIXED = false ->
     ldb_schema_attribute_remove l name = Some {| attributes := rest |}) /\
  (attributes l <> [] -> ~ has_wildcard (attributes l) ->
     ldb_schema_attribute_remove l name = Some l).
Proof.
  intros Hnot.
  assert (Hdef : forall a0 rest, attributes l = a0 :: rest ->
            ldb_schema_attribute_by_name l name =
              Some (if String.eqb (attr_name a0) "*" then Slot 0 else Builtin)).
  { intros a0 rest Hattrs. rewrite (by_name_unfold l name a0 rest Hattrs).
    destruct (by_name_loop_returns (S (length (attributes l))) (attributes l) name
                (Z.of_nat (search_start (attributes l))) (num_attributes l - 1)
                (if String.eqb (attr_name a0) "*" then Slot 0 else Builtin))
      as (r & Hr & [->|(i & a & _ & Hi & Hc)]); try done.
    - lia.
    - unfold num_attributes. lia.
    - unfold num_attributes. rewrite Hattrs.
      destruct (search_start_spec (a0 :: rest) a0 rest eq_refl) as [[-> _]|[-> _]];
        simpl length; lia.
    - destruct Hnot. by exists i, a. }
  split.
  - intros w rest Hattrs Hw Hfixed. unfold ldb_schema_attribute_remove.
    rewrite (Hdef w rest Hattrs). unfold is_wildcard in Hw. rewrite Hw. simpl.
    rewrite Hattrs. simpl. by rewrite Hfixed.
  - intros Hne Hnw. destruct (attributes l) as [|a0 rest] eqn:Hattrs; [done|].
    unfold ldb_schema_attribute_remove. rewrite (Hdef a0 rest eq_refl).
    destruct (String.eqb_spec (attr_name a0) "*") as [Hw|_]; [|done].
    destruct Hnw. by exists 0%nat, a0.
Qed.


(** C9 on the seeded registry, looking "CN" up. *)
Lemma lookup_by_name_witness :
  attributes Sample.schema <> [] /\ registry_sorted Sample.schema /\
  exists r, ldb_schema_attribute_by_name Sample.schema "CN" = Some r /\
    (registered Sample.schema "CN" ->
       exists i a, r = Slot i /\ attributes Sample.schema !! i = Some a /\
                   ldb_attr_cmp "CN" (attr_name a) = 0) /\
    (~ registered Sample.schema "CN" -> has_wildcard (attributes Sample.schema) ->
       exists a, r = Slot 0 /\ attributes Sample.schema !! 0%nat = Some a /\
                 is_wildcard a) /\
    (~ registered Sample.schema "CN" -> ~ has_wildcard (attributes Sample.schema) ->
       r = Builtin /\ ref_name Sample.schema r = None /\
       ref_syntax Sample.schema r = Some ldb_syntax_default /\
       syntax_name ldb_syntax_default = LDB_SYNTAX_OCTET_STRING /\
       comparison_fn ldb_syntax_default = ldb_comparison_binary).
Proof.
  assert (H1 : attributes Sample.schema <> []) by (vm_compute; discriminate).
  assert (H2 : registry_sorted Sample.schema)
    by (apply registry_sortedb_spec; vm_compute; reflexivity).
  split; [exact H1|]. split; [exact H2|].
  exact (lookup_by_name Sample.schema "CN" H1 H2).
Defined.

(** C9 as first stated fails on the registry without entries: it is
    sorted, has no wildcard and does not register "cn", yet the lookup
    reads entry 0 and has no result, not the built-in default. *)
Lemma lookup_in_empty_registry :
  registry_sorted {| attributes := [] |} /\
  ~ registered {| attributes := [] |} "cn" /\
  ~ has_wildcard [] /\
  ldb_schema_attribute_by_name {| attributes := [] |} "cn" = None.
Proof.
  split; [by apply registry_sortedb_spec|].
  split; [by apply not_registered|].
  split; [by apply no_wildcard|]. reflexivity.
Qed.

(** C10 on a registry led by a wildcard, and on the seeded one. *)
Lemma remove_unregistered_witness :
  ~ registered {| attributes := [Sample.entry "*" 0; Sample.entry "cn" 0] |} "zz" /\
  ldb_schema_attribute_remove
    {| attributes := [Sample.entry "*" 0; Sample.entry "cn" 0] |} "zz"
  = Some {| attributes := [Sample.entry "cn" 0] |} /\
  ~ registered Sample.schema "zz" /\
  ldb_schema_attribute_remove Sample.schema "zz" = Some Sample.schema.
Proof.
  assert (H1 : ~ registered
                 {| attributes := [Sample.entry "*" 0; Sample.entry "cn" 0] |} "zz")
    by (apply not_registered; vm_compute; reflexivity).
  assert (H2 : ~ registered Sample.schema "zz")
    by (apply not_registered; vm_compute; reflexivity).
  split; [exact H1|]. split.
  { apply (proj1 (remove_unregistered _ "zz" H1) (Sample.entry "*" 0)
             [Sample.entry "cn" 0]); reflexivity. }
  split; [exact H2|].
  apply (proj2 (remove_unregistered Sample.schema "zz" H2)).
  - vm_compute; discriminate.
  - apply no_wildcard. vm_compute. reflexivity.
Defined.

(** C10 as first stated fails where the wildcard is not the first
    entry: "!x" sorts before "*", the miss resolves to the built-in
    default and the registry keeps its wildcard. On the registry without
    entries the removal has no result at all. *)
Lemma remove_keeps_wildcard_not_first :
  has_wildcard [Sample.entry "!x" 0; Sample.entry "*" 0] /\
  has_flag 0 LDB_ATTR_FLAG_FIXED = false /\
  ~ registered {| attributes := [Sample.entry "!x" 0; Sample.entry "*" 0] |} "zz" /\
  ldb_schema_attribute_remove
    {| attributes := [Sample.entry "!x" 0; Sample.entry "*" 0] |} "zz"
  = Some {| attributes := [Sample.entry "!x" 0; Sample.entry "*" 0] |} /\
  ldb_schema_attribute_remove {| attributes := [] |} "zz" = None.
Proof.
  split; [by apply has_wildcardb_spec|].
  split; [reflexivity|].
  split; [by apply not_registered|].
  split; reflexivity.
Qed.

(** * Properties of the backend *)

Section Running.
Context {tdb_data : Type}.

Lemma op_bind_run {A B} (c : op tdb_data A) (k : A -> op tdb_data B) s a s' :
  c s = (a, s') -> op_bind c k s = k a s'.
Proof. unfold op_bind. by intros ->. Qed.

Lemma op_check_success (c k : op tdb_data Z) s s' :
  op_check c k s = (LDB_SUCCESS, s') ->
  exists s1, c s = (LDB_SUCCESS, s1) /\ k s1 = (LDB_SUCCESS, s').
Proof.
  unfold op_check, op_bind. destruct (c s) as [r s1].
  destruct (Z.eqb_spec r LDB_SUCCESS) as [->|Hr]; [eauto|].
  unfold op_ret. intros [= ? ?]. done.
Qed.
End Running.

(** ** Storing a record *)

Section StoreRollback.
Context {tdb_data : Type} {C : ltdb_collaborators tdb_data}.

Lemma tdb_store_other (t t' : gmap string tdb_data) key data flgs k :
  tdb_store t key data flgs = inr t' -> k <> key -> t' !! k = t !! k.
Proof.
  unfold tdb_store. intros H Hk.
  destruct flgs, (t !! key); simplify_eq; by rewrite lookup_insert_ne.
Qed.

Lemma tdb_delete_unchecked_lookup key (s : ldb_module tdb_data) k :
  tdb (tdb_delete_unchecked key s) !! k = if decide (k = key) then None else tdb s !! k.
Proof.
  unfold tdb_delete_unchecked, tdb_delete.
  destruct (tdb s !! key) eqn:E; simpl.
  - rewrite lookup_delete. repeat case_decide; congruence.
  - case_decide; congruence.
Qed.

Lemma tdb_delete_unchecked_tdb key (s : ldb_module tdb_data) :
  tdb (tdb_delete_unchecked key s) = delete key (tdb s).
Proof.
  unfold tdb_delete_unchecked, tdb_delete.
  destruct (tdb s !! key) eqn:E; simpl; [done|].
  symmetry. by apply delete_id.
Qed.

(** C1. Whenever [ltdb_store] returns an error: if the primary record
    had been written, it was [ltdb_index_add] that failed, its code is
    the one returned, and the record just written is deleted again, so
    its key holds nothing; and of the records the index manager leaves
    alone (the primary records), the store holds none that was not
    there, with that value, before the call. *)
Theorem ltdb_store_error_leaves_no_new_record
    (msg : ldb_message) (flgs : tdb_flag) (s : ldb_module tdb_data) :
  fst (ltdb_store msg flgs s) <> LDB_SUCCESS ->
  (forall key data t,
     ltdb_key (msg_dn msg) = Some key -> ltdb_pack_data msg = Some data ->
     tdb_store (tdb s) key data flgs = inr t ->
     fst (ltdb_index_add msg (set_tdb s t)) <> LDB_SUCCESS /\
     fst (ltdb_store msg flgs s) = fst (ltdb_index_add msg (set_tdb s t)) /\
     tdb (snd (ltdb_store msg flgs s))
       = delete key (tdb (snd (ltdb_index_add msg (set_tdb s t)))) /\
     tdb (snd (ltdb_store msg flgs s)) !! key = None) /\
  (forall primary : string -> Prop, index_add_leaves primary ->
     forall k v, primary k ->
       tdb (snd (ltdb_store msg flgs s)) !! k = Some v -> tdb s !! k = Some v).
Proof.
  unfold ltdb_store. intros Herr. split.
  - intros key data t Hkey Hpack Hstore. rewrite Hkey, Hpack, Hstore in *.
    destruct (ltdb_index_add msg (set_tdb s t)) as [ret s'] eqn:Hidx. simpl.
    destruct (Z.eqb_spec ret LDB_SUCCESS) as [->|Hret]; [done|]. simpl.
    rewrite tdb_delete_unchecked_tdb. repeat split; try done.
    apply lookup_delete_eq.
  - intros primary Hleaves k v Hk.
    destruct (ltdb_key (msg_dn msg)) as [key|]; [|done].
    destruct (ltdb_pack_data msg) as [data|]; [|done].
    destruct (tdb_store (tdb s) key data flgs) as [e|t] eqn:Hstore; [done|].
    pose proof (Hleaves msg (set_tdb s t) k Hk) as Hsame.
    destruct (ltdb_index_add msg (set_tdb s t)) as [ret s'] eqn:Hidx.
    simpl in *. destruct (Z.eqb_spec ret LDB_SUCCESS) as [->|Hret]; [done|].
    simpl. rewrite tdb_delete_unchecked_lookup. case_decide as Hkk; [done|].
    rewrite Hsame. by rewrite (tdb_store_other _ _ _ _ _ _ Hstore Hkk).
Qed.
End StoreRollback.

Lemma broken_index_add_leaves :
  index_add_leaves (C := Sample.broken_index) (fun k => k <> Sample.index_key).
Proof. intros msg s k Hk. simpl. by rewrite lookup_insert_ne. Qed.

(** C1 on an insert of cn=y, with an index manager that fails after
    writing an index record. *)
Lemma ltdb_store_error_leaves_no_new_record_witness :
  fst (ltdb_store (C := Sample.broken_index)
         {| msg_dn := "cn=y"; msg_elements := [] |} TDB_INSERT Sample.directory)
    <> LDB_SUCCESS /\
  tdb (snd (ltdb_store (C := Sample.broken_index)
              {| msg_dn := "cn=y"; msg_elements := [] |} TDB_INSERT Sample.directory))
    !! record_key "CN=Y" = None /\
  forall k v, k <> Sample.index_key ->
    tdb (snd (ltdb_store (C := Sample.broken_index)
                {| msg_dn := "cn=y"; msg_elements := [] |} TDB_INSERT Sample.directory))
      !! k = Some v ->
    tdb Sample.directory !! k = Some v.
Proof.
  assert (Herr : fst (ltdb_store (C := Sample.broken_index)
                        {| msg_dn := "cn=y"; msg_elements := [] |} TDB_INSERT
                        Sample.directory) <> LDB_SUCCESS)
    by (vm_compute; discriminate).
  pose proof (ltdb_store_error_leaves_no_new_record (C := Sample.broken_index)
                {| msg_dn := "cn=y"; msg_elements := [] |} TDB_INSERT
                Sample.directory Herr) as [Hkey Hother].
  split; [exact Herr|]. split.
  - refine (proj2 (proj2 (proj2 (Hkey _ [] _ eq_refl eq_refl eq_refl)))).
  - exact (Hother _ broken_index_add_leaves).
Defined.

(** ** Modify: adding values *)

Section ModifyAdd.
Context {tdb_data : Type} {C : ltdb_collaborators tdb_data}.

(** The first loop of the ADD branch rejects exactly when an incoming
    value equals an existing one, or an earlier incoming one. *)
Lemma add_rejected_spec l el2 el cmp2 cmp :
  attr_comparison l (el_name el2) = Some cmp2 ->
  attr_comparison l (el_name el) = Some cmp ->
  reflexive_comparison cmp ->
  forall vs pre, el_values el = pre ++ vs ->
    let clash :=
      has_common cmp2 (el_values el2) vs \/
      exists i j v w, (i < j)%nat /\ (length pre <= j)%nat /\
        el_values el !! i = Some v /\ el_values el !! j = Some w /\ cmp v w = 0 in
    (clash -> add_rejected l el2 el (length pre) vs = Some true) /\
    (~ clash -> add_rejected l el2 el (length pre) vs = Some false).
Proof.
  intros Hc2 Hc Hrefl vs. induction vs as [|v rest IH]; intros pre Hvals clash.
  { split; [|done]. intros [(v & w & Hv & _)|(i & j & v & w & Hij & Hj & _ & Hw & _)].
    - by apply elem_of_nil in Hv.
    - apply lookup_lt_Some in Hw. rewrite Hvals, length_app in Hw. simpl in Hw. lia. }
  assert (Hhere : el_values el !! length pre = Some v).
  { rewrite Hvals. by rewrite list_lookup_middle. }
  specialize (IH (pre ++ [v])). rewrite <- app_assoc in IH. specialize (IH Hvals).
  rewrite length_app in IH. simpl in IH.
  replace (length pre + 1)%nat with (S (length pre)) in IH by lia.
  cbn [add_rejected]. unfold ldb_msg_find_val. rewrite Hc2, Hc.
  destruct (list_find (fun w => cmp2 w v = 0) (el_values el2)) as [[k2 w2]|] eqn:E2.
  { simpl. split; [done|]. intros Hno. destruct Hno. left.
    apply list_find_Some in E2 as (Hk2 & Hw2 & _).
    exists v, w2. split; [apply list_elem_of_here|]. split; [|done].
    apply list_elem_of_lookup. eauto. }
  simpl. rewrite list_find_None, Forall_forall in E2.
  destruct (list_find (fun w => cmp w v = 0) (el_values el)) as [[k w]|] eqn:E.
  2:{ exfalso. rewrite list_find_None, Forall_forall in E.
      apply (E v); [|apply Hrefl]. apply list_elem_of_lookup. eauto. }
  apply list_find_Some in E as (Hk & Hw & Hmin). simpl.
  assert (Hle : (k <= length pre)%nat).
  { destruct (le_lt_dec k (length pre)); [done|]. exfalso.
    apply (Hmin (length pre) v); [done|lia|apply Hrefl]. }
  case_bool_decide as Hfound.
  - (* the first equal value is the value itself: go on *)
    assert (k = length pre) as -> by congruence.
    destruct IH as [IHyes IHno]. split.
    + intros [(v' & w' & Hv' & Hw' & Hvw)|(i & j & v' & w' & Hij & Hj & Hi' & Hj' & Hvw)].
      * apply elem_of_cons in Hv' as [->|Hv'].
        { exfalso. by apply (E2 w'). }
        apply IHyes. left. by exists v', w'.
      * destruct (decide (j = length pre)) as [->|Hne].
        { exfalso. simplify_eq. apply (Hmin i v'); [done|lia|done]. }
        apply IHyes. right. exists i, j, v', w'. repeat split; try done. lia.
    + intros Hno. apply IHno. intros [(v' & w' & Hv' & Hw' & Hvw)|(i & j & v' & w' & Hij & Hj & Hrest)].
      * apply Hno. left. exists v', w'. split; [by apply list_elem_of_further|done].
      * apply Hno. right. exists i, j, v', w'. split; [done|]. split; [lia|done].
  - (* an earlier value compares equal *)
    split; [done|]. intros Hno. destruct Hno. right.
    exists k, (length pre), w, v. repeat split; try done.
    assert (k <> length pre) by congruence. lia.
Qed.

Lemma has_duplicate_from_start cmp vs :
  has_duplicate cmp vs <->
  exists i j v w, (i < j)%nat /\ (@length ldb_val [] <= j)%nat /\
    vs !! i = Some v /\ vs !! j = Some w /\ cmp v w = 0.
Proof.
  unfold has_duplicate. split.
  - intros (i & j & v & w & ? & ? & ? & ?). exists i, j, v, w. simpl. repeat split; try done; lia.
  - intros (i & j & v & w & ? & ? & ? & ? & ?). by exists i, j, v, w.
Qed.

(** C2, as amended. A modify turn that ADDs to an attribute the working
    record already has, the attribute's comparison function being
    reflexive: if some incoming value compares equal to an existing value
    of that element, or two incoming values compare equal to each other,
    the turn fails with attribute-or-value-exists and, when it is the
    first turn of the request, so does the modify, which leaves the
    module and its store as they were; otherwise the incoming values
    are concatenated onto the existing element. *)
Theorem modify_add_to_present_attribute
    (dn : ldb_dn) (el : ldb_message_element) (msg2 : ldb_message)
    (s : ldb_module tdb_data) (idx : nat) (el2 : ldb_message_element)
    (cmp2 cmp : ldb_val -> ldb_val -> Z) :
  Z.land (el_flags el) LDB_FLAG_MOD_MASK = LDB_FLAG_MOD_ADD ->
  find_element msg2 (el_name el) = Some idx ->
  msg_elements msg2 !! idx = Some el2 ->
  attr_comparison (ldb s) (el_name el2) = Some cmp2 ->
  attr_comparison (ldb s) (el_name el) = Some cmp ->
  reflexive_comparison cmp ->
  (has_common cmp2 (el_values el2) (el_values el) \/
   has_duplicate cmp (el_values el) ->
     modify_element dn el msg2 s
       = Some ((LDB_ERR_ATTRIBUTE_OR_VALUE_EXISTS, msg2), s) /\
     forall rest key data,
       msg_dn msg2 = dn -> ltdb_key dn = Some key -> tdb s !! key = Some data ->
       ltdb_unpack_data data = Some (msg_elements msg2) ->
       ltdb_modify_internal {| msg_dn := dn; msg_elements := el :: rest |} s
       = Some (LDB_ERR_ATTRIBUTE_OR_VALUE_EXISTS, s)) /\
  (~ has_common cmp2 (el_values el2) (el_values el) ->
   ~ has_duplicate cmp (el_values el) ->
     modify_element dn el msg2 s
       = Some ((LDB_SUCCESS,
                set_elements msg2
                  (<[idx := set_values el2 (el_values el2 ++ el_values el)]>
                     (msg_elements msg2))), s)).
Proof.
  intros Hflag Hfind Hel2 Hc2 Hc Hrefl.
  destruct (add_rejected_spec (ldb s) el2 el cmp2 cmp Hc2 Hc Hrefl (el_values el) []
              eq_refl) as [Hyes Hno].
  simpl in Hyes, Hno.
  assert (Hstep : forall b, add_rejected (ldb s) el2 el 0 (el_values el) = Some b ->
            modify_element dn el msg2 s =
              if b then Some ((LDB_ERR_ATTRIBUTE_OR_VALUE_EXISTS, msg2), s)
              else Some ((LDB_SUCCESS,
                          set_elements msg2
                            (<[idx := set_values el2 (el_values el2 ++ el_values el)]>
                               (msg_elements msg2))), s)).
  { intros b Hb. unfold modify_element. rewrite Hflag, Z.eqb_refl, Hfind.
    rewrite Hel2, Hb. by destruct b. }
  split.
  - intros Hclash.
    assert (Hrej : add_rejected (ldb s) el2 el 0 (el_values el) = Some true).
    { apply Hyes. destruct Hclash as [?|Hd]; [by left|right].
      by apply has_duplicate_from_start in Hd. }
    pose proof (Hstep true Hrej) as Hel. simpl in Hel. split; [done|].
    intros rest key data Hdn Hkey Hrec Hunpack.
    unfold ltdb_modify_internal, tdb_fetch. cbn [msg_dn msg_elements].
    rewrite Hkey, Hrec, Hunpack. cbn [modify_elements].
    replace {| msg_dn := dn; msg_elements := msg_elements msg2 |} with msg2
      by (destruct msg2; simpl in *; congruence).
    by rewrite Hel.
  - intros Hnc Hnd. apply (Hstep false). apply Hno.
    intros [?|Hd]; [done|]. by apply Hnd, has_duplicate_from_start.
Qed.

End ModifyAdd.

Lemma ldb_comparison_binary_refl : reflexive_comparison ldb_comparison_binary.
Proof.
  intros v. unfold ldb_comparison_binary.
  by rewrite Nat.eqb_refl, string_compare_refl.
Qed.

(** C2 on the entry cn=x, whose [member] holds "alice": adding
    "bob" and "alice" is refused, adding "bob" alone extends the
    element. *)
Lemma modify_add_to_present_attribute_witness :
  has_common ldb_comparison_binary ["alice"] ["bob"; "alice"] /\
  ltdb_modify_internal
    {| msg_dn := "cn=x";
       msg_elements := [Sample.element LDB_FLAG_MOD_ADD "member" ["bob"; "alice"]] |}
    Sample.directory
  = Some (LDB_ERR_ATTRIBUTE_OR_VALUE_EXISTS, Sample.directory) /\
  modify_element "cn=x" (Sample.element LDB_FLAG_MOD_ADD "member" ["bob"])
    {| msg_dn := "cn=x";
       msg_elements := [Sample.element 0 "cn" ["x"];
                        Sample.element 0 "member" ["alice"]] |}
    Sample.directory
  = Some ((LDB_SUCCESS,
           {| msg_dn := "cn=x";
              msg_elements := [Sample.element 0 "cn" ["x"];
                               Sample.element 0 "member" ["alice"; "bob"]] |}),
          Sample.directory).
Proof.
  assert (Hcommon : has_common ldb_comparison_binary ["alice"] ["bob"; "alice"]).
  { exists "alice", "alice". split; [set_solver|]. split; [set_solver|reflexivity]. }
  split; [exact Hcommon|]. split.
  - refine (proj2 (proj1 (modify_add_to_present_attribute "cn=x"
              (Sample.element LDB_FLAG_MOD_ADD "member" ["bob"; "alice"])
              {| msg_dn := "cn=x";
                 msg_elements := [Sample.element 0 "cn" ["x"];
                                  Sample.element 0 "member" ["alice"]] |}
              Sample.directory 1%nat (Sample.element 0 "member" ["alice"])
              ldb_comparison_binary ldb_comparison_binary
              eq_refl eq_refl eq_refl eq_refl eq_refl
              ldb_comparison_binary_refl) (or_introl Hcommon))
              [] Sample.cn_x_key _ eq_refl eq_refl eq_refl eq_refl).
  - refine (proj2 (modify_add_to_present_attribute "cn=x"
              (Sample.element LDB_FLAG_MOD_ADD "member" ["bob"])
              {| msg_dn := "cn=x";
                 msg_elements := [Sample.element 0 "cn" ["x"];
                                  Sample.element 0 "member" ["alice"]] |}
              Sample.directory 1%nat (Sample.element 0 "member" ["alice"])
              ldb_comparison_binary ldb_comparison_binary
              eq_refl eq_refl eq_refl eq_refl eq_refl
              ldb_comparison_binary_refl) _ _).
    + intros (v & w & Hv & Hw & Hc).
      apply list_elem_of_singleton in Hv as ->, Hw as ->. vm_compute in Hc. discriminate.
    + intros (i & j & v & w & Hij & Hi & Hj & Hc).
      destruct j as [|j]; [lia|]. destruct j; discriminate.
Defined.

(** C2 as first stated fails when an incoming value is repeated: "bob"
    equals no value of the stored [member], yet adding "bob" twice is
    refused with attribute-or-value-exists and nothing is concatenated;
    the stored record stays as it was. *)
Lemma modify_add_repeated_value_rejected :
  ~ has_common ldb_comparison_binary ["alice"] ["bob"; "bob"] /\
  ltdb_modify_internal
    {| msg_dn := "cn=x";
       msg_elements := [Sample.element LDB_FLAG_MOD_ADD "member" ["bob"; "bob"]] |}
    Sample.directory
  = Some (LDB_ERR_ATTRIBUTE_OR_VALUE_EXISTS, Sample.directory) /\
  tdb Sample.directory !! Sample.cn_x_key
  = Some [Sample.element 0 "cn" ["x"]; Sample.element 0 "member" ["alice"]].
Proof.
  split; [|split; reflexivity].
  intros (v & w & Hv & Hw & Hc).
  apply list_elem_of_singleton in Hw as ->.
  apply elem_of_cons in Hv as [->|Hv]; [|apply list_elem_of_singleton in Hv as ->];
    vm_compute in Hc; discriminate.
Qed.

(** C3 fails on the code. The entry cn=x has no [mail]; a modify that
    ADDs [mail] with the same value twice succeeds, and the record
    written back holds an element with two values that compare equal
    under the attribute's comparison function. *)
Lemma modify_add_new_attribute_stores_duplicate :
  find_element
    {| msg_dn := "cn=x";
       msg_elements := [Sample.element 0 "cn" ["x"];
                        Sample.element 0 "member" ["alice"]] |} "mail" = None /\
  attr_comparison Sample.schema "mail" = Some ldb_comparison_binary /\
  has_duplicate ldb_comparison_binary ["a@b"; "a@b"] /\
  match ltdb_modify_internal
          {| msg_dn := "cn=x";
             msg_elements := [Sample.element LDB_FLAG_MOD_ADD "mail" ["a@b"; "a@b"]] |}
          Sample.directory with
  | Some (ret, s') =>
      ret = LDB_SUCCESS /\
      tdb s' !! Sample.cn_x_key
      = Some [Sample.element 0 "cn" ["x"]; Sample.element 0 "member" ["alice"];
              Sample.element LDB_FLAG_MOD_ADD "mail" ["a@b"; "a@b"]]
  | None => False
  end.
Proof.
  split; [reflexivity|]. split; [reflexivity|]. split.
  - exists 0%nat, 1%nat, "a@b", "a@b". split; [lia|]. repeat split.
  - vm_compute. split; reflexivity.
Qed.


(** ** Deleting a whole attribute *)

Section DeleteAttribute.
Context {tdb_data : Type} {C : ltdb_collaborators tdb_data}.

Lemma delete_attribute_loop_elements dn name els : forall s : ldb_module tdb_data,
  fst (delete_attribute_loop dn name els s)
  = filter (fun e => ldb_attr_cmp (el_name e) name <> 0) els.
Proof.
  induction els as [|e rest IH]; intros s; [done|].
  cbn [delete_attribute_loop]. rewrite filter_cons.
  destruct (Z.eqb_spec (ldb_attr_cmp (el_name e) name) 0) as [Heq|Hne].
  - rewrite decide_False by tauto. unfold op_bind.
    destruct (index_del_values dn e 0 (length (el_values e)) s) as [[] s1].
    apply IH.
  - rewrite decide_True by done. unfold op_bind.
    specialize (IH s). destruct (delete_attribute_loop dn name rest s) as [kept s1].
    simpl in *. by rewrite IH.
Qed.

(** [msg_delete_attribute] never reports a failure, whether or not an
    element has the name; the elements that have it are gone. *)
Lemma msg_delete_attribute_result msg name (s : ldb_module tdb_data) :
  fst (msg_delete_attribute msg name s)
  = (0, set_elements msg
          (filter (fun e => ldb_attr_cmp (el_name e) name <> 0) (msg_elements msg))).
Proof.
  unfold msg_delete_attribute, ldb_dn_get_linearized, op_bind.
  pose proof (delete_attribute_loop_elements (msg_dn msg) name (msg_elements msg) s) as H.
  destruct (delete_attribute_loop (msg_dn msg) name (msg_elements msg) s) as [els s1].
  simpl in *. by rewrite H.
Qed.

(** So the zero-value DELETE turn of the modify loop always goes on. *)
Lemma modify_delete_whole_attribute dn el msg2 (s : ldb_module tdb_data) :
  Z.land (el_flags el) LDB_FLAG_MOD_MASK = LDB_FLAG_MOD_DELETE ->
  el_values el = [] ->
  exists s',
    modify_element dn el msg2 s
    = Some ((LDB_SUCCESS,
             set_elements msg2
               (filter (fun e => ldb_attr_cmp (el_name e) (el_name el) <> 0)
                  (msg_elements msg2))), s').
Proof.
  intros Hflag Hvals. unfold modify_element. rewrite Hflag, Hvals.
  change (LDB_FLAG_MOD_DELETE =? LDB_FLAG_MOD_ADD) with false.
  change (LDB_FLAG_MOD_DELETE =? LDB_FLAG_MOD_REPLACE) with false.
  change (LDB_FLAG_MOD_DELETE =? LDB_FLAG_MOD_DELETE) with true.
  cbn [ldb_dn_get_linearized length Nat.eqb].
  pose proof (msg_delete_attribute_result msg2 (el_name el) s) as H.
  destruct (msg_delete_attribute msg2 (el_name el) s) as [[r m] s'].
  simpl in H. injection H as -> ->. by exists s'.
Qed.
End DeleteAttribute.


(** C4 fails on the code. The entry cn=x has no [mail]; a modify that
    DELETEs [mail] with no values succeeds, rewrites the record as it
    was and counts as a modification, where no-such-attribute is
    expected. *)
Lemma modify_delete_absent_attribute_succeeds :
  find_element
    {| msg_dn := "cn=x";
       msg_elements := [Sample.element 0 "cn" ["x"];
                        Sample.element 0 "member" ["alice"]] |} "mail" = None /\
  match ltdb_modify_internal
          {| msg_dn := "cn=x";
             msg_elements := [Sample.element LDB_FLAG_MOD_DELETE "mail" []] |}
          Sample.directory with
  | Some (ret, s') =>
      ret = LDB_SUCCESS /\
      tdb s' !! Sample.cn_x_key = tdb Sample.directory !! Sample.cn_x_key /\
      baseinfo_seq s' = baseinfo_seq Sample.directory + 1
  | None => False
  end.
Proof.
  split; [reflexivity|]. vm_compute. repeat split; reflexivity.
Qed.

(** ** Rename *)

Section Rename.
Context {tdb_data : Type} {C : ltdb_collaborators tdb_data}.

End Rename.


(** ** The sequence number *)

Section Sequence.
Context {tdb_data : Type} {C : ltdb_collaborators tdb_data}.
Implicit Types s : ldb_module tdb_data.

(** The number only depends on the record kept under @BASEINFO's key. *)
Lemma baseinfo_seq_ext s s' :
  (forall k, ltdb_key LTDB_BASEINFO = Some k -> tdb s' !! k = tdb s !! k) ->
  baseinfo_seq s' = baseinfo_seq s.
Proof.
  intros H. unfold baseinfo_seq, ltdb_sequence_number, ltdb_search_dn1, tdb_fetch.
  destruct (ltdb_key LTDB_BASEINFO) as [k|]; [|done]. rewrite (H k eq_refl).
  by repeat case_match.
Qed.

Lemma baseinfo_seq_other_key dn key s (t : gmap string tdb_data) :
  not_baseinfo dn -> ltdb_key dn = Some key ->
  (forall k, k <> key -> t !! k = tdb s !! k) ->
  baseinfo_seq (set_tdb s t) = baseinfo_seq s.
Proof.
  intros [_ Hne] Hkey Hsame. apply baseinfo_seq_ext. intros k Hk. simpl.
  apply Hsame. intros ->. congruence.
Qed.

Lemma ltdb_store_keeps msg flgs :
  (forall m, keeps_sequence (ltdb_index_add m)) ->
  not_baseinfo (msg_dn msg) -> keeps_sequence (ltdb_store msg flgs).
Proof.
  intros Hidx Hdn s. unfold ltdb_store.
  destruct (ltdb_key (msg_dn msg)) as [key|] eqn:Hkey; [|done].
  destruct (ltdb_pack_data msg) as [data|]; [|done].
  destruct (tdb_store (tdb s) key data flgs) as [e|t] eqn:Hstore; [done|].
  assert (Ht : baseinfo_seq (set_tdb s t) = baseinfo_seq s).
  { apply (baseinfo_seq_other_key (msg_dn msg) key); [done..|].
    intros k Hk. unfold tdb_store in Hstore.
    destruct flgs, (tdb s !! key); simplify_eq; by rewrite lookup_insert_ne. }
  pose proof (Hidx msg (set_tdb s t)) as Hkeep.
  destruct (ltdb_index_add msg (set_tdb s t)) as [ret s1]. simpl in Hkeep.
  destruct (ret =? LDB_SUCCESS); simpl; [congruence|].
  rewrite <- Ht, <- Hkeep.
  replace (tdb_delete_unchecked key s1) with (set_tdb s1 (tdb (tdb_delete_unchecked key s1))).
  2:{ unfold tdb_delete_unchecked. by destruct (tdb_delete (tdb s1) key), s1. }
  replace (baseinfo_seq s1) with (baseinfo_seq (set_tdb s1 (tdb s1))) at 2
    by (by destruct s1).
  apply baseinfo_seq_ext. intros k Hk. simpl.
  unfold tdb_delete_unchecked, tdb_delete.
  destruct (tdb s1 !! key); simpl; [|done].
  apply lookup_delete_ne. destruct Hdn as [_ Hne]. intros ->. congruence.
Qed.

Lemma ltdb_delete_noindex_keeps dn :
  not_baseinfo dn -> keeps_sequence (ltdb_delete_noindex dn).
Proof.
  intros Hdn s. unfold ltdb_delete_noindex.
  destruct (ltdb_key dn) as [key|] eqn:Hkey; [|done].
  unfold tdb_delete. destruct (tdb s !! key); [|done]. simpl.
  apply (baseinfo_seq_other_key dn key); [done..|].
  intros k Hk. by apply lookup_delete_ne.
Qed.

Lemma ltdb_modified_bumps dn s :
  sequence_contract -> not_baseinfo dn ->
  fst (ltdb_modified dn s) = LDB_SUCCESS ->
  baseinfo_seq (snd (ltdb_modified dn s)) = to_uint64 (baseinfo_seq s + 1).
Proof.
  intros HC [Hnb _]. unfold ltdb_modified. rewrite Hnb, andb_false_r.
  cbn [negb]. unfold op_bind.
  destruct (ldb_dn_is_special dn &&
            (ldb_dn_check_special dn LTDB_INDEXLIST
             || ldb_dn_check_special dn LTDB_ATTRIBUTES)).
  - pose proof (reindex_keeps HC s) as Hre.
    destruct (ltdb_reindex s) as [ret s1]. simpl in Hre.
    rewrite andb_true_r. destruct (Z.eqb_spec ret LDB_SUCCESS); [|done].
    intros Hok. rewrite <- Hre. by apply (tracker_bumps HC).
  - unfold op_ret. cbn. apply (tracker_bumps HC).
Qed.

Lemma ltdb_add_internal_bumps msg s s' :
  sequence_contract -> not_baseinfo (msg_dn msg) ->
  ltdb_add_internal msg s = (LDB_SUCCESS, s') ->
  baseinfo_seq s' = to_uint64 (baseinfo_seq s + 1).
Proof.
  intros HC Hdn. unfold ltdb_add_internal.
  destruct (Z.eqb_spec (ltdb_check_special_dn msg) LDB_SUCCESS) as [_|?];
    [|unfold op_ret; intros [= ? ?]; done].
  cbn [negb]. unfold op_bind at 1.
  pose proof (cache_load_keeps HC s) as Hload.
  destruct (ltdb_cache_load s) as [r s0]. simpl in Hload.
  destruct (Z.eqb_spec r 0) as [_|?]; [|unfold op_ret; intros [= ? ?]; done].
  cbn [negb]. unfold op_bind at 1.
  pose proof (ltdb_store_keeps msg TDB_INSERT (index_add_keeps HC) Hdn s0) as Hstore.
  destruct (ltdb_store msg TDB_INSERT s0) as [ret s1]. simpl in Hstore.
  destruct (Z.eqb_spec ret LDB_ERR_ENTRY_ALREADY_EXISTS) as [->|_];
    [unfold op_ret; intros [= ? ?]; done|].
  destruct (Z.eqb_spec ret LDB_SUCCESS) as [->|?];
    [|unfold op_ret; intros [= ? ?]; done].
  intros (s2 & Hone & Hmod)%op_check_success.
  pose proof (index_one_keeps HC msg 1 s1) as Hk. rewrite Hone in Hk. simpl in Hk.
  pose proof (ltdb_modified_bumps (msg_dn msg) s2 HC Hdn) as Hb.
  rewrite Hmod in Hb. simpl in Hb. rewrite Hb by done. congruence.
Qed.

Lemma ltdb_delete_internal_bumps dn s s' :
  sequence_contract -> not_baseinfo dn ->
  ltdb_delete_internal dn s = (LDB_SUCCESS, s') ->
  baseinfo_seq s' = to_uint64 (baseinfo_seq s + 1).
Proof.
  intros HC Hdn. unfold ltdb_delete_internal.
  destruct (ltdb_search_dn1 dn s) as [e|msg] eqn:Hsearch.
  { intros [= -> <-]. unfold ltdb_search_dn1, tdb_fetch in Hsearch.
    repeat case_match; simplify_eq. }
  intros (s1 & Hdel & (s2 & Hone & (s3 & Hidx & Hmod)%op_check_success)%op_check_success)%op_check_success.
  pose proof (ltdb_delete_noindex_keeps dn Hdn s) as H1. rewrite Hdel in H1.
  pose proof (index_one_keeps HC msg 0 s1) as H2. rewrite Hone in H2.
  pose proof (index_del_keeps HC msg s2) as H3. rewrite Hidx in H3.
  pose proof (ltdb_modified_bumps dn s3 HC Hdn) as Hb. rewrite Hmod in Hb.
  simpl in *. rewrite Hb by done. congruence.
Qed.








(** The working copy keeps the DN of the request. *)
Lemma msg_delete_element_dn msg name val s r m s' :
  msg_delete_element msg name val s = Some ((r, m), s') -> msg_dn m = msg_dn msg.
Proof.
  unfold msg_delete_element. intros H.
  repeat case_match; simplify_eq; try done.
  match goal with
  | H : msg_delete_attribute ?m0 ?n ?s0 = _ |- _ =>
      pose proof (msg_delete_attribute_result m0 n s0) as Hr; rewrite H in Hr;
      simpl in Hr; by injection Hr as _ ->
  end.
Qed.

Lemma delete_values_dn dn el vs : forall j msg2 s r m s',
  delete_values dn el j vs msg2 s = Some ((r, m), s') -> msg_dn m = msg_dn msg2.
Proof.
  induction vs as [|v rest IH]; intros j msg2 s r m s'; cbn [delete_values].
  { by intros [= _ <- _]. }
  destruct (msg_delete_element msg2 (el_name el) v s) as [[[r1 m1] s1]|] eqn:Hdel; [|done].
  apply msg_delete_element_dn in Hdel.
  destruct (negb (r1 =? 0)); [intros [= _ <- _]; done|].
  destruct (ltdb_index_del_value dn el j s1) as [ret s2].
  destruct (negb (ret =? LDB_SUCCESS)); [intros [= _ <- _]; done|].
  intros H. apply IH in H. congruence.
Qed.

Lemma modify_element_dn dn el msg2 s r m s' :
  modify_element dn el msg2 s = Some ((r, m), s') -> msg_dn m = msg_dn msg2.
Proof.
  unfold modify_element, msg_add_element, ldb_dn_get_linearized.
  repeat case_match; intros; simplify_eq; try done;
    try match goal with
    | H : msg_delete_attribute ?m0 ?n ?s0 = _ |- _ =>
        pose proof (msg_delete_attribute_result m0 n s0) as Hr; rewrite H in Hr;
        simpl in Hr; by injection Hr as _ ->
    end.
  by eapply delete_values_dn.
Qed.

Lemma modify_elements_dn dn els : forall msg2 s r m s',
  modify_elements dn els msg2 s = Some ((r, m), s') -> msg_dn m = msg_dn msg2.
Proof.
  induction els as [|el rest IH]; intros msg2 s r m s'; cbn [modify_elements].
  { by intros [= _ <- _]. }
  destruct (modify_element dn el msg2 s) as [[[r1 m1] s1]|] eqn:Hel; [|done].
  apply modify_element_dn in Hel.
  destruct (negb (r1 =? LDB_SUCCESS)); [intros [= _ <- _]; done|].
  intros H. apply IH in H. congruence.
Qed.



Lemma to_uint64_succ_succ z : to_uint64 (to_uint64 (z + 1) + 1) = to_uint64 (z + 2).
Proof.
  unfold to_uint64. rewrite Zplus_mod_idemp_l. f_equal. lia.
Qed.



(** C6, as amended. A rename whose old and new DN are equivalent, and
    neither is @BASEINFO: when it succeeds, the old DN was deleted first
    and the new record added second, and, under the sequence contract,
    the sequence number of @BASEINFO is its old value plus 2 (as an
    unsigned 64-bit number). *)
Theorem rename_case_only_bumps_twice
    (req : ldb_request) (olddn newdn : ldb_dn) (s s' : ldb_module tdb_data)
    (h : ldb_handle) :
  sequence_contract -> not_baseinfo olddn -> not_baseinfo newdn ->
  ldb_dn_compare olddn newdn = 0 ->
  ltdb_rename req olddn newdn s = ((LDB_SUCCESS, Some h), s') ->
  h_status h = LDB_SUCCESS ->
  (exists s0 found s1,
     ltdb_cache_load s = (0, s0) /\
     ltdb_search_dn1 olddn s0 = inr found /\
     ltdb_delete_internal olddn s0 = (LDB_SUCCESS, s1) /\
     ltdb_add_internal {| msg_dn := newdn; msg_elements := msg_elements found |} s1
     = (LDB_SUCCESS, s')) /\
  baseinfo_seq s' = to_uint64 (baseinfo_seq s + 2).
Proof.
  intros HC Hold Hnew Hcmp Hren Hst. unfold ltdb_rename in Hren.
  destruct (check_critical_controls (req_controls req));
    [unfold op_ret in Hren; by simplify_eq|].
  unfold op_bind at 1 in Hren.
  pose proof (cache_load_keeps HC s) as Hload.
  destruct (ltdb_cache_load s) as [r s0]. simpl in Hload.
  destruct (Z.eqb_spec r 0) as [->|?]; cbn [negb] in Hren;
    [|unfold op_ret in Hren; by simplify_eq].
  destruct (ltdb_search_dn1 olddn s0) as [tret|found] eqn:Hsearch.
  { injection Hren as <- <-. simpl in Hst. subst tret.
    unfold ltdb_search_dn1, tdb_fetch in Hsearch. repeat case_match; simplify_eq. }
  rewrite Hcmp in Hren. cbn [Z.eqb] in Hren. unfold op_bind at 1 in Hren.
  destruct (ltdb_delete_internal olddn s0) as [r1 s1] eqn:Hdel.
  destruct (Z.eqb_spec r1 LDB_SUCCESS) as [->|?]; cbn [negb] in Hren;
    [|unfold op_ret, rename_done in Hren; by simplify_eq].
  unfold op_bind at 1 in Hren.
  destruct (ltdb_add_internal _ s1) as [r2 s2] eqn:Hadd.
  destruct (Z.eqb_spec r2 LDB_SUCCESS) as [->|?]; cbn [negb] in Hren;
    [|unfold op_ret, rename_done in Hren; by simplify_eq].
  unfold op_ret in Hren. injection Hren as _ _ <-.
  split; [by exists s0, found, s1|].
  apply ltdb_delete_internal_bumps in Hdel; [|done..].
  apply ltdb_add_internal_bumps in Hadd; [|done..].
  rewrite Hadd, Hdel, Hload. apply to_uint64_succ_succ.
Qed.

End Sequence.

(** The sample directory honours the sequence contract. *)
Lemma sample_decimal n : 0 <= n -> Sample.decimal (Sample.to_decimal n) = n.
Proof.
  intros Hn. unfold Sample.decimal, Sample.to_decimal.
  rewrite NilEmpty.usu, DecimalN.Unsigned.of_to. by apply Z2N.id.
Qed.

Lemma sample_baseinfo_seq (s : ldb_module Sample.data) :
  baseinfo_seq s =
    match tdb s !! Sample.baseinfo_key with
    | Some els =>
        Sample.find_attr_as_uint64
          {| msg_dn := LTDB_BASEINFO; msg_elements := els |} LTDB_SEQUENCE_NUMBER 0
    | None => 0
    end.
Proof.
  unfold baseinfo_seq, ltdb_sequence_number, ltdb_search_dn1, tdb_fetch.
  change (ltdb_key LTDB_BASEINFO) with (Some Sample.baseinfo_key).
  cbv beta iota. destruct (tdb s !! Sample.baseinfo_key); reflexivity.
Qed.

Lemma sample_sequence_contract : sequence_contract (C := Sample.collaborators).
Proof.
  split; try done.
  intros s. cbn [ltdb_increase_sequence_number Sample.collaborators
                 Sample.collaborators_with].
  unfold Sample.increase_sequence_number. rewrite !sample_baseinfo_seq.
  destruct (tdb s !! Sample.baseinfo_key) as [els|]; [|done]. intros _.
  cbn [snd set_tdb tdb]. rewrite lookup_insert_eq.
  set (n := to_uint64 (_ + 1)).
  change (Sample.find_attr_as_uint64 _ _ _)
    with (to_uint64 (Sample.decimal (Sample.to_decimal n))).
  rewrite sample_decimal; unfold n, to_uint64.
  - apply Z.mod_mod. lia.
  - apply Z.mod_pos_bound. lia.
Qed.



(** C6 on the rename of cn=x to cn=X. *)
Lemma rename_case_only_bumps_twice_witness :
  ldb_dn_compare "cn=x" "cn=X" = 0 /\
  baseinfo_seq (snd (ltdb_rename Sample.no_controls "cn=x" "cn=X" Sample.directory))
  = to_uint64 (baseinfo_seq Sample.directory + 2).
Proof.
  split; [reflexivity|].
  refine (proj2 (rename_case_only_bumps_twice Sample.no_controls "cn=x" "cn=X"
            Sample.directory _ {| h_status := LDB_SUCCESS; h_state := LDB_ASYNC_DONE |}
            sample_sequence_contract _ _ eq_refl _ eq_refl)).
  - split; [reflexivity|vm_compute; discriminate].
  - split; [reflexivity|vm_compute; discriminate].
  - vm_compute. reflexivity.
Defined.

(** C6 as first stated fails for @BASEINFO: renaming it to itself
    succeeds by delete-then-add, and the sequence number is 5 before
    and after. *)
Lemma rename_baseinfo_keeps_sequence :
  ldb_dn_compare LTDB_BASEINFO LTDB_BASEINFO = 0 /\
  fst (ltdb_rename Sample.no_controls LTDB_BASEINFO LTDB_BASEINFO Sample.directory)
  = (LDB_SUCCESS, Some {| h_status := LDB_SUCCESS; h_state := LDB_ASYNC_DONE |}) /\
  baseinfo_seq Sample.directory = 5 /\
  baseinfo_seq
    (snd (ltdb_rename Sample.no_controls LTDB_BASEINFO LTDB_BASEINFO Sample.directory))
  = 5.
Proof. repeat split; vm_compute; reflexivity. Qed.

(** ** The sequence-number query *)

Section Query.
Context {tdb_data : Type} {C : ltdb_collaborators tdb_data}.

(** C8. The sequence-number query always returns success and leaves the
    module as it is. Without a @BASEINFO record it yields zero. With
    one, HIGHEST_SEQ yields the stored sequenceNumber, NEXT that number
    plus one in [uint64_t] (so plus one below the maximum), and
    HIGHEST_TIMESTAMP the time parsed from modifyTimestamp, or zero
    when the record has no such attribute. *)
Theorem sequence_number_query (s : ldb_module tdb_data) :
  (forall type,
     fst (fst (ltdb_sequence_number type s)) = LDB_SUCCESS /\
     snd (ltdb_sequence_number type s) = s) /\
  (forall key, ltdb_key LTDB_BASEINFO = Some key -> tdb s !! key = None ->
     forall type, ltdb_sequence_number type s = ((LDB_SUCCESS, 0), s)) /\
  (forall key data els,
     ltdb_key LTDB_BASEINFO = Some key -> tdb s !! key = Some data ->
     ltdb_unpack_data data = Some els ->
     let msg := {| msg_dn := LTDB_BASEINFO; msg_elements := els |} in
     let stored := ldb_msg_find_attr_as_uint64 msg LTDB_SEQUENCE_NUMBER 0 in
     ltdb_sequence_number LDB_SEQ_HIGHEST_SEQ s = ((LDB_SUCCESS, stored), s) /\
     ltdb_sequence_number LDB_SEQ_NEXT s
       = ((LDB_SUCCESS, to_uint64 (stored + 1)), s) /\
     (0 <= stored < 2 ^ 64 - 1 -> to_uint64 (stored + 1) = stored + 1) /\
     ltdb_sequence_number LDB_SEQ_HIGHEST_TIMESTAMP s
       = ((LDB_SUCCESS,
           match ldb_msg_find_attr_as_string msg LTDB_MOD_TIMESTAMP with
           | Some date => to_uint64 (ldb_string_to_time date)
           | None => 0
           end), s)).
Proof.
  split; [|split].
  - intros type. unfold ltdb_sequence_number.
    destruct (ltdb_search_dn1 LTDB_BASEINFO s); [done|].
    destruct type; try done. by destruct (ldb_msg_find_attr_as_string _ _).
  - intros key Hkey Hnone type.
    unfold ltdb_sequence_number, ltdb_search_dn1, tdb_fetch. by rewrite Hkey, Hnone.
  - intros key data els Hkey Hsome Hunpack msg stored.
    unfold ltdb_sequence_number, ltdb_search_dn1, tdb_fetch.
    rewrite Hkey, Hsome, Hunpack. fold msg. fold stored.
    repeat split; try done.
    + intros Hrange. unfold to_uint64. apply Z.mod_small. lia.
    + by destruct (ldb_msg_find_attr_as_string msg LTDB_MOD_TIMESTAMP).
Qed.
End Query.

(** C8 on the sample directory, and on one without @BASEINFO. *)
Lemma sequence_number_query_witness :
  ltdb_sequence_number LDB_SEQ_HIGHEST_SEQ Sample.directory
    = ((LDB_SUCCESS, 5), Sample.directory) /\
  ltdb_sequence_number LDB_SEQ_NEXT Sample.directory
    = ((LDB_SUCCESS, 6), Sample.directory) /\
  ltdb_sequence_number LDB_SEQ_HIGHEST_TIMESTAMP Sample.directory
    = ((LDB_SUCCESS, 0), Sample.directory) /\
  ltdb_sequence_number LDB_SEQ_NEXT (set_tdb Sample.directory ∅)
    = ((LDB_SUCCESS, 0), set_tdb Sample.directory ∅).
Proof.
  pose proof (sequence_number_query Sample.directory) as (_ & _ & Hpresent).
  pose proof (sequence_number_query (set_tdb Sample.directory ∅)) as (_ & Hmissing & _).
  destruct (Hpresent Sample.baseinfo_key (Sample.baseinfo_record 5 "0")
              (Sample.baseinfo_record 5 "0") eq_refl eq_refl eq_refl)
    as (Hseq & Hnext & _ & Hstamp).
  split; [exact Hseq|]. split; [exact Hnext|]. split; [exact Hstamp|].
  exact (Hmissing Sample.baseinfo_key eq_refl eq_refl LDB_SEQ_NEXT).
Defined.

(** * More about the schema registry *)

Section NameEquality.

Lemma ldb_attr_cmp_eq a b :
  ldb_attr_cmp a b = 0 <-> casefold_name a = casefold_name b.
Proof.
  unfold ldb_attr_cmp. rewrite sign_of_zero. split.
  - apply String.compare_eq_iff.
  - intros ->. apply string_compare_refl.
Qed.

Lemma ldb_attr_cmp_casefold_l a b c :
  casefold_name a = casefold_name b -> ldb_attr_cmp a c = ldb_attr_cmp b c.
Proof. unfold ldb_attr_cmp. by intros ->. Qed.

Lemma ldb_attr_cmp_casefold_r a b c :
  casefold_name a = casefold_name b -> ldb_attr_cmp c a = ldb_attr_cmp c b.
Proof. unfold ldb_attr_cmp. by intros ->. Qed.

Lemma ldb_attr_cmp_antisym a b : ldb_attr_cmp a b = - ldb_attr_cmp b a.
Proof.
  unfold ldb_attr_cmp.
  rewrite (String.compare_antisym (casefold_name a) (casefold_name b)).
  by destruct (String.compare (casefold_name b) (casefold_name a)).
Qed.

Lemma toupper_idempotent c : toupper (toupper c) = toupper c.
Proof. destruct c as [[] [] [] [] [] [] [] []]; reflexivity. Qed.

Lemma casefold_name_idempotent s : casefold_name (casefold_name s) = casefold_name s.
Proof. induction s as [|c s IH]; [done|]. simpl. by rewrite toupper_idempotent, IH. Qed.

Lemma by_name_loop_casefold fuel : forall attrs n1 n2 b e def,
  casefold_name n1 = casefold_name n2 ->
  by_name_loop fuel attrs n1 b e def = by_name_loop fuel attrs n2 b e def.
Proof.
  induction fuel as [|fuel IH]; intros attrs n1 n2 b e def Hn; [done|].
  cbn [by_name_loop]. destruct (b <=? e); [|done].
  destruct (attrs !! Z.to_nat (Z.quot (b + e) 2)) as [a|]; [|done].
  rewrite (ldb_attr_cmp_casefold_l n1 n2 _ Hn).
  destruct (ldb_attr_cmp n2 (attr_name a) =? 0); [done|].
  destruct (ldb_attr_cmp n2 (attr_name a) <? 0); by apply IH.
Qed.

End NameEquality.

(** X1. The lookup does not look at the case of the queried name: two
    names that [ldb_attr_cmp] holds equal resolve to the same entry of
    any registry, and a name resolves as its upper-case form does. *)
Theorem lookup_ignores_case (l : ldb_schema) (n1 n2 : string) :
  ldb_attr_cmp n1 n2 = 0 ->
  ldb_schema_attribute_by_name l n1 = ldb_schema_attribute_by_name l n2 /\
  ldb_schema_attribute_by_name l (casefold_name n1)
  = ldb_schema_attribute_by_name l n1.
Proof.
  intros Hn%ldb_attr_cmp_eq. unfold ldb_schema_attribute_by_name.
  destruct (attributes l) as [|a0 rest]; [done|].
  destruct (String.eqb (attr_name a0) "*"); split;
    apply by_name_loop_casefold; auto using casefold_name_idempotent.
Qed.

Lemma lookup_ignores_case_witness :
  ldb_attr_cmp "objectclass" "OBJECTCLASS" = 0 /\
  ldb_schema_attribute_by_name Sample.schema "objectclass"
  = ldb_schema_attribute_by_name Sample.schema "OBJECTCLASS" /\
  ldb_schema_attribute_by_name Sample.schema "OBJECTCLASS" = Some (Slot 4).
Proof.
  split; [reflexivity|]. split; [|reflexivity].
  exact (proj1 (lookup_ignores_case Sample.schema "objectclass" "OBJECTCLASS" eq_refl)).
Defined.

Section Order.

Lemma strictly_sorted_sorted attrs k : strictly_sorted attrs -> sorted_from k attrs.
Proof. intros H i j a b _ Hij Hi Hj. pose proof (H i j a b Hij Hi Hj). lia. Qed.

Lemma strictly_sorted_cons a rest :
  strictly_sorted (a :: rest) <->
  (forall b, b ∈ rest -> ldb_attr_cmp (attr_name a) (attr_name b) < 0) /\
  strictly_sorted rest.
Proof.
  split.
  - intros H. split.
    + intros b [j Hj]%list_elem_of_lookup. apply (H 0%nat (S j)); [lia|done..].
    + intros i j x y Hij Hi Hj. apply (H (S i) (S j)); [lia|done..].
  - intros [Hhd Htl] i j x y Hij Hi Hj. destruct j as [|j]; [lia|].
    destruct i as [|i]; simplify_eq/=.
    + apply Hhd. apply list_elem_of_lookup. eauto.
    + apply (Htl i j); [lia|done..].
Qed.

Lemma sorted_from_0_cons a rest :
  sorted_from 0 (a :: rest) <->
  (forall b, b ∈ rest -> ldb_attr_cmp (attr_name a) (attr_name b) <= 0) /\
  sorted_from 0 rest.
Proof.
  split.
  - intros H. split.
    + intros b [j Hj]%list_elem_of_lookup. apply (H 0%nat (S j)); [lia|lia|done..].
    + intros i j x y _ Hij Hi Hj. apply (H (S i) (S j)); [lia|lia|done..].
  - intros [Hhd Htl] i j x y _ Hij Hi Hj. destruct j as [|j]; [lia|].
    destruct i as [|i]; simplify_eq/=.
    + apply Hhd. apply list_elem_of_lookup. eauto.
    + apply (Htl i j); [lia|lia|done..].
Qed.

Lemma names_strictly_sorted_spec attrs :
  names_strictly_sorted (map attr_name attrs) = true -> strictly_sorted attrs.
Proof.
  induction attrs as [|a rest IH]; simpl.
  { intros _ i j a b _ Hi. done. }
  intros [Hall Hs]%andb_true_iff. apply strictly_sorted_cons. split; [|auto].
  intros b Hb. rewrite forallb_forall in Hall. apply Z.ltb_lt, Hall.
  apply in_map, list_elem_of_In, Hb.
Qed.

(** What [schema_insert] returns is made of the old entries and the new
    one. *)
Lemma schema_insert_elem attrs new b :
  b ∈ schema_insert attrs new -> b ∈ attrs \/ b = new.
Proof.
  induction attrs as [|a rest IH]; simpl.
  { intros ->%list_elem_of_singleton. by right. }
  destruct (_ =? 0).
  - destruct (has_flag _ _); rewrite !elem_of_cons; tauto.
  - destruct (_ <? 0); rewrite !elem_of_cons; [tauto|].
    intros [->|Hb]; [tauto|]. destruct (IH Hb); tauto.
Qed.

Lemma schema_insert_strictly_sorted attrs new :
  strictly_sorted attrs -> strictly_sorted (schema_insert attrs new).
Proof.
  induction attrs as [|a rest IH]; simpl.
  { intros _ i j x y Hij Hi Hj. destruct i, j; simplify_eq/=; lia. }
  intros [Hhd Htl]%strictly_sorted_cons.
  destruct (Z.eqb_spec (ldb_attr_cmp (attr_name new) (attr_name a)) 0) as [Heq|Hne].
  - destruct (has_flag _ _); apply strictly_sorted_cons; split; auto.
    intros b Hb. apply ldb_attr_cmp_eq in Heq.
    rewrite (ldb_attr_cmp_casefold_l _ _ _ Heq). auto.
  - destruct (Z.ltb_spec (ldb_attr_cmp (attr_name new) (attr_name a)) 0) as [Hlt|Hge].
    + apply strictly_sorted_cons. split; [|by apply strictly_sorted_cons].
      intros b [->|Hb]%elem_of_cons; [done|].
      apply (ldb_attr_cmp_lt_le _ (attr_name a)); [done|]. specialize (Hhd b Hb). lia.
    + apply strictly_sorted_cons. split; [|auto].
      intros b [Hb| ->]%schema_insert_elem; [auto|].
      rewrite ldb_attr_cmp_antisym. lia.
Qed.

Lemma schema_insert_sorted attrs new :
  sorted_from 0 attrs -> sorted_from 0 (schema_insert attrs new).
Proof.
  induction attrs as [|a rest IH]; simpl.
  { intros _ i j x y _ Hij Hi Hj. destruct i, j; simplify_eq/=; lia. }
  intros [Hhd Htl]%sorted_from_0_cons.
  destruct (Z.eqb_spec (ldb_attr_cmp (attr_name new) (attr_name a)) 0) as [Heq|Hne].
  - destruct (has_flag _ _); apply sorted_from_0_cons; split; auto.
    intros b Hb. apply ldb_attr_cmp_eq in Heq.
    rewrite (ldb_attr_cmp_casefold_l _ _ _ Heq). auto.
  - destruct (Z.ltb_spec (ldb_attr_cmp (attr_name new) (attr_name a)) 0) as [Hlt|Hge].
    + apply sorted_from_0_cons. split; [|by apply sorted_from_0_cons].
      intros b [->|Hb]%elem_of_cons; [lia|].
      pose proof (ldb_attr_cmp_lt_le _ (attr_name a) (attr_name b) Hlt (Hhd b Hb)). lia.
    + apply sorted_from_0_cons. split; [|auto].
      intros b [Hb| ->]%schema_insert_elem; [auto|].
      rewrite ldb_attr_cmp_antisym. lia.
Qed.

Lemma delete_strictly_sorted i attrs :
  strictly_sorted attrs -> strictly_sorted (delete i attrs).
Proof.
  intros H j1 j2 a b Hj Ha Hb.
  destruct (decide (j1 < i)%nat), (decide (j2 < i)%nat);
    rewrite ?list_lookup_delete_lt in Ha by lia;
    rewrite ?list_lookup_delete_lt in Hb by lia;
    rewrite ?list_lookup_delete_ge in Ha by lia;
    rewrite ?list_lookup_delete_ge in Hb by lia;
    (eapply (H _ _ a b); [|exact Ha|exact Hb]; lia).
Qed.

Lemma delete_sorted i attrs :
  sorted_from 0 attrs -> sorted_from 0 (delete i attrs).
Proof.
  intros H j1 j2 a b _ Hj Ha Hb.
  destruct (decide (j1 < i)%nat), (decide (j2 < i)%nat);
    rewrite ?list_lookup_delete_lt in Ha by lia;
    rewrite ?list_lookup_delete_lt in Hb by lia;
    rewrite ?list_lookup_delete_ge in Ha by lia;
    rewrite ?list_lookup_delete_ge in Hb by lia;
    (eapply (H _ _ a b); [| |exact Ha|exact Hb]; lia).
Qed.

(** In a strictly sorted array a name is registered at one index only. *)
Lemma strictly_sorted_unique attrs name i j a b :
  strictly_sorted attrs ->
  attrs !! i = Some a -> attrs !! j = Some b ->
  ldb_attr_cmp name (attr_name a) = 0 -> ldb_attr_cmp name (attr_name b) = 0 ->
  i = j.
Proof.
  intros Hs Hi Hj Ha%ldb_attr_cmp_eq Hb%ldb_attr_cmp_eq.
  assert (Hab : ldb_attr_cmp (attr_name a) (attr_name b) = 0)
    by (apply ldb_attr_cmp_eq; congruence).
  assert (Hba : ldb_attr_cmp (attr_name b) (attr_name a) = 0)
    by (apply ldb_attr_cmp_eq; congruence).
  destruct (lt_eq_lt_dec i j) as [[Hlt | ->] | Hgt]; [|done|].
  - pose proof (Hs i j a b Hlt Hi Hj). lia.
  - pose proof (Hs j i b a Hgt Hj Hi). lia.
Qed.

(** The lookup finds every registered name of a strictly sorted array,
    wherever a wildcard sits. *)
Lemma by_name_finds l name i a :
  strictly_sorted (attributes l) ->
  attributes l !! i = Some a -> ldb_attr_cmp name (attr_name a) = 0 ->
  ldb_schema_attribute_by_name l name = Some (Slot i).
Proof.
  intros Hs Hi Hc.
  destruct (attributes l) as [|a0 rest] eqn:Hattrs; [done|].
  rewrite (by_name_unfold l name a0 rest Hattrs), Hattrs.
  set (def := if String.eqb (attr_name a0) "*" then Slot 0 else Builtin).
  destruct (by_name_loop_sorted (S (length (a0 :: rest))) (a0 :: rest) name
              (Z.of_nat (search_start (a0 :: rest)))
              (num_attributes l - 1) def (search_start (a0 :: rest)))
    as (r & Hr & Hcases).
  { by apply strictly_sorted_sorted. }
  { lia. }
  { unfold num_attributes. rewrite Hattrs. lia. }
  { unfold num_attributes. rewrite Hattrs.
    destruct (search_start_spec (a0 :: rest) a0 rest eq_refl) as [[-> _]|[-> _]];
      simpl length; lia. }
  { intros j b ? ?. lia. }
  { unfold num_attributes. rewrite Hattrs. intros j b Hj Hb.
    apply lookup_lt_Some in Hb. lia. }
  rewrite Hr. f_equal.
  destruct Hcases as [(j & b & -> & Hj & Hb)|[-> Hnone]].
  - f_equal. by eapply (strictly_sorted_unique (a0 :: rest) name j i).
  - destruct (search_start_spec (a0 :: rest) a0 rest eq_refl) as [[Hst Hw]|[Hst Hw]];
      rewrite Hst in Hnone.
    + destruct i as [|i].
      * unfold def. unfold is_wildcard in Hw. by rewrite Hw.
      * exfalso. eapply (Hnone (S i) a); [lia|done..].
    + exfalso. eapply (Hnone i a); [lia|done..].
Qed.

End Order.

Section InsertFacts.

Lemma schema_insert_new attrs new :
  (forall a, a ∈ attrs -> ldb_attr_cmp (attr_name new) (attr_name a) = 0 ->
     is_fixed a = false) ->
  new ∈ schema_insert attrs new.
Proof.
  induction attrs as [|a rest IH]; simpl; intros Hfix.
  { apply list_elem_of_here. }
  destruct (Z.eqb_spec (ldb_attr_cmp (attr_name new) (attr_name a)) 0) as [Heq|Hne].
  - unfold is_fixed in Hfix. rewrite (Hfix a) by (done || apply list_elem_of_here).
    apply list_elem_of_here.
  - destruct (_ <? 0); [apply list_elem_of_here|].
    apply list_elem_of_further, IH. intros b Hb. apply Hfix. by apply list_elem_of_further.
Qed.

Lemma schema_insert_keeps attrs new a :
  a ∈ attrs -> ldb_attr_cmp (attr_name new) (attr_name a) <> 0 ->
  a ∈ schema_insert attrs new.
Proof.
  induction attrs as [|h rest IH]; simpl; intros Ha Hne.
  { by apply elem_of_nil in Ha. }
  destruct (Z.eqb_spec (ldb_attr_cmp (attr_name new) (attr_name h)) 0) as [Heq|Hneq].
  - apply elem_of_cons in Ha as [->|Ha]; [done|].
    destruct (has_flag _ _); by apply list_elem_of_further.
  - destruct (_ <? 0); [by apply list_elem_of_further|].
    apply elem_of_cons in Ha as [->|Ha]; [apply list_elem_of_here|].
    apply list_elem_of_further. auto.
Qed.

Lemma schema_insert_fixed attrs new a :
  strictly_sorted attrs -> a ∈ attrs ->
  ldb_attr_cmp (attr_name new) (attr_name a) = 0 -> is_fixed a = true ->
  schema_insert attrs new = attrs.
Proof.
  induction attrs as [|h rest IH]; simpl; intros Hs Ha Hc Hfix.
  { by apply elem_of_nil in Ha. }
  apply strictly_sorted_cons in Hs as [Hhd Htl].
  destruct (Z.eqb_spec (ldb_attr_cmp (attr_name new) (attr_name h)) 0) as [Heq|Hne].
  - apply elem_of_cons in Ha as [->|Ha].
    + unfold is_fixed in Hfix. by rewrite Hfix.
    + exfalso. specialize (Hhd a Ha). apply ldb_attr_cmp_eq in Heq, Hc.
      assert (ldb_attr_cmp (attr_name h) (attr_name a) = 0)
        by (apply ldb_attr_cmp_eq; congruence). lia.
  - apply elem_of_cons in Ha as [->|Ha]; [done|].
    destruct (Z.ltb_spec (ldb_attr_cmp (attr_name new) (attr_name h)) 0) as [Hlt|Hge].
    + exfalso. specialize (Hhd a Ha). apply ldb_attr_cmp_eq in Hc.
      rewrite (ldb_attr_cmp_casefold_l _ _ _ Hc) in Hlt.
      rewrite ldb_attr_cmp_antisym in Hlt. lia.
    + f_equal. auto.
Qed.

Lemma schema_insert_delete attrs new : forall i,
  (forall a, a ∈ attrs -> ldb_attr_cmp (attr_name new) (attr_name a) <> 0) ->
  schema_insert attrs new !! i = Some new ->
  delete i (schema_insert attrs new) = attrs.
Proof.
  assert (Hself : ldb_attr_cmp (attr_name new) (attr_name new) = 0)
    by apply ldb_attr_cmp_refl.
  induction attrs as [|h rest IH]; simpl; intros i Hun Hi.
  { by destruct i. }
  assert (Hh : ldb_attr_cmp (attr_name new) (attr_name h) <> 0)
    by (apply Hun, list_elem_of_here).
  destruct (Z.eqb_spec (ldb_attr_cmp (attr_name new) (attr_name h)) 0); [done|].
  destruct (_ <? 0).
  - destruct i as [|i]; [done|]. exfalso. simpl in Hi.
    eapply (Hun new); [|done]. apply list_elem_of_lookup. eauto.
  - destruct i as [|i]; simpl in *.
    + injection Hi as ->. done.
    + f_equal. apply IH; [|done]. intros a Ha. apply Hun. by apply list_elem_of_further.
Qed.

End InsertFacts.

(** X2. [ldb_schema_attribute_add_with_syntax] keeps the array in
    order, whether it inserts, overwrites, returns early on a fixed
    entry or refuses a NULL syntax: a sorted array stays sorted, and an
    array in which no two names compare equal stays so. *)
Theorem add_keeps_order (l : ldb_schema) (name : string) (flags : Z)
    (syntax : option ldb_schema_syntax) :
  (sorted_from 0 (attributes l) ->
   sorted_from 0
     (attributes (snd (ldb_schema_attribute_add_with_syntax l name flags syntax)))) /\
  (strictly_sorted (attributes l) ->
   strictly_sorted
     (attributes (snd (ldb_schema_attribute_add_with_syntax l name flags syntax)))).
Proof.
  unfold ldb_schema_attribute_add_with_syntax. destruct syntax as [s|]; [|done].
  simpl. split; [apply schema_insert_sorted|apply schema_insert_strictly_sorted].
Qed.

Lemma sample_schema_strictly_sorted : strictly_sorted (attributes Sample.schema).
Proof. apply names_strictly_sorted_spec. vm_compute. reflexivity. Qed.

Lemma add_keeps_order_witness :
  strictly_sorted (attributes Sample.schema) /\
  strictly_sorted
    (attributes (snd (ldb_schema_attribute_add_with_syntax Sample.schema "mail" 0
                        (Some Sample.directory_string)))).
Proof.
  split; [exact sample_schema_strictly_sorted|].
  exact (proj2 (add_keeps_order Sample.schema "mail" 0 (Some Sample.directory_string))
           sample_schema_strictly_sorted).
Defined.

(** X3. On a registry in strict order in which no fixed entry carries
    the name, an add with a syntax returns 0 and the lookup of the name
    then yields the entry of the call: its name, flags and syntax. *)
Theorem add_then_lookup (l : ldb_schema) (name : string) (flags : Z)
    (s : ldb_schema_syntax) :
  strictly_sorted (attributes l) ->
  (forall a, a ∈ attributes l -> ldb_attr_cmp name (attr_name a) = 0 ->
     is_fixed a = false) ->
  fst (ldb_schema_attribute_add_with_syntax l name flags (Some s)) = 0 /\
  resolve (snd (ldb_schema_attribute_add_with_syntax l name flags (Some s))) name
  = Some {| attr_name := name; attr_flags := flags; attr_syntax := s |}.
Proof.
  intros Hs Hfix. split; [done|]. unfold resolve. simpl.
  set (new := {| attr_name := name; attr_flags := flags; attr_syntax := s |}).
  assert (Hin : new ∈ schema_insert (attributes l) new) by by apply schema_insert_new.
  apply list_elem_of_lookup in Hin as [i Hi].
  rewrite (by_name_finds {| attributes := schema_insert (attributes l) new |} name i new);
    [done| |done|].
  - by apply schema_insert_strictly_sorted.
  - apply ldb_attr_cmp_refl.
Qed.

Lemma no_fixed_entries l name :
  forallb (fun a => negb (is_fixed a)) (attributes l) = true ->
  forall a, a ∈ attributes l -> ldb_attr_cmp name (attr_name a) = 0 ->
    is_fixed a = false.
Proof.
  rewrite forallb_forall. intros H a Ha _. apply list_elem_of_In, H in Ha.
  by destruct (is_fixed a).
Qed.

Lemma add_then_lookup_witness :
  resolve (snd (ldb_schema_attribute_add_with_syntax Sample.schema "CN" 0
                  (Some ldb_syntax_default))) "cn"
  = resolve (snd (ldb_schema_attribute_add_with_syntax Sample.schema "CN" 0
                  (Some ldb_syntax_default))) "CN" /\
  resolve (snd (ldb_schema_attribute_add_with_syntax Sample.schema "CN" 0
                  (Some ldb_syntax_default))) "CN"
  = Some {| attr_name := "CN"; attr_flags := 0; attr_syntax := ldb_syntax_default |}.
Proof.
  split; [reflexivity|].
  exact (proj2 (add_then_lookup Sample.schema "CN" 0 ldb_syntax_default
                  sample_schema_strictly_sorted
                  (no_fixed_entries Sample.schema "CN" eq_refl))).
Defined.

(** X4. An add whose name a FIXED entry carries is silently ignored:
    the registry is left as it was, whatever flags and syntax the call
    gives. *)
Theorem add_keeps_fixed_entry (l : ldb_schema) (name : string) (flags : Z)
    (syntax : option ldb_schema_syntax) (a : ldb_schema_attribute) :
  strictly_sorted (attributes l) -> a ∈ attributes l ->
  ldb_attr_cmp name (attr_name a) = 0 -> is_fixed a = true ->
  snd (ldb_schema_attribute_add_with_syntax l name flags syntax) = l.
Proof.
  intros Hs Ha Hc Hfix. unfold ldb_schema_attribute_add_with_syntax.
  destruct syntax as [s|]; [|done]. simpl.
  rewrite (schema_insert_fixed (attributes l) _ a); try done. by destruct l.
Qed.

Lemma add_keeps_fixed_entry_witness :
  snd (ldb_schema_attribute_add_with_syntax
         {| attributes := [Sample.entry "cn" LDB_ATTR_FLAG_FIXED; Sample.entry "ou" 0] |}
         "CN" 0 (Some Sample.directory_string))
  = {| attributes := [Sample.entry "cn" LDB_ATTR_FLAG_FIXED; Sample.entry "ou" 0] |}.
Proof.
  refine (add_keeps_fixed_entry _ "CN" 0 _ (Sample.entry "cn" LDB_ATTR_FLAG_FIXED)
            _ _ eq_refl eq_refl).
  - apply names_strictly_sorted_spec. reflexivity.
  - apply list_elem_of_here.
Defined.

(** X5. An add under one name does not disturb another: a registered
    name that compares different from the added one resolves to the
    same entry before and after. *)
Theorem add_keeps_other_names (l : ldb_schema) (name name' : string) (flags : Z)
    (syntax : option ldb_schema_syntax) (a : ldb_schema_attribute) :
  strictly_sorted (attributes l) -> a ∈ attributes l ->
  ldb_attr_cmp name (attr_name a) = 0 -> ldb_attr_cmp name' name <> 0 ->
  resolve l name = Some a /\
  resolve (snd (ldb_schema_attribute_add_with_syntax l name' flags syntax)) name = Some a.
Proof.
  intros Hs Ha Hc Hne.
  assert (Hres : forall l0, strictly_sorted (attributes l0) -> a ∈ attributes l0 ->
            resolve l0 name = Some a).
  { intros l0 Hs0 [i Hi]%list_elem_of_lookup. unfold resolve.
    by rewrite (by_name_finds l0 name i a). }
  split; [by apply Hres|]. apply Hres.
  - unfold ldb_schema_attribute_add_with_syntax. destruct syntax; [|done]. simpl.
    by apply schema_insert_strictly_sorted.
  - unfold ldb_schema_attribute_add_with_syntax. destruct syntax; [|done]. simpl.
    apply schema_insert_keeps; [done|]. simpl.
    apply ldb_attr_cmp_eq in Hc. by rewrite <- (ldb_attr_cmp_casefold_r _ _ _ Hc).
Qed.

Lemma add_keeps_other_names_witness :
  resolve Sample.schema "ou"
  = resolve (snd (ldb_schema_attribute_add_with_syntax Sample.schema "mail" 0
                    (Some ldb_syntax_default))) "ou".
Proof.
  destruct (add_keeps_other_names Sample.schema "ou" "mail" 0 (Some ldb_syntax_default)
              {| attr_name := "ou"; attr_flags := 0;
                 attr_syntax := Sample.directory_string |}
              sample_schema_strictly_sorted) as [H1 H2].
  - apply list_elem_of_lookup. by exists 5%nat.
  - reflexivity.
  - vm_compute. discriminate.
  - by rewrite H1, H2.
Defined.

Section RemoveFacts.

(** What a removal can return. *)
Lemma remove_cases l name l' :
  ldb_schema_attribute_remove l name = Some l' ->
  l' = l \/
  exists i a, attributes l !! i = Some a /\ is_fixed a = false /\
              l' = {| attributes := delete i (attributes l) |}.
Proof.
  unfold ldb_schema_attribute_remove.
  destruct (ldb_schema_attribute_by_name l name) as [[i|]|]; [|naive_solver|done].
  destruct (attributes l !! i) as [a|] eqn:Hi; [|done].
  destruct (has_flag (attr_flags a) LDB_ATTR_FLAG_FIXED) eqn:Hfix; [naive_solver|].
  intros [= <-]. right. by exists i, a.
Qed.

Lemma elem_of_delete_other {A} (xs : list A) i x y :
  xs !! i = Some y -> x ∈ xs -> x <> y -> x ∈ delete i xs.
Proof.
  intros Hi [j Hj]%list_elem_of_lookup Hne. apply list_elem_of_lookup.
  destruct (decide (j < i)%nat).
  - exists j. by rewrite list_lookup_delete_lt.
  - assert (j <> i) by congruence.
    exists (j - 1)%nat. rewrite list_lookup_delete_ge by lia.
    by replace (S (j - 1)) with j by lia.
Qed.

End RemoveFacts.

(** X6. [ldb_schema_attribute_remove] keeps the array in order
    (sorted, and strictly sorted) and takes out at most one entry. *)
Theorem remove_keeps_order (l l' : ldb_schema) (name : string) :
  ldb_schema_attribute_remove l name = Some l' ->
  (sorted_from 0 (attributes l) -> sorted_from 0 (attributes l')) /\
  (strictly_sorted (attributes l) -> strictly_sorted (attributes l')) /\
  (length (attributes l') <= length (attributes l) <= length (attributes l') + 1)%nat.
Proof.
  intros [->|(i & a & Hi & _ & ->)]%remove_cases; [repeat split; auto; lia|].
  simpl. split; [apply delete_sorted|]. split; [apply delete_strictly_sorted|].
  apply lookup_lt_Some in Hi. rewrite length_delete by eauto using lookup_lt_is_Some_2.
  lia.
Qed.

Lemma remove_keeps_order_witness :
  ldb_schema_attribute_remove Sample.schema "DC"
  = Some {| attributes := delete 1%nat (attributes Sample.schema) |} /\
  strictly_sorted (delete 1%nat (attributes Sample.schema)).
Proof.
  split; [reflexivity|].
  exact (proj1 (proj2 (remove_keeps_order Sample.schema _ "DC" eq_refl))
           sample_schema_strictly_sorted).
Defined.

(** X7. FIXED attributes are never removed: a fixed entry of the
    registry is still there after any remove. *)
Theorem remove_keeps_fixed_entries (l l' : ldb_schema) (name : string)
    (a : ldb_schema_attribute) :
  ldb_schema_attribute_remove l name = Some l' ->
  a ∈ attributes l -> is_fixed a = true -> a ∈ attributes l'.
Proof.
  intros [->|(i & b & Hi & Hb & ->)]%remove_cases Ha Hfix; [done|].
  simpl. apply (elem_of_delete_other _ i a b); [done..|]. congruence.
Qed.

Lemma remove_keeps_fixed_entries_witness :
  ldb_schema_attribute_remove
    {| attributes := [Sample.entry "cn" LDB_ATTR_FLAG_FIXED; Sample.entry "ou" 0] |} "cn"
  = Some {| attributes := [Sample.entry "cn" LDB_ATTR_FLAG_FIXED; Sample.entry "ou" 0] |}
  /\
  Sample.entry "cn" LDB_ATTR_FLAG_FIXED
    ∈ [Sample.entry "cn" LDB_ATTR_FLAG_FIXED; Sample.entry "ou" 0].
Proof.
  split; [reflexivity|].
  refine (remove_keeps_fixed_entries
            {| attributes := [Sample.entry "cn" LDB_ATTR_FLAG_FIXED; Sample.entry "ou" 0] |}
            {| attributes := [Sample.entry "cn" LDB_ATTR_FLAG_FIXED; Sample.entry "ou" 0] |}
            "cn" (Sample.entry "cn" LDB_ATTR_FLAG_FIXED) eq_refl _ eq_refl).
  apply list_elem_of_here.
Defined.

(** A lookup that ends on a non-fixed slot makes remove delete that
    slot. *)
Lemma remove_slot l name i a :
  strictly_sorted (attributes l) ->
  attributes l !! i = Some a -> ldb_attr_cmp name (attr_name a) = 0 ->
  is_fixed a = false ->
  ldb_schema_attribute_remove l name = Some {| attributes := delete i (attributes l) |}.
Proof.
  intros Hs Hi Hc Hfix.
  unfold ldb_schema_attribute_remove. rewrite (by_name_finds l name i a) by done.
  rewrite Hi. unfold is_fixed in Hfix. by rewrite Hfix.
Qed.

(** X8. On a registry in strict order, removing a name carried by a
    non-fixed entry takes out exactly that entry: the name is no longer
    registered, and every entry whose name compares different is
    kept. *)
Theorem remove_then_lookup (l : ldb_schema) (name : string) (i : nat)
    (a : ldb_schema_attribute) :
  strictly_sorted (attributes l) ->
  attributes l !! i = Some a -> ldb_attr_cmp name (attr_name a) = 0 ->
  is_fixed a = false ->
  ldb_schema_attribute_remove l name
    = Some {| attributes := delete i (attributes l) |} /\
  ~ registered {| attributes := delete i (attributes l) |} name /\
  (forall b, b ∈ attributes l -> ldb_attr_cmp name (attr_name b) <> 0 ->
     b ∈ delete i (attributes l)).
Proof.
  intros Hs Hi Hc Hfix. split; [|split].
  - by apply (remove_slot l name i a).
  - intros (j & b & Hj & Hb). simpl in Hj.
    destruct (decide (j < i)%nat).
    + rewrite list_lookup_delete_lt in Hj by done.
      pose proof (strictly_sorted_unique _ name j i b a Hs Hj Hi Hb Hc). lia.
    + rewrite list_lookup_delete_ge in Hj by lia.
      pose proof (strictly_sorted_unique _ name (S j) i b a Hs Hj Hi Hb Hc). lia.
  - intros b Hb Hne. apply (elem_of_delete_other _ i b a); [done..|]. congruence.
Qed.

Lemma remove_then_lookup_witness :
  ldb_schema_attribute_remove Sample.schema "OU"
    = Some {| attributes := delete 5%nat (attributes Sample.schema) |} /\
  ~ registered {| attributes := delete 5%nat (attributes Sample.schema) |} "OU".
Proof.
  destruct (remove_then_lookup Sample.schema "OU" 5
              {| attr_name := "ou"; attr_flags := 0;
                 attr_syntax := Sample.directory_string |}
              sample_schema_strictly_sorted eq_refl eq_refl eq_refl) as (H1 & H2 & _).
  by split.
Defined.

(** X9. Add then remove is a round trip: on a registry in strict
    order, adding a name that is not registered, without the FIXED
    flag, and removing it again gives the registry back. *)
Theorem add_then_remove (l : ldb_schema) (name : string) (flags : Z)
    (s : ldb_schema_syntax) :
  strictly_sorted (attributes l) -> ~ registered l name ->
  has_flag flags LDB_ATTR_FLAG_FIXED = false ->
  ldb_schema_attribute_remove
    (snd (ldb_schema_attribute_add_with_syntax l name flags (Some s))) name
  = Some l.
Proof.
  intros Hs Hun Hflags. simpl.
  set (new := {| attr_name := name; attr_flags := flags; attr_syntax := s |}).
  assert (Hun' : forall a, a ∈ attributes l ->
            ldb_attr_cmp (attr_name new) (attr_name a) <> 0).
  { intros a [i Hi]%list_elem_of_lookup Hc. apply Hun. by exists i, a. }
  assert (Hin : new ∈ schema_insert (attributes l) new).
  { apply schema_insert_new. intros a Ha Hc. by destruct (Hun' a Ha). }
  apply list_elem_of_lookup in Hin as [i Hi].
  rewrite (remove_slot {| attributes := schema_insert (attributes l) new |} name i new);
    [|by apply schema_insert_strictly_sorted|done|apply ldb_attr_cmp_refl|done].
  simpl. rewrite schema_insert_delete by done. by destruct l.
Qed.

Lemma add_then_remove_witness :
  ~ registered Sample.schema "mail" /\
  ldb_schema_attribute_remove
    (snd (ldb_schema_attribute_add_with_syntax Sample.schema "mail" 0
            (Some ldb_syntax_default))) "mail"
  = Some Sample.schema.
Proof.
  assert (Hun : ~ registered Sample.schema "mail")
    by (apply not_registered; vm_compute; reflexivity).
  split; [exact Hun|].
  exact (add_then_remove Sample.schema "mail" 0 ldb_syntax_default
           sample_schema_strictly_sorted Hun eq_refl).
Defined.

Section Seeding.
Variable std : string -> option ldb_schema_syntax.

Lemma setup_attributes_spec (todo : list (string * string)) : forall l,
  strictly_sorted (attributes l) ->
  (forall p, p ∈ todo -> is_Some (std (snd p))) ->
  names_distinct (map fst todo) = true ->
  (forall a p, a ∈ attributes l -> is_fixed a = true -> p ∈ todo ->
     ldb_attr_cmp (fst p) (attr_name a) <> 0) ->
  fst (setup_attributes std todo l) = LDB_SUCCESS /\
  strictly_sorted (attributes (snd (setup_attributes std todo l))) /\
  (forall a, a ∈ attributes l ->
     (forall p, p ∈ todo -> ldb_attr_cmp (fst p) (attr_name a) <> 0) ->
     a ∈ attributes (snd (setup_attributes std todo l))) /\
  (forall p, p ∈ todo ->
     exists s, std (snd p) = Some s /\
       {| attr_name := fst p; attr_flags := 0; attr_syntax := s |}
         ∈ attributes (snd (setup_attributes std todo l))).
Proof.
  induction todo as [|[attr syn] rest IH]; intros l Hs Hstd Hdist Hfix.
  { simpl. repeat split; try done. intros p Hp. by apply elem_of_nil in Hp. }
  simpl in Hdist. apply andb_true_iff in Hdist as [Hhead Hdist].
  rewrite forallb_forall in Hhead.
  destruct (Hstd (attr, syn)) as [s Hsyn]; [apply list_elem_of_here|]. simpl in Hsyn.
  cbn [setup_attributes]. unfold ldb_schema_attribute_add,
    ldb_schema_attribute_add_with_syntax. rewrite Hsyn. cbn [negb Z.eqb LDB_SUCCESS].
  set (new := {| attr_name := attr; attr_flags := 0; attr_syntax := s |}).
  set (l1 := {| attributes := schema_insert (attributes l) new |}).
  assert (Hrest_new : forall p, p ∈ rest -> ldb_attr_cmp (fst p) attr <> 0).
  { intros p Hp Hc. assert (Hin : In (fst p) (map fst rest))
      by (apply in_map, list_elem_of_In, Hp).
    apply Hhead in Hin. rewrite Hc in Hin. done. }
  destruct (IH l1) as (Hret & Hs' & Hkept & Hnames).
  - by apply schema_insert_strictly_sorted.
  - intros p Hp. apply Hstd. by apply list_elem_of_further.
  - done.
  - intros a p [Ha| ->]%schema_insert_elem Hfixed Hp; [|done].
    apply (Hfix a p); [done..|]. by apply list_elem_of_further.
  - split; [done|]. split; [done|]. split.
    + intros a Ha Hno. apply Hkept.
      * apply schema_insert_keeps; [done|]. apply (Hno (attr, syn)), list_elem_of_here.
      * intros p Hp. apply Hno. by apply list_elem_of_further.
    + intros p [->|Hp]%elem_of_cons; [|auto].
      exists s. split; [done|]. apply Hkept; [|apply Hrest_new].
      apply schema_insert_new. intros a Ha Hc.
      destruct (is_fixed a) eqn:Hfixed; [|done].
      destruct (Hfix a (attr, syn) Ha Hfixed (list_elem_of_here _ _) Hc).
Qed.

(** X10. [ldb_setup_wellknown_attributes] on a registry in strict
    order none of whose fixed entries has a well-known name: when some
    well-known syntax is not a standard one the call fails with
    operations-error; when all are, it returns success, the registry is
    still in strict order, and each of the six names resolves to an
    entry with that name, flags 0 and its standard syntax. *)
Theorem setup_wellknown_attributes_resolve (l : ldb_schema) :
  strictly_sorted (attributes l) ->
  (forall a p, a ∈ attributes l -> is_fixed a = true -> p ∈ wellknown ->
     ldb_attr_cmp (fst p) (attr_name a) <> 0) ->
  ((exists p, p ∈ wellknown /\ std (snd p) = None) ->
     fst (ldb_setup_wellknown_attributes std l) = LDB_ERR_OPERATIONS_ERROR) /\
  ((forall p, p ∈ wellknown -> is_Some (std (snd p))) ->
     fst (ldb_setup_wellknown_attributes std l) = LDB_SUCCESS /\
     strictly_sorted (attributes (snd (ldb_setup_wellknown_attributes std l))) /\
     forall attr syn, (attr, syn) ∈ wellknown ->
       exists s, std syn = Some s /\
         resolve (snd (ldb_setup_wellknown_attributes std l)) attr
         = Some {| attr_name := attr; attr_flags := 0; attr_syntax := s |}).
Proof.
  intros Hs Hfix. split.
  - intros (p & Hp & Hnone). unfold ldb_setup_wellknown_attributes.
    clear Hs Hfix. revert l.
    induction wellknown as [|[attr syn] rest IH]; intros l.
    { by apply elem_of_nil in Hp. }
    cbn [setup_attributes]. unfold ldb_schema_attribute_add,
      ldb_schema_attribute_add_with_syntax.
    destruct (std syn) as [s|] eqn:Hsyn; [|done].
    cbn [negb Z.eqb LDB_SUCCESS]. apply elem_of_cons in Hp as [->|Hp]; [|auto].
    simpl in Hnone. congruence.
  - intros Hstd. unfold ldb_setup_wellknown_attributes.
    destruct (setup_attributes_spec wellknown l Hs Hstd eq_refl Hfix)
      as (Hret & Hs' & _ & Hnames).
    split; [done|]. split; [done|]. intros attr syn Hp.
    destruct (Hnames _ Hp) as (s & Hsyn & [i Hi]%list_elem_of_lookup).
    exists s. split; [done|]. unfold resolve.
    rewrite (by_name_finds _ attr i _ Hs' Hi) by apply ldb_attr_cmp_refl. done.
Qed.
End Seeding.

Lemma setup_wellknown_attributes_resolve_witness :
  fst (ldb_setup_wellknown_attributes Sample.standard_syntax {| attributes := [] |})
  = LDB_SUCCESS /\
  resolve Sample.schema "distinguishedName"
  = Some {| attr_name := "distinguishedName"; attr_flags := 0;
            attr_syntax :=
              {| syntax_name := LDB_SYNTAX_DN;
                 ldif_read_fn := ldb_handler_copy;
                 ldif_write_fn := ldb_handler_copy;
                 canonicalise_fn := ldb_handler_copy;
                 comparison_fn := ldb_comparison_binary |} |}.
Proof.
  destruct (setup_wellknown_attributes_resolve Sample.standard_syntax
              {| attributes := [] |}) as [_ Hok].
  - intros i j a b _ Hi. done.
  - intros a p Ha. by apply elem_of_nil in Ha.
  - destruct Hok as (Hret & _ & Hres).
    + intros [attr syn] Hp. repeat (apply elem_of_cons in Hp as [[= -> ->]|Hp]; [by eexists|]).
      by apply elem_of_nil in Hp.
    + split; [exact Hret|].
      destruct (Hres "distinguishedName" LDB_SYNTAX_DN) as (s & Hs & Hr).
      * apply list_elem_of_further, list_elem_of_here.
      * injection Hs as <-. exact Hr.
Defined.

(** * More about the backend *)

Section Keys.
Context {tdb_data : Type} {C : ltdb_collaborators tdb_data}.

Lemma string_append_inj_r p a b : String.append p a = String.append p b -> a = b.
Proof. induction p as [|c p IH]; simpl; [done|]. intros [= H]. auto. Qed.

Lemma string_append_inj_l a b z :
  String.append a (String z EmptyString) = String.append b (String z EmptyString) ->
  a = b.
Proof.
  revert b. induction a as [|c a IH]; intros [|d b]; simpl; try done.
  - intros [= _ H]. by destruct b.
  - intros [= _ H]. by destruct a.
  - intros [= -> H]. f_equal. auto.
Qed.

Lemma record_key_inj a b : record_key a = record_key b -> a = b.
Proof. unfold record_key. intros H%string_append_inj_r. by eapply string_append_inj_l. Qed.

(** X11. Two DNs address the same record exactly when the DN library
    folds them to the same string: [ltdb_key] is injective on the
    folded form (the "DN=" prefix and the trailing NUL lose nothing). *)
Theorem ltdb_key_same_record (dn1 dn2 : ldb_dn) :
  ltdb_key dn1 = ltdb_key dn2 <-> ldb_dn_get_casefold dn1 = ldb_dn_get_casefold dn2.
Proof.
  unfold ltdb_key.
  destruct (ldb_dn_get_casefold dn1), (ldb_dn_get_casefold dn2); split; try done.
  - intros H. f_equal. apply record_key_inj. congruence.
  - by intros [= ->].
Qed.

(** X12. [ltdb_check_special_dn] only ever returns success or
    invalid-attribute-syntax, and the latter exactly when the message is
    for @ATTRIBUTES and one of its values fails
    [ltdb_check_at_attributes_values]. *)
Theorem check_special_dn_result (msg : ldb_message) :
  (ltdb_check_special_dn msg = LDB_ERR_INVALID_ATTRIBUTE_SYNTAX <->
     msg_dn msg = LTDB_ATTRIBUTES /\
     exists el v, el ∈ msg_elements msg /\ v ∈ el_values el /\
                  ltdb_check_at_attributes_values v <> 0) /\
  (ltdb_check_special_dn msg = LDB_SUCCESS \/
   ltdb_check_special_dn msg = LDB_ERR_INVALID_ATTRIBUTE_SYNTAX).
Proof.
  unfold ltdb_check_special_dn, ldb_dn_check_special.
  destruct (ldb_dn_is_special (msg_dn msg)) eqn:Hsp; cbn [negb orb andb].
  2:{ split; [|by left]. split; [done|]. intros [Hdn _]. by rewrite Hdn in Hsp. }
  destruct (String.eqb_spec (msg_dn msg) LTDB_ATTRIBUTES) as [Hdn|Hdn]; cbn [negb].
  2:{ split; [|by left]. split; [done|]. by intros [? _]. }
  destruct (existsb _ (msg_elements msg)) eqn:E.
  - split; [|by right]. split; [|done]. intros _. split; [done|].
    apply existsb_exists in E as (el & Hel & (v & Hv & Hbad)%existsb_exists).
    apply list_elem_of_In in Hel, Hv. apply negb_true_iff, Z.eqb_neq in Hbad.
    by exists el, v.
  - split; [|by left]. split; [done|]. intros [_ (el & v & Hel & Hv & Hbad)]. exfalso.
    assert (existsb (fun el => existsb (fun v =>
              negb (ltdb_check_at_attributes_values v =? 0)) (el_values el))
              (msg_elements msg) = true); [|congruence].
    apply existsb_exists. exists el. split; [by apply list_elem_of_In|].
    apply existsb_exists. exists v. split; [by apply list_elem_of_In|].
    by apply negb_true_iff, Z.eqb_neq.
Qed.

End Keys.

(** ** Records the collaborators leave alone *)

Section Leaves.
Context {tdb_data : Type} {C : ltdb_collaborators tdb_data}.
Implicit Types s : ldb_module tdb_data.
Variable k : string.
Hypothesis del_value_leaves :
  forall dn el j, leaves_record (ltdb_index_del_value dn el j) k.

Lemma index_del_values_leaves dn el from count :
  leaves_record (index_del_values dn el from count) k.
Proof.
  revert from. induction count as [|count IH]; intros from s; [done|].
  cbn [index_del_values]. unfold op_bind.
  pose proof (del_value_leaves dn el from s) as Hk.
  destruct (ltdb_index_del_value dn el from s) as [r s1]. simpl in Hk.
  by rewrite IH.
Qed.

Lemma delete_attribute_loop_leaves dn name els :
  leaves_record (delete_attribute_loop dn name els) k.
Proof.
  induction els as [|e rest IH]; intros s; [done|].
  cbn [delete_attribute_loop]. destruct (ldb_attr_cmp (el_name e) name =? 0).
  - unfold op_bind.
    pose proof (index_del_values_leaves dn e 0 (length (el_values e)) s) as Hk.
    destruct (index_del_values dn e 0 (length (el_values e)) s) as [u s1].
    simpl in Hk. by rewrite IH.
  - unfold op_bind. specialize (IH s).
    by destruct (delete_attribute_loop dn name rest s) as [kept s1].
Qed.

Lemma msg_delete_attribute_leaves msg name :
  leaves_record (msg_delete_attribute msg name) k.
Proof.
  intros s. unfold msg_delete_attribute, ldb_dn_get_linearized, op_bind.
  pose proof (delete_attribute_loop_leaves (msg_dn msg) name (msg_elements msg) s) as H.
  by destruct (delete_attribute_loop (msg_dn msg) name (msg_elements msg) s).
Qed.

Lemma msg_delete_element_leaves msg name val s r s' :
  msg_delete_element msg name val s = Some (r, s') ->
  tdb s' !! k = tdb s !! k.
Proof.
  unfold msg_delete_element. intros H.
  repeat case_match; simplify_eq; try done.
  match goal with
  | H : msg_delete_attribute ?m ?n ?s0 = _ |- _ =>
      pose proof (msg_delete_attribute_leaves m n s0) as Hk; by rewrite H in Hk
  end.
Qed.

Lemma delete_values_leaves dn el vs : forall j msg2 s r s',
  delete_values dn el j vs msg2 s = Some (r, s') ->
  tdb s' !! k = tdb s !! k.
Proof.
  induction vs as [|v rest IH]; intros j msg2 s r s'; cbn [delete_values].
  { by intros [= <- <-]. }
  destruct (msg_delete_element msg2 (el_name el) v s) as [[[r1 m1] s1]|] eqn:Hdel; [|done].
  apply msg_delete_element_leaves in Hdel.
  destruct (negb (r1 =? 0)); [intros [= <- <-]; done|].
  pose proof (del_value_leaves dn el j s1) as Hk.
  destruct (ltdb_index_del_value dn el j s1) as [ret s2]. simpl in Hk.
  destruct (negb (ret =? LDB_SUCCESS)); [intros [= <- <-]; congruence|].
  intros H. apply IH in H. congruence.
Qed.

Lemma modify_element_leaves dn el msg2 s r s' :
  modify_element dn el msg2 s = Some (r, s') ->
  tdb s' !! k = tdb s !! k.
Proof.
  unfold modify_element, msg_add_element, ldb_dn_get_linearized.
  repeat case_match; intros; simplify_eq; try done;
    try match goal with
    | H : msg_delete_attribute ?m ?n ?s0 = _ |- _ =>
        pose proof (msg_delete_attribute_leaves m n s0) as Hk; by rewrite H in Hk
    end.
  by eapply delete_values_leaves.
Qed.

Lemma modify_elements_leaves dn els : forall msg2 s r s',
  modify_elements dn els msg2 s = Some (r, s') ->
  tdb s' !! k = tdb s !! k.
Proof.
  induction els as [|el rest IH]; intros msg2 s r s'; cbn [modify_elements].
  { by intros [= <- <-]. }
  destruct (modify_element dn el msg2 s) as [[[r1 m1] s1]|] eqn:Hel; [|done].
  apply modify_element_leaves in Hel.
  destruct (negb (r1 =? LDB_SUCCESS)); [intros [= <- <-]; done|].
  intros H. apply IH in H. congruence.
Qed.
End Leaves.

Section RoundTrip.
Context {tdb_data : Type} {C : ltdb_collaborators tdb_data}.
Implicit Types s : ldb_module tdb_data.
Variable primary : string -> Prop.
Hypothesis HC : store_contract primary.

Lemma ltdb_modified_leaves dn k :
  primary k -> leaves_record (ltdb_modified dn) k.
Proof.
  intros Hk s. unfold ltdb_modified, op_bind.
  destruct (ldb_dn_is_special dn &&
            (ldb_dn_check_special dn LTDB_INDEXLIST
             || ldb_dn_check_special dn LTDB_ATTRIBUTES)).
  - pose proof (reindex_leaves _ HC k Hk s) as Hre.
    destruct (ltdb_reindex s) as [ret s1]. simpl in Hre.
    destruct (_ && _); [|done]. rewrite <- Hre. apply (tracker_leaves _ HC k Hk).
  - unfold op_ret. destruct (_ && _); [|done]. apply (tracker_leaves _ HC k Hk).
Qed.

Lemma tdb_store_result (t t' : gmap string tdb_data) key data flgs :
  tdb_store t key data flgs = inr t' -> t' = <[key := data]> t.
Proof. unfold tdb_store. intros H. by destruct flgs, (t !! key); simplify_eq. Qed.

Lemma ltdb_store_success msg flgs s s' key :
  ltdb_key (msg_dn msg) = Some key ->
  ltdb_store msg flgs s = (LDB_SUCCESS, s') ->
  exists data t,
    ltdb_pack_data msg = Some data /\
    tdb_store (tdb s) key data flgs = inr t /\
    ltdb_index_add msg (set_tdb s t) = (LDB_SUCCESS, s').
Proof.
  unfold ltdb_store. intros ->.
  destruct (ltdb_pack_data msg) as [data|]; [|intros [= ? ?]; done].
  destruct (tdb_store (tdb s) key data flgs) as [e|t] eqn:Hstore.
  { unfold tdb_store in Hstore. intros [= He _].
    destruct flgs, (tdb s !! key); by simplify_eq. }
  destruct (ltdb_index_add msg (set_tdb s t)) as [ret s1] eqn:Hidx.
  destruct (Z.eqb_spec ret LDB_SUCCESS) as [->|Hne].
  - intros [= <-]. by exists data, t.
  - intros [= ? ?]. done.
Qed.

Lemma ltdb_store_stored msg flgs s s' key :
  primary key ->
  ltdb_key (msg_dn msg) = Some key ->
  ltdb_store msg flgs s = (LDB_SUCCESS, s') ->
  (exists data, tdb s' !! key = Some data /\
                ltdb_unpack_data data = Some (msg_elements msg)) /\
  forall k, primary k -> k <> key -> tdb s' !! k = tdb s !! k.
Proof.
  intros Hp Hkey (data & t & Hpack & Hstore & Hidx)%(ltdb_store_success _ _ _ _ key);
    [|done].
  apply tdb_store_result in Hstore as ->. split.
  - exists data. split; [|by apply (unpack_inverts_pack _ HC)].
    pose proof (index_add_leaves_record _ HC key msg Hp (set_tdb s (<[key:=data]> (tdb s))))
      as Hl.
    rewrite Hidx in Hl. simpl in Hl. by rewrite Hl, lookup_insert_eq.
  - intros k Hk Hne.
    pose proof (index_add_leaves_record _ HC k msg Hk (set_tdb s (<[key:=data]> (tdb s))))
      as Hl.
    rewrite Hidx in Hl. simpl in Hl. by rewrite Hl, lookup_insert_ne.
Qed.

Lemma search_stored dn s key data els :
  ltdb_key dn = Some key -> tdb s !! key = Some data ->
  ltdb_unpack_data data = Some els ->
  ltdb_search_dn1 dn s = inr {| msg_dn := dn; msg_elements := els |}.
Proof.
  intros Hkey Hrec Hun. unfold ltdb_search_dn1, tdb_fetch.
  by rewrite Hkey, Hrec, Hun.
Qed.

Lemma search_missing dn s key :
  ltdb_key dn = Some key -> tdb s !! key = None ->
  ltdb_search_dn1 dn s = inl LDB_ERR_NO_SUCH_OBJECT.
Proof.
  intros Hkey Hrec. unfold ltdb_search_dn1, tdb_fetch. by rewrite Hkey, Hrec.
Qed.


Lemma ltdb_add_internal_success msg s s' :
  ltdb_add_internal msg s = (LDB_SUCCESS, s') ->
  exists s0 s1 s2,
    ltdb_cache_load s = (0, s0) /\
    ltdb_store msg TDB_INSERT s0 = (LDB_SUCCESS, s1) /\
    ltdb_index_one msg 1 s1 = (LDB_SUCCESS, s2) /\
    ltdb_modified (msg_dn msg) s2 = (LDB_SUCCESS, s').
Proof.
  unfold ltdb_add_internal.
  destruct (Z.eqb_spec (ltdb_check_special_dn msg) LDB_SUCCESS) as [_|?];
    [|unfold op_ret; intros [= ? ?]; done].
  cbn [negb]. unfold op_bind at 1.
  destruct (ltdb_cache_load s) as [r s0] eqn:Hload.
  destruct (Z.eqb_spec r 0) as [->|?]; [|unfold op_ret; intros [= ? ?]; done].
  cbn [negb]. unfold op_bind at 1.
  destruct (ltdb_store msg TDB_INSERT s0) as [ret s1] eqn:Hstore.
  destruct (Z.eqb_spec ret LDB_ERR_ENTRY_ALREADY_EXISTS) as [->|_];
    [unfold op_ret; intros [= ? ?]; done|].
  destruct (Z.eqb_spec ret LDB_SUCCESS) as [->|?];
    [|unfold op_ret; intros [= ? ?]; done].
  intros (s2 & Hone & Hmod)%op_check_success. by exists s0, s1, s2.
Qed.

Lemma ltdb_add_internal_stored msg s s' key :
  ltdb_key (msg_dn msg) = Some key -> primary key ->
  ltdb_add_internal msg s = (LDB_SUCCESS, s') ->
  tdb s !! key = None /\
  (exists data, tdb s' !! key = Some data /\
                ltdb_unpack_data data = Some (msg_elements msg)) /\
  forall k, primary k -> k <> key -> tdb s' !! k = tdb s !! k.
Proof.
  intros Hkey Hp (s0 & s1 & s2 & Hload & Hstore & Hone & Hmod)%ltdb_add_internal_success.
  assert (Hl0 : forall k, primary k -> tdb s0 !! k = tdb s !! k).
  { intros k Hk. pose proof (cache_load_leaves _ HC k Hk s) as H. by rewrite Hload in H. }
  assert (Hl2 : forall k, primary k -> tdb s2 !! k = tdb s1 !! k).
  { intros k Hk. pose proof (index_one_leaves _ HC k msg 1 Hk s1) as H.
    by rewrite Hone in H. }
  assert (Hl3 : forall k, primary k -> tdb s' !! k = tdb s2 !! k).
  { intros k Hk. pose proof (ltdb_modified_leaves (msg_dn msg) k Hk s2) as H.
    by rewrite Hmod in H. }
  destruct (ltdb_store_stored msg TDB_INSERT s0 s1 key Hp Hkey Hstore)
    as [(data & Hrec & Hun) Hother].
  split; [|split].
  - rewrite <- Hl0 by done.
    apply (ltdb_store_success _ _ _ _ key) in Hstore as (d & t & _ & Ht & _); [|done].
    unfold tdb_store in Ht. by destruct (tdb s0 !! key).
  - exists data. split; [|done]. by rewrite Hl3, Hl2.
  - intros k Hk Hne. by rewrite Hl3, Hl2, Hother, Hl0.
Qed.


(** X15. [ltdb_add_internal] on a DN whose record is there after the
    cache load fails with entry-already-exists, and the module is what
    the cache load left: nothing is stored, indexed or counted as a
    modification. *)
Theorem add_existing_entry
    (msg : ldb_message) (s : ldb_module tdb_data) (key : string) :
  ltdb_key (msg_dn msg) = Some key ->
  ltdb_check_special_dn msg = LDB_SUCCESS ->
  fst (ltdb_cache_load s) = 0 ->
  is_Some (ltdb_pack_data msg) ->
  is_Some (tdb (snd (ltdb_cache_load s)) !! key) ->
  ltdb_add_internal msg s = (LDB_ERR_ENTRY_ALREADY_EXISTS, snd (ltdb_cache_load s)).
Proof.
  intros Hkey Hcheck Hload [data Hpack] [old Hold].
  unfold ltdb_add_internal. rewrite Hcheck. cbn [Z.eqb LDB_SUCCESS negb].
  unfold op_bind at 1. destruct (ltdb_cache_load s) as [r s0]. simpl in *. subst r.
  cbn [Z.eqb negb]. unfold op_bind, ltdb_store, tdb_store.
  by rewrite Hkey, Hpack, Hold.
Qed.

Lemma ltdb_delete_internal_success dn s s' :
  ltdb_delete_internal dn s = (LDB_SUCCESS, s') ->
  exists msg s1 s2 s3,
    ltdb_search_dn1 dn s = inr msg /\
    ltdb_delete_noindex dn s = (LDB_SUCCESS, s1) /\
    ltdb_index_one msg 0 s1 = (LDB_SUCCESS, s2) /\
    ltdb_index_del msg s2 = (LDB_SUCCESS, s3) /\
    ltdb_modified dn s3 = (LDB_SUCCESS, s').
Proof.
  unfold ltdb_delete_internal.
  destruct (ltdb_search_dn1 dn s) as [e|msg] eqn:Hsearch.
  { intros [= -> <-]. unfold ltdb_search_dn1, tdb_fetch in Hsearch.
    repeat case_match; simplify_eq. }
  intros (s1 & Hdel & (s2 & Hone & (s3 & Hidx & Hmod)%op_check_success)%op_check_success)%op_check_success.
  by exists msg, s1, s2, s3.
Qed.

Lemma ltdb_delete_internal_removed dn s s' key :
  ltdb_key dn = Some key -> primary key ->
  ltdb_delete_internal dn s = (LDB_SUCCESS, s') ->
  (exists data els, tdb s !! key = Some data /\ ltdb_unpack_data data = Some els) /\
  tdb s' !! key = None /\
  forall k, primary k -> k <> key -> tdb s' !! k = tdb s !! k.
Proof.
  intros Hkey Hp (msg & s1 & s2 & s3 & Hsearch & Hdel & Hone & Hidx & Hmod)%ltdb_delete_internal_success.
  assert (Hl2 : forall k, primary k -> tdb s2 !! k = tdb s1 !! k).
  { intros k Hk. pose proof (index_one_leaves _ HC k msg 0 Hk s1) as H.
    by rewrite Hone in H. }
  assert (Hl3 : forall k, primary k -> tdb s3 !! k = tdb s2 !! k).
  { intros k Hk. pose proof (index_del_leaves _ HC k msg Hk s2) as H.
    by rewrite Hidx in H. }
  assert (Hl4 : forall k, primary k -> tdb s' !! k = tdb s3 !! k).
  { intros k Hk. pose proof (ltdb_modified_leaves dn k Hk s3) as H.
    by rewrite Hmod in H. }
  unfold ltdb_delete_noindex, tdb_delete in Hdel. rewrite Hkey in Hdel.
  unfold ltdb_search_dn1, tdb_fetch in Hsearch. rewrite Hkey in Hsearch.
  destruct (tdb s !! key) as [old|] eqn:Hold; [|by simplify_eq].
  destruct (ltdb_unpack_data old) as [els|] eqn:Hun; [|done].
  injection Hdel as <-. split; [by exists old, els|]. split.
  - rewrite Hl4, Hl3, Hl2 by done. simpl. apply lookup_delete_eq.
  - intros k Hk Hne. rewrite Hl4, Hl3, Hl2 by done. simpl. by apply lookup_delete_ne.
Qed.

(** X16. Under the store contract, after a successful
    [ltdb_delete_internal] the DN had a record before, a search by DN
    now reports no-such-object, and every other primary record is as
    before. *)
Theorem delete_then_search
    (dn : ldb_dn) (s s' : ldb_module tdb_data) (key : string) :
  ltdb_key dn = Some key -> primary key ->
  ltdb_delete_internal dn s = (LDB_SUCCESS, s') ->
  is_Some (tdb s !! key) /\
  ltdb_search_dn1 dn s' = inl LDB_ERR_NO_SUCH_OBJECT /\
  forall k, primary k -> k <> key -> tdb s' !! k = tdb s !! k.
Proof.
  intros Hkey Hp Hdel.
  destruct (ltdb_delete_internal_removed dn s s' key Hkey Hp Hdel)
    as ((data & els & Hrec & _) & Hgone & Hother).
  split; [by eexists|]. split; [|done]. by apply (search_missing dn s' key).
Qed.

End RoundTrip.

(** The sample directory honours the store contract: its tracker writes
    @BASEINFO only, and nothing is indexed. *)
Lemma sample_store_contract :
  store_contract (C := Sample.collaborators) (fun k => k <> Sample.baseinfo_key).
Proof.
  split; try done.
  intros k Hk s.
  cbn [ltdb_increase_sequence_number Sample.collaborators Sample.collaborators_with].
  unfold Sample.increase_sequence_number.
  destruct (tdb s !! Sample.baseinfo_key); [|done].
  cbn [snd set_tdb tdb]. by rewrite lookup_insert_ne.
Qed.



(** X15 on the sample directory: cn=X is cn=x, already there. *)
Lemma add_existing_entry_witness :
  ltdb_add_internal {| msg_dn := "cn=X"; msg_elements := [] |} Sample.directory
  = (LDB_ERR_ENTRY_ALREADY_EXISTS, snd (ltdb_cache_load Sample.directory)).
Proof.
  apply (add_existing_entry {| msg_dn := "cn=X"; msg_elements := [] |}
           Sample.directory Sample.cn_x_key); try reflexivity.
  - by eexists.
  - vm_compute. by eexists.
Defined.

(** X16 on the sample directory: cn=x is deleted. *)
Lemma delete_then_search_witness :
  is_Some (tdb Sample.directory !! Sample.cn_x_key) /\
  ltdb_search_dn1 "cn=x" (snd (ltdb_delete_internal "cn=x" Sample.directory))
  = inl LDB_ERR_NO_SUCH_OBJECT.
Proof.
  pose proof (delete_then_search (fun k => k <> Sample.baseinfo_key) sample_store_contract
                "cn=x" Sample.directory _ Sample.cn_x_key eq_refl
                ltac:(vm_compute; discriminate) eq_refl) as (Hold & Hs & _).
  split; [exact Hold|exact Hs].
Defined.

(** ** The modify loop *)

Section ModifyLoop.
Context {tdb_data : Type} {C : ltdb_collaborators tdb_data}.
Implicit Types s : ldb_module tdb_data.

Lemma modify_elements_app dn els1 els2 : forall msg2 s,
  modify_elements dn (els1 ++ els2) msg2 s =
    match modify_elements dn els1 msg2 s with
    | None => None
    | Some ((ret, m), s1) =>
        if negb (ret =? LDB_SUCCESS) then Some ((ret, m), s1)
        else modify_elements dn els2 m s1
    end.
Proof.
  induction els1 as [|el rest IH]; intros msg2 s; [done|].
  cbn [app modify_elements].
  destruct (modify_element dn el msg2 s) as [[[r1 m1] s1]|]; [|done].
  destruct (negb (r1 =? LDB_SUCCESS)) eqn:E; [by rewrite E|]. apply IH.
Qed.

(** X17. The modify loop stops at the first element that fails: it
    ends with the code [ret] other than success exactly when the
    request splits into elements that were all applied, an element
    whose turn ends with [ret], and elements never looked at. *)
Theorem modify_stops_at_first_failure
    (dn : ldb_dn) (els : list ldb_message_element) (msg2 m : ldb_message)
    (s s' : ldb_module tdb_data) (ret : Z) :
  ret <> LDB_SUCCESS ->
  modify_elements dn els msg2 s = Some ((ret, m), s') <->
  exists pre el rest m0 s0,
    els = pre ++ el :: rest /\
    modify_elements dn pre msg2 s = Some ((LDB_SUCCESS, m0), s0) /\
    modify_element dn el m0 s0 = Some ((ret, m), s').
Proof.
  intros Hret. split.
  - revert msg2 s. induction els as [|el rest IH]; intros msg2 s; cbn [modify_elements].
    { intros [= ? ? ?]. by subst. }
    destruct (modify_element dn el msg2 s) as [[[r1 m1] s1]|] eqn:Hel; [|done].
    destruct (Z.eqb_spec r1 LDB_SUCCESS) as [->|Hr1]; cbn [negb].
    + intros (pre & el' & rest' & m0 & s0 & -> & Hpre & Hlast)%IH.
      exists (el :: pre), el', rest', m0, s0. split; [done|]. split; [|done].
      cbn [modify_elements]. by rewrite Hel.
    + intros [= -> -> ->]. by exists [], el, rest, msg2, s.
  - intros (pre & el & rest & m0 & s0 & -> & Hpre & Hlast).
    rewrite modify_elements_app, Hpre. cbn [Z.eqb LDB_SUCCESS negb modify_elements].
    rewrite Hlast. by destruct (Z.eqb_spec ret LDB_SUCCESS).
Qed.

(** X18. An element that carries none of the tags ADD, REPLACE and
    DELETE makes [ltdb_modify_internal] fail with protocol-error once
    the elements before it have been applied; the record is not
    written back. *)
Theorem modify_untagged_element
    (dn : ldb_dn) (pre rest : list ldb_message_element) (el : ldb_message_element)
    (s s0 : ldb_module tdb_data) (key : string) (data : tdb_data)
    (els2 : list ldb_message_element) (m0 : ldb_message) :
  Z.land (el_flags el) LDB_FLAG_MOD_MASK = 0 ->
  ltdb_key dn = Some key -> tdb s !! key = Some data ->
  ltdb_unpack_data data = Some els2 ->
  modify_elements dn pre {| msg_dn := dn; msg_elements := els2 |} s
    = Some ((LDB_SUCCESS, m0), s0) ->
  ltdb_modify_internal {| msg_dn := dn; msg_elements := pre ++ el :: rest |} s
    = Some (LDB_ERR_PROTOCOL_ERROR, s0).
Proof.
  intros Hflag Hkey Hrec Hun Hpre.
  unfold ltdb_modify_internal, tdb_fetch. cbn [msg_dn msg_elements].
  rewrite Hkey, Hrec, Hun, modify_elements_app, Hpre.
  cbn [Z.eqb LDB_SUCCESS negb modify_elements].
  unfold modify_element. rewrite Hflag. done.
Qed.

(** The REPLACE loop rejects exactly when two of the values compare
    equal. *)
Lemma add_rejected_no_values l el2 el vs : forall j,
  el_values el2 = [] -> is_Some (attr_comparison l (el_name el2)) ->
  add_rejected l el2 el j vs = provided_more_than_once l el j vs.
Proof.
  intros j Hnil [cmp2 Hc2]. revert j.
  induction vs as [|v rest IH]; intros j; [done|].
  cbn [add_rejected provided_more_than_once]. unfold ldb_msg_find_val at 1.
  rewrite Hc2, Hnil. cbn. destruct (ldb_msg_find_val l el v); [|done].
  case_bool_decide; [apply IH|done].
Qed.

Lemma provided_more_than_once_spec l el cmp :
  attr_comparison l (el_name el) = Some cmp -> reflexive_comparison cmp ->
  (has_duplicate cmp (el_values el) ->
     provided_more_than_once l el 0 (el_values el) = Some true) /\
  (~ has_duplicate cmp (el_values el) ->
     provided_more_than_once l el 0 (el_values el) = Some false).
Proof.
  intros Hc Hrefl.
  rewrite <- (add_rejected_no_values l (set_values el []) el (el_values el) 0 eq_refl)
    by (simpl; by eexists).
  destruct (add_rejected_spec l (set_values el []) el cmp cmp Hc Hc Hrefl
              (el_values el) [] eq_refl) as [Hyes Hno].
  simpl in Hyes, Hno. split.
  - intros Hd. apply Hyes. right. by apply has_duplicate_from_start in Hd.
  - intros Hnd. apply Hno. intros [(v & w & _ & Hw & _)|Hd].
    + by apply elem_of_nil in Hw.
    + by apply Hnd, has_duplicate_from_start.
Qed.

Lemma find_element_filtered els name dn :
  find_element
    {| msg_dn := dn;
       msg_elements := filter (fun e => ldb_attr_cmp (el_name e) name <> 0) els |}
    name = None.
Proof.
  unfold find_element. cbn [msg_elements].
  destruct (list_find _ _) as [[i e]|] eqn:E; [|done].
  apply list_find_Some in E as (Hi & He & _).
  apply list_elem_of_lookup_2, list_elem_of_filter in Hi as [Hne _]. done.
Qed.

(** X19. A REPLACE turn, the attribute's comparison function being
    reflexive, first drops every element with the name. If two of the
    new values compare equal it fails with attribute-or-value-exists.
    Otherwise with no values it leaves the attribute absent, and with
    values it appends the request's element, which is then the only
    element of that name. An absent attribute is no error. *)
Theorem modify_replace
    (dn : ldb_dn) (el : ldb_message_element) (msg2 : ldb_message)
    (s : ldb_module tdb_data) (cmp : ldb_val -> ldb_val -> Z) :
  Z.land (el_flags el) LDB_FLAG_MOD_MASK = LDB_FLAG_MOD_REPLACE ->
  let s' := snd (msg_delete_attribute msg2 (el_name el) s) in
  let kept := filter (fun e => ldb_attr_cmp (el_name e) (el_name el) <> 0)
                (msg_elements msg2) in
  attr_comparison (ldb s') (el_name el) = Some cmp ->
  reflexive_comparison cmp ->
  (has_duplicate cmp (el_values el) ->
     modify_element dn el msg2 s
     = Some ((LDB_ERR_ATTRIBUTE_OR_VALUE_EXISTS, set_elements msg2 kept), s')) /\
  (~ has_duplicate cmp (el_values el) ->
     (el_values el = [] ->
        modify_element dn el msg2 s = Some ((LDB_SUCCESS, set_elements msg2 kept), s') /\
        find_element (set_elements msg2 kept) (el_name el) = None) /\
     (el_values el <> [] ->
        modify_element dn el msg2 s
        = Some ((LDB_SUCCESS, set_elements msg2 (kept ++ [el])), s') /\
        find_element (set_elements msg2 (kept ++ [el])) (el_name el)
        = Some (length kept))).
Proof.
  intros Hflag s' kept Hc Hrefl.
  destruct (provided_more_than_once_spec (ldb s') el cmp Hc Hrefl) as [Hyes Hno].
  assert (Hstep : forall b, provided_more_than_once (ldb s') el 0 (el_values el) = Some b ->
            modify_element dn el msg2 s =
              if b then Some ((LDB_ERR_ATTRIBUTE_OR_VALUE_EXISTS, set_elements msg2 kept), s')
              else if negb (Nat.eqb (length (el_values el)) 0)
                   then Some ((LDB_SUCCESS, set_elements msg2 (kept ++ [el])), s')
                   else Some ((LDB_SUCCESS, set_elements msg2 kept), s')).
  { intros b Hb. unfold modify_element. rewrite Hflag.
    change (LDB_FLAG_MOD_REPLACE =? LDB_FLAG_MOD_ADD) with false.
    change (LDB_FLAG_MOD_REPLACE =? LDB_FLAG_MOD_REPLACE) with true. cbv iota.
    pose proof (msg_delete_attribute_result msg2 (el_name el) s) as Hres.
    subst s'. destruct (msg_delete_attribute msg2 (el_name el) s) as [[r m] s1].
    simpl in Hres, Hb |- *. injection Hres as -> ->. rewrite Hb.
    destruct b; [done|]. destruct (negb _); [|done].
    unfold msg_add_element, set_elements. cbn. by destruct el. }
  split.
  - intros Hd. by rewrite (Hstep true (Hyes Hd)).
  - intros Hnd. rewrite (Hstep false (Hno Hnd)). split.
    + intros ->. split; [done|]. apply find_element_filtered.
    + intros Hne. destruct (el_values el) eqn:Hv; [done|]. split; [done|].
      unfold find_element, set_elements. cbn [msg_elements].
      assert (Hfind : list_find (fun e => ldb_attr_cmp (el_name e) (el_name el) = 0)
                        (kept ++ [el]) = Some (length kept, el)).
      { apply list_find_Some. split; [|split].
        - by rewrite list_lookup_middle.
        - apply ldb_attr_cmp_refl.
        - intros j e Hj Hlt. rewrite lookup_app_l in Hj by done.
          apply list_elem_of_lookup_2, list_elem_of_filter in Hj as [Hn _]. done. }
      by rewrite Hfind.
Qed.

(** X20. A DELETE turn that lists values fails with
    no-such-attribute, the working record and the module untouched,
    when the record has no element of that name or when none of the
    values of the first such element compares equal to the first
    listed value. *)
Theorem modify_delete_missing_value
    (dn : ldb_dn) (el : ldb_message_element) (msg2 : ldb_message)
    (s : ldb_module tdb_data) (v : ldb_val) (vs : list ldb_val) :
  Z.land (el_flags el) LDB_FLAG_MOD_MASK = LDB_FLAG_MOD_DELETE ->
  el_values el = v :: vs ->
  (find_element msg2 (el_name el) = None \/
   exists idx el2 cmp,
     find_element msg2 (el_name el) = Some idx /\
     msg_elements msg2 !! idx = Some el2 /\
     attr_comparison (ldb s) (el_name el2) = Some cmp /\
     Forall (fun w => cmp w v <> 0) (el_values el2)) ->
  modify_element dn el msg2 s = Some ((LDB_ERR_NO_SUCH_ATTRIBUTE, msg2), s).
Proof.
  intros Hflag Hv Hmiss. unfold modify_element. rewrite Hflag, Hv.
  change (LDB_FLAG_MOD_DELETE =? LDB_FLAG_MOD_ADD) with false.
  change (LDB_FLAG_MOD_DELETE =? LDB_FLAG_MOD_REPLACE) with false.
  change (LDB_FLAG_MOD_DELETE =? LDB_FLAG_MOD_DELETE) with true.
  cbn [ldb_dn_get_linearized length Nat.eqb delete_values].
  unfold msg_delete_element.
  destruct Hmiss as [->|(idx & el2 & cmp & -> & -> & -> & Hall)]; [done|].
  assert (Hnone : list_find (fun w => cmp w v = 0) (el_values el2) = None)
    by (by apply list_find_None).
  by rewrite Hnone.
Qed.

End ModifyLoop.

(** ** Modify and the stored record *)

Section ModifyRecord.
Context {tdb_data : Type} {C : ltdb_collaborators tdb_data}.
Implicit Types s : ldb_module tdb_data.
Variable primary : string -> Prop.
Hypothesis HC : store_contract primary.

Lemma ltdb_modify_internal_loop msg s key data els2 :
  ltdb_key (msg_dn msg) = Some key -> tdb s !! key = Some data ->
  ltdb_unpack_data data = Some els2 ->
  ltdb_modify_internal msg s =
    match modify_elements (msg_dn msg) (msg_elements msg)
            {| msg_dn := msg_dn msg; msg_elements := els2 |} s with
    | None => None
    | Some ((ret, msg2'), s') =>
        if negb (ret =? LDB_SUCCESS) then Some (ret, s')
        else Some (op_check (ltdb_store msg2' TDB_MODIFY) (ltdb_modified (msg_dn msg)) s')
    end.
Proof.
  intros Hkey Hrec Hun. unfold ltdb_modify_internal, tdb_fetch.
  by rewrite Hkey, Hrec, Hun.
Qed.

(** X21. Under the store contract, a modify whose loop fails returns
    the loop's code without writing back: the module is what the loop
    left, and every primary record, the entry's own included, is as it
    was before the call. *)
Theorem failed_modify_keeps_records
    (msg : ldb_message) (s s1 : ldb_module tdb_data) (key : string) (data : tdb_data)
    (els2 : list ldb_message_element) (ret : Z) (m : ldb_message) :
  ltdb_key (msg_dn msg) = Some key -> tdb s !! key = Some data ->
  ltdb_unpack_data data = Some els2 ->
  modify_elements (msg_dn msg) (msg_elements msg)
    {| msg_dn := msg_dn msg; msg_elements := els2 |} s = Some ((ret, m), s1) ->
  ret <> LDB_SUCCESS ->
  ltdb_modify_internal msg s = Some (ret, s1) /\
  forall k, primary k -> tdb s1 !! k = tdb s !! k.
Proof.
  intros Hkey Hrec Hun Hloop Hret. split.
  - rewrite (ltdb_modify_internal_loop msg s key data els2) by done.
    rewrite Hloop. by destruct (Z.eqb_spec ret LDB_SUCCESS).
  - intros k Hk. eapply (modify_elements_leaves k); [|exact Hloop].
    intros dn el j. by apply (index_del_value_leaves _ HC).
Qed.

(** X22. Under the store contract, when the modify loop succeeded but
    [ltdb_index_add] fails on the write-back, [ltdb_modify_internal]
    returns that code and the entry's record, which was there before
    the call, is gone: the roll-back of [ltdb_store] deletes the key. *)
Theorem modify_writeback_failure_loses_entry
    (msg : ldb_message) (s s1 : ldb_module tdb_data) (key : string) (data packed : tdb_data)
    (els2 : list ldb_message_element) (m : ldb_message) :
  ltdb_key (msg_dn msg) = Some key -> primary key ->
  tdb s !! key = Some data -> ltdb_unpack_data data = Some els2 ->
  modify_elements (msg_dn msg) (msg_elements msg)
    {| msg_dn := msg_dn msg; msg_elements := els2 |} s = Some ((LDB_SUCCESS, m), s1) ->
  ltdb_pack_data m = Some packed ->
  fst (ltdb_index_add m (set_tdb s1 (<[key := packed]> (tdb s1)))) <> LDB_SUCCESS ->
  exists ret s',
    ltdb_modify_internal msg s = Some (ret, s') /\
    ret = fst (ltdb_index_add m (set_tdb s1 (<[key := packed]> (tdb s1)))) /\
    tdb s' !! key = None.
Proof.
  intros Hkey Hp Hrec Hun Hloop Hpack Hidx.
  rewrite (ltdb_modify_internal_loop msg s key data els2) by done.
  rewrite Hloop. cbn [Z.eqb LDB_SUCCESS negb].
  pose proof (modify_elements_dn _ _ _ _ _ _ _ Hloop) as Hdn. simpl in Hdn.
  assert (Hthere : tdb s1 !! key = Some data).
  { rewrite <- Hrec. eapply (modify_elements_leaves key); [|exact Hloop].
    intros dn el j. by apply (index_del_value_leaves _ HC). }
  unfold op_check, op_bind, ltdb_store, tdb_store.
  rewrite Hdn, Hkey, Hpack, Hthere.
  destruct (ltdb_index_add m _) as [r s2]. simpl in Hidx |- *.
  destruct (Z.eqb_spec r LDB_SUCCESS) as [?|_]; [done|].
  destruct (Z.eqb_spec r LDB_SUCCESS) as [?|_]; [done|].
  eexists _, _. split; [reflexivity|]. split; [done|].
  rewrite tdb_delete_unchecked_lookup. by rewrite decide_True.
Qed.


End ModifyRecord.

(** X17 on cn=x: [mail] is added, then an untagged element ends the
    loop; the third element is not looked at. *)
Lemma modify_stops_at_first_failure_witness :
  modify_elements "cn=x"
    [Sample.element LDB_FLAG_MOD_ADD "mail" ["a@b"]; Sample.element 0 "sn" ["z"];
     Sample.element LDB_FLAG_MOD_ADD "ou" ["people"]]
    {| msg_dn := "cn=x";
       msg_elements := [Sample.element 0 "cn" ["x"]; Sample.element 0 "member" ["alice"]] |}
    Sample.directory
  = Some ((LDB_ERR_PROTOCOL_ERROR,
           {| msg_dn := "cn=x";
              msg_elements := [Sample.element 0 "cn" ["x"];
                               Sample.element 0 "member" ["alice"];
                               Sample.element LDB_FLAG_MOD_ADD "mail" ["a@b"]] |}),
          Sample.directory).
Proof.
  apply modify_stops_at_first_failure; [vm_compute; discriminate|].
  exists [Sample.element LDB_FLAG_MOD_ADD "mail" ["a@b"]], (Sample.element 0 "sn" ["z"]),
    [Sample.element LDB_FLAG_MOD_ADD "ou" ["people"]],
    {| msg_dn := "cn=x";
       msg_elements := [Sample.element 0 "cn" ["x"];
                        Sample.element 0 "member" ["alice"];
                        Sample.element LDB_FLAG_MOD_ADD "mail" ["a@b"]] |},
    Sample.directory.
  repeat split; reflexivity.
Defined.

(** X18 on cn=x. *)
Lemma modify_untagged_element_witness :
  ltdb_modify_internal
    {| msg_dn := "cn=x"; msg_elements := [] ++ [Sample.element 0 "sn" ["z"]] |}
    Sample.directory
  = Some (LDB_ERR_PROTOCOL_ERROR, Sample.directory).
Proof.
  exact (modify_untagged_element "cn=x" [] [] (Sample.element 0 "sn" ["z"])
           Sample.directory Sample.directory Sample.cn_x_key _ _ _
           eq_refl eq_refl eq_refl eq_refl eq_refl).
Defined.

(** X19 on cn=x: [member] is replaced by two values; the same value
    twice is refused. *)
Lemma modify_replace_witness :
  modify_element "cn=x" (Sample.element LDB_FLAG_MOD_REPLACE "member" ["bob"; "bob"])
    {| msg_dn := "cn=x";
       msg_elements := [Sample.element 0 "cn" ["x"]; Sample.element 0 "member" ["alice"]] |}
    Sample.directory
  = Some ((LDB_ERR_ATTRIBUTE_OR_VALUE_EXISTS,
           {| msg_dn := "cn=x"; msg_elements := [Sample.element 0 "cn" ["x"]] |}),
          Sample.directory) /\
  modify_element "cn=x" (Sample.element LDB_FLAG_MOD_REPLACE "member" ["bob"; "carol"])
    {| msg_dn := "cn=x";
       msg_elements := [Sample.element 0 "cn" ["x"]; Sample.element 0 "member" ["alice"]] |}
    Sample.directory
  = Some ((LDB_SUCCESS,
           {| msg_dn := "cn=x";
              msg_elements :=
                [Sample.element 0 "cn" ["x"];
                 Sample.element LDB_FLAG_MOD_REPLACE "member" ["bob"; "carol"]] |}),
          Sample.directory).
Proof.
  split.
  - refine (proj1 (modify_replace "cn=x"
              (Sample.element LDB_FLAG_MOD_REPLACE "member" ["bob"; "bob"])
              {| msg_dn := "cn=x";
                 msg_elements := [Sample.element 0 "cn" ["x"];
                                  Sample.element 0 "member" ["alice"]] |}
              Sample.directory ldb_comparison_binary eq_refl eq_refl
              ldb_comparison_binary_refl) _).
    exists 0%nat, 1%nat, "bob", "bob". split; [lia|]. repeat split.
  - refine (proj1 (proj2 (proj2 (modify_replace "cn=x"
              (Sample.element LDB_FLAG_MOD_REPLACE "member" ["bob"; "carol"])
              {| msg_dn := "cn=x";
                 msg_elements := [Sample.element 0 "cn" ["x"];
                                  Sample.element 0 "member" ["alice"]] |}
              Sample.directory ldb_comparison_binary eq_refl eq_refl
              ldb_comparison_binary_refl) _) _)).
    + intros (i & j & v & w & Hij & Hi & Hj & Hc).
      destruct j as [|[|j]]; [lia| |done].
      destruct i as [|i]; [|lia]. simpl in Hi, Hj.
      injection Hi as <-. injection Hj as <-. vm_compute in Hc. discriminate.
    + done.
Defined.

(** X20 on cn=x, which has no [mail]. *)
Lemma modify_delete_missing_value_witness :
  modify_element "cn=x" (Sample.element LDB_FLAG_MOD_DELETE "mail" ["a@b"])
    {| msg_dn := "cn=x";
       msg_elements := [Sample.element 0 "cn" ["x"]; Sample.element 0 "member" ["alice"]] |}
    Sample.directory
  = Some ((LDB_ERR_NO_SUCH_ATTRIBUTE,
           {| msg_dn := "cn=x";
              msg_elements := [Sample.element 0 "cn" ["x"];
                               Sample.element 0 "member" ["alice"]] |}),
          Sample.directory).
Proof.
  apply (modify_delete_missing_value "cn=x"
           (Sample.element LDB_FLAG_MOD_DELETE "mail" ["a@b"]) _ _ "a@b" []);
    [reflexivity|reflexivity|]. left. reflexivity.
Defined.

(** X21 on cn=x: deleting the value "bob" of [member], which holds
    "alice". *)
Lemma failed_modify_keeps_records_witness :
  ltdb_modify_internal
    {| msg_dn := "cn=x";
       msg_elements := [Sample.element LDB_FLAG_MOD_DELETE "member" ["bob"]] |}
    Sample.directory
  = Some (LDB_ERR_NO_SUCH_ATTRIBUTE, Sample.directory).
Proof.
  exact (proj1 (failed_modify_keeps_records (fun k => k <> Sample.baseinfo_key)
                  sample_store_contract
                  {| msg_dn := "cn=x";
                     msg_elements :=
                       [Sample.element LDB_FLAG_MOD_DELETE "member" ["bob"]] |}
                  Sample.directory Sample.directory Sample.cn_x_key _ _
                  LDB_ERR_NO_SUCH_ATTRIBUTE _ eq_refl eq_refl eq_refl eq_refl
                  ltac:(vm_compute; discriminate))).
Defined.

(** With the index manager that fails after writing an index record,
    the primary records are all but that one and @BASEINFO. *)
Lemma broken_index_store_contract :
  store_contract (C := Sample.broken_index)
    (fun k => k <> Sample.index_key /\ k <> Sample.baseinfo_key).
Proof.
  split; try done.
  - intros k m [Hk _] s. simpl. by rewrite lookup_insert_ne.
  - intros k [_ Hk] s.
    cbn [ltdb_increase_sequence_number Sample.broken_index Sample.collaborators_with].
    unfold Sample.increase_sequence_number.
    destruct (tdb s !! Sample.baseinfo_key); [|done].
    cbn [snd set_tdb tdb]. by rewrite lookup_insert_ne.
Qed.

(** X22 on cn=x with that index manager: adding [mail] fails and cn=x
    is gone. *)
Lemma modify_writeback_failure_loses_entry_witness :
  exists ret s',
    ltdb_modify_internal (C := Sample.broken_index)
      {| msg_dn := "cn=x";
         msg_elements := [Sample.element LDB_FLAG_MOD_ADD "mail" ["a@b"]] |}
      Sample.directory = Some (ret, s') /\
    ret = LDB_ERR_OPERATIONS_ERROR /\
    tdb s' !! Sample.cn_x_key = None.
Proof.
  exact (modify_writeback_failure_loses_entry (C := Sample.broken_index)
           (fun k => k <> Sample.index_key /\ k <> Sample.baseinfo_key)
           broken_index_store_contract
           {| msg_dn := "cn=x";
              msg_elements := [Sample.element LDB_FLAG_MOD_ADD "mail" ["a@b"]] |}
           Sample.directory Sample.directory Sample.cn_x_key _ _ _ _
           eq_refl ltac:(split; vm_compute; discriminate) eq_refl eq_refl eq_refl eq_refl
           ltac:(vm_compute; discriminate)).
Defined.


(** ** The request entry points *)

Section Requests.
Context {tdb_data : Type} {C : ltdb_collaborators tdb_data}.
Implicit Types s : ldb_module tdb_data.

Lemma critical_control_found (controls : list ldb_control) c :
  c ∈ controls -> ctrl_critical c = true -> check_critical_controls controls = true.
Proof.
  intros Hc Hcrit. unfold check_critical_controls. apply existsb_exists.
  exists c. split; [by apply list_elem_of_In|done].
Qed.

(** X24. A request that carries a control flagged critical is refused
    by add, modify, delete, rename and the generic request entry with
    unsupported-critical-extension; no handle is made and the module is
    not touched. *)
Theorem critical_control_refused (req : ldb_request) (c : ldb_control) :
  c ∈ req_controls req -> ctrl_critical c = true ->
  (forall msg s,
     ltdb_add req msg s = ((LDB_ERR_UNSUPPORTED_CRITICAL_EXTENSION, None), s)) /\
  (forall msg s,
     ltdb_modify req msg s = Some ((LDB_ERR_UNSUPPORTED_CRITICAL_EXTENSION, None), s)) /\
  (forall dn s,
     ltdb_delete req dn s = ((LDB_ERR_UNSUPPORTED_CRITICAL_EXTENSION, None), s)) /\
  (forall olddn newdn s,
     ltdb_rename req olddn newdn s
     = ((LDB_ERR_UNSUPPORTED_CRITICAL_EXTENSION, None), s)) /\
  ltdb_request req = LDB_ERR_UNSUPPORTED_CRITICAL_EXTENSION.
Proof.
  intros Hc Hcrit. pose proof (critical_control_found _ _ Hc Hcrit) as Hctl.
  unfold ltdb_add, ltdb_modify, ltdb_delete, ltdb_rename, ltdb_request.
  rewrite Hctl. done.
Qed.

Lemma finish_reported req tret : reported req tret (fst (finish req tret)) (snd (finish req tret)).
Proof.
  unfold finish, reported.
  destruct (Z.eqb_spec tret LDB_SUCCESS) as [->|Hne]; cbn [negb fst snd];
    eexists; repeat split.
Qed.

(** X25. Without a critical control, add, modify and delete report an
    internal result through the handle: the handle is done and
    [ltdb_wait] gives the internal code; on a failure the call itself
    returns success and the callback is not run, on success it returns
    what the callback returns. A rename whose old DN cannot be read
    reports that failure the same way, the module being what the cache
    load left. *)
Theorem failure_goes_to_handle (req : ldb_request) :
  check_critical_controls (req_controls req) = false ->
  (forall msg s tret s',
     ltdb_add_internal msg s = (tret, s') ->
     exists ret h, ltdb_add req msg s = ((ret, h), s') /\ reported req tret ret h) /\
  (forall msg s s0 tret s',
     ltdb_check_special_dn msg = LDB_SUCCESS -> ltdb_cache_load s = (0, s0) ->
     ltdb_modify_internal msg s0 = Some (tret, s') ->
     exists ret h, ltdb_modify req msg s = Some ((ret, h), s') /\ reported req tret ret h) /\
  (forall dn s s0 tret s',
     ltdb_cache_load s = (0, s0) -> ltdb_delete_internal dn s0 = (tret, s') ->
     exists ret h, ltdb_delete req dn s = ((ret, h), s') /\ reported req tret ret h) /\
  (forall olddn newdn s s0 tret,
     ltdb_cache_load s = (0, s0) -> ltdb_search_dn1 olddn s0 = inl tret ->
     tret <> LDB_SUCCESS /\
     exists ret h, ltdb_rename req olddn newdn s = ((ret, h), s0) /\
                   reported req tret ret h).
Proof.
  intros Hctl. split; [|split; [|split]].
  - intros msg s tret s' Hadd. unfold ltdb_add. rewrite Hctl.
    rewrite (op_bind_run _ _ _ _ _ Hadd). unfold op_ret.
    exists (fst (finish req tret)), (snd (finish req tret)).
    split; [by destruct (finish req tret)|apply finish_reported].
  - intros msg s s0 tret s' Hcheck Hload Hmod. unfold ltdb_modify.
    rewrite Hctl, Hcheck, Hload, Hmod. cbn [Z.eqb LDB_SUCCESS negb].
    exists (fst (finish req tret)), (snd (finish req tret)).
    split; [by destruct (finish req tret)|apply finish_reported].
  - intros dn s s0 tret s' Hload Hdel. unfold ltdb_delete. rewrite Hctl.
    rewrite (op_bind_run _ _ _ _ _ Hload). cbn [Z.eqb negb].
    rewrite (op_bind_run _ _ _ _ _ Hdel). unfold op_ret.
    exists (fst (finish req tret)), (snd (finish req tret)).
    split; [by destruct (finish req tret)|apply finish_reported].
  - intros olddn newdn s s0 tret Hload Hsearch.
    assert (Hne : tret <> LDB_SUCCESS).
    { unfold ltdb_search_dn1, tdb_fetch in Hsearch. repeat case_match; by simplify_eq. }
    split; [done|]. unfold ltdb_rename. rewrite Hctl.
    rewrite (op_bind_run _ _ _ _ _ Hload). cbn [Z.eqb negb]. rewrite Hsearch.
    eexists _, _. split; [reflexivity|]. eexists. repeat split.
    by destruct (Z.eqb_spec tret LDB_SUCCESS).
Qed.

Lemma check_special_dn_invalid msg el v :
  msg_dn msg = LTDB_ATTRIBUTES -> el ∈ msg_elements msg -> v ∈ el_values el ->
  ltdb_check_at_attributes_values v <> 0 ->
  ltdb_check_special_dn msg = LDB_ERR_INVALID_ATTRIBUTE_SYNTAX.
Proof.
  intros Hdn Hel Hv Hbad. unfold ltdb_check_special_dn. rewrite Hdn.
  change (negb (ldb_dn_is_special LTDB_ATTRIBUTES)
          || negb (ldb_dn_check_special LTDB_ATTRIBUTES LTDB_ATTRIBUTES)) with false.
  cbv iota.
  assert (Hex : existsb (fun el => existsb (fun v =>
                  negb (ltdb_check_at_attributes_values v =? 0)) (el_values el))
                  (msg_elements msg) = true).
  { apply existsb_exists. exists el. split; [by apply list_elem_of_In|].
    apply existsb_exists. exists v. split; [by apply list_elem_of_In|].
    by apply negb_true_iff, Z.eqb_neq. }
  by rewrite Hex.
Qed.

(** X26. A message for @ATTRIBUTES with a value that fails the check
    is refused before anything is read or written: [ltdb_add_internal]
    returns invalid-attribute-syntax with the module untouched, and
    [ltdb_modify] puts that code in the handle. *)
Theorem bad_attributes_record_refused
    (msg : ldb_message) (el : ldb_message_element) (v : ldb_val) :
  msg_dn msg = LTDB_ATTRIBUTES -> el ∈ msg_elements msg -> v ∈ el_values el ->
  ltdb_check_at_attributes_values v <> 0 ->
  (forall s, ltdb_add_internal msg s = (LDB_ERR_INVALID_ATTRIBUTE_SYNTAX, s)) /\
  (forall req s, check_critical_controls (req_controls req) = false ->
     ltdb_modify req msg s
     = Some ((LDB_SUCCESS,
              Some {| h_status := LDB_ERR_INVALID_ATTRIBUTE_SYNTAX;
                      h_state := LDB_ASYNC_DONE |}), s)).
Proof.
  intros Hdn Hel Hv Hbad.
  pose proof (check_special_dn_invalid msg el v Hdn Hel Hv Hbad) as Hcheck. split.
  - intros s. unfold ltdb_add_internal. by rewrite Hcheck.
  - intros req s Hctl. unfold ltdb_modify. by rewrite Hctl, Hcheck.
Qed.

End Requests.

(** ** Rename and the stored records *)

Section RenameRecords.
Context {tdb_data : Type} {C : ltdb_collaborators tdb_data}.
Implicit Types s : ldb_module tdb_data.
Variable primary : string -> Prop.
Hypothesis HC : store_contract primary.

Lemma search_same_record dn s s' key :
  ltdb_key dn = Some key -> tdb s' !! key = tdb s !! key ->
  ltdb_search_dn1 dn s' = ltdb_search_dn1 dn s.
Proof. intros Hkey Hsame. unfold ltdb_search_dn1, tdb_fetch. by rewrite Hkey, Hsame. Qed.

Lemma search_found dn s m key :
  ltdb_key dn = Some key -> ltdb_search_dn1 dn s = inr m ->
  m = {| msg_dn := dn; msg_elements := msg_elements m |} /\
  exists data, tdb s !! key = Some data /\ ltdb_unpack_data data = Some (msg_elements m).
Proof.
  intros Hkey. unfold ltdb_search_dn1, tdb_fetch. rewrite Hkey.
  destruct (tdb s !! key) as [data|]; [|done].
  destruct (ltdb_unpack_data data) as [els|] eqn:Hun; [|done].
  intros [= <-]. split; [done|]. by exists data.
Qed.

Lemma search_failure_code dn s e : ltdb_search_dn1 dn s = inl e -> e <> LDB_SUCCESS.
Proof.
  unfold ltdb_search_dn1, tdb_fetch. intros H. repeat case_match; by simplify_eq.
Qed.

(** X27. Under the store contract, a rename that reports success
    (no callback set) has moved the entry: the old DN held a record
    before, a search by the new DN now yields its elements under the
    new DN, and when the two keys differ the new key was free before
    and the old DN is now reported missing. The other primary records
    are as before. This holds on both paths, delete-then-add and
    add-then-delete. *)
Theorem rename_moves_entry
    (req : ldb_request) (olddn newdn : ldb_dn) (s s' : ldb_module tdb_data)
    (oldkey newkey : string) :
  req_callback req = None ->
  ltdb_key olddn = Some oldkey -> ltdb_key newdn = Some newkey ->
  primary oldkey -> primary newkey ->
  ltdb_rename req olddn newdn s
    = ((LDB_SUCCESS, Some {| h_status := LDB_SUCCESS; h_state := LDB_ASYNC_DONE |}), s') ->
  exists els,
    ltdb_search_dn1 olddn s = inr {| msg_dn := olddn; msg_elements := els |} /\
    ltdb_search_dn1 newdn s' = inr {| msg_dn := newdn; msg_elements := els |} /\
    (oldkey <> newkey ->
       tdb s !! newkey = None /\
       ltdb_search_dn1 olddn s' = inl LDB_ERR_NO_SUCH_OBJECT) /\
    forall k, primary k -> k <> oldkey -> k <> newkey -> tdb s' !! k = tdb s !! k.
Proof.
  intros Hcb Hok Hnk Hpo Hpn. unfold ltdb_rename.
  destruct (check_critical_controls (req_controls req)); [intros [= ? ?]; done|].
  unfold op_bind at 1. destruct (ltdb_cache_load s) as [r s0] eqn:Hload.
  destruct (Z.eqb_spec r 0) as [->|?]; [|intros [= ? ?]; done]. cbn [negb].
  assert (Hl0 : forall k, primary k -> tdb s0 !! k = tdb s !! k).
  { intros k Hk. pose proof (cache_load_leaves _ HC k Hk s) as H. by rewrite Hload in H. }
  destruct (ltdb_search_dn1 olddn s0) as [tret|found] eqn:Hsearch.
  { apply search_failure_code in Hsearch. intros [= ? ?]; done. }
  destruct (search_found olddn s0 found oldkey Hok Hsearch) as [Hfound _].
  set (els := msg_elements found) in *.
  assert (Hold : ltdb_search_dn1 olddn s = inr {| msg_dn := olddn; msg_elements := els |}).
  { rewrite <- (search_same_record olddn s s0 oldkey Hok (Hl0 oldkey Hpo)).
    by rewrite Hsearch, Hfound. }
  rewrite Hcb. cbn [default].
  destruct (ldb_dn_compare olddn newdn =? 0).
  - (* delete, then add *)
    unfold op_bind at 1. destruct (ltdb_delete_internal olddn s0) as [r1 s1] eqn:Hdel.
    destruct (Z.eqb_spec r1 LDB_SUCCESS) as [->|?];
      [|unfold op_ret, rename_done; intros [= ? ?]; done].
    cbn [negb]. unfold op_bind at 1.
    destruct (ltdb_add_internal {| msg_dn := newdn; msg_elements := els |} s1)
      as [r2 s2] eqn:Hadd.
    destruct (Z.eqb_spec r2 LDB_SUCCESS) as [->|?];
      [|unfold op_ret, rename_done; intros [= ? ?]; done].
    cbn [negb]. unfold op_ret, rename_done. intros [= <-].
    destruct (ltdb_delete_internal_removed primary HC olddn s0 s1 oldkey Hok Hpo Hdel)
      as (_ & Hgone & Hother1).
    destruct (ltdb_add_internal_stored primary HC
                {| msg_dn := newdn; msg_elements := els |} s1 s2 newkey Hnk Hpn Hadd)
      as (Hfree & (data & Hrec & Hun) & Hother2).
    exists els. split; [done|]. split; [|split].
    + by apply (search_stored newdn s2 newkey data).
    + intros Hne. split.
      * by rewrite <- Hl0, <- (Hother1 newkey) by done.
      * apply (search_missing olddn s2 oldkey Hok). by rewrite Hother2.
    + intros k Hk Hko Hkn. by rewrite Hother2, Hother1, Hl0.
  - (* add, then delete *)
    unfold op_bind at 1.
    destruct (ltdb_add_internal {| msg_dn := newdn; msg_elements := els |} s0)
      as [r1 s1] eqn:Hadd.
    destruct (Z.eqb_spec r1 LDB_SUCCESS) as [->|?];
      [|unfold op_ret, rename_done; intros [= ? ?]; done].
    cbn [negb]. unfold op_bind at 1.
    destruct (ltdb_delete_internal olddn s1) as [r2 s2] eqn:Hdel.
    destruct (Z.eqb_spec r2 LDB_SUCCESS) as [->|?].
    2:{ cbn [negb]. unfold op_bind.
        destruct (ltdb_delete_internal newdn s2). unfold op_ret, rename_done.
        intros [= ? ?]; done. }
    cbn [negb]. unfold op_ret, rename_done. intros [= <-].
    destruct (ltdb_add_internal_stored primary HC
                {| msg_dn := newdn; msg_elements := els |} s0 s1 newkey Hnk Hpn Hadd)
      as (Hfree & (data & Hrec & Hun) & Hother1).
    destruct (ltdb_delete_internal_removed primary HC olddn s1 s2 oldkey Hok Hpo Hdel)
      as ((old & _ & Hthere & _) & Hgone & Hother2).
    assert (Hne : newkey <> oldkey).
    { intros ->. rewrite Hrec in Hthere. injection Hthere as ->.
      destruct (search_found olddn s0 found oldkey Hok Hsearch) as [_ (d & Hd & _)].
      congruence. }
    exists els. split; [done|]. split; [|split].
    + apply (search_stored newdn s2 newkey data); [done| |done]. by rewrite Hother2.
    + intros _. split.
      * by rewrite <- Hl0.
      * by apply (search_missing olddn s2 oldkey).
    + intros k Hk Hko Hkn. by rewrite Hother2, Hother1, Hl0.
Qed.

(** X28. Under the store contract, a rename between DNs that do not
    compare equal, onto a DN whose record exists, returns
    entry-already-exists as its own code and changes no primary
    record. *)
Theorem rename_onto_existing_entry
    (req : ldb_request) (olddn newdn : ldb_dn) (s s0 : ldb_module tdb_data)
    (found : ldb_message) (newkey : string) :
  check_critical_controls (req_controls req) = false ->
  ltdb_cache_load s = (0, s0) ->
  ltdb_search_dn1 olddn s0 = inr found ->
  ldb_dn_compare olddn newdn <> 0 ->
  ltdb_key newdn = Some newkey -> primary newkey -> is_Some (tdb s0 !! newkey) ->
  let msg := {| msg_dn := newdn; msg_elements := msg_elements found |} in
  ltdb_check_special_dn msg = LDB_SUCCESS ->
  fst (ltdb_cache_load s0) = 0 ->
  is_Some (ltdb_pack_data msg) ->
  ltdb_rename req olddn newdn s
    = (rename_done LDB_ERR_ENTRY_ALREADY_EXISTS, snd (ltdb_cache_load s0)) /\
  forall k, primary k -> tdb (snd (ltdb_cache_load s0)) !! k = tdb s !! k.
Proof.
  intros Hctl Hload Hsearch Hcmp Hnk Hpn Hthere msg Hcheck Hload2 [data Hpack].
  assert (Hl : forall k, primary k -> tdb (snd (ltdb_cache_load s0)) !! k = tdb s !! k).
  { intros k Hk. rewrite (cache_load_leaves _ HC k Hk s0).
    pose proof (cache_load_leaves _ HC k Hk s) as H. by rewrite Hload in H. }
  split; [|done].
  assert (Hadd : ltdb_add_internal msg s0
                 = (LDB_ERR_ENTRY_ALREADY_EXISTS, snd (ltdb_cache_load s0))).
  { unfold ltdb_add_internal. rewrite Hcheck. cbn [Z.eqb LDB_SUCCESS negb].
    unfold op_bind at 1.
    pose proof (cache_load_leaves _ HC newkey Hpn s0) as Hsame.
    destruct (ltdb_cache_load s0) as [r s1]. simpl in Hload2, Hsame |- *. subst r.
    cbn [Z.eqb negb]. unfold op_bind, ltdb_store, tdb_store.
    cbn [msg_dn msg]. rewrite Hnk, Hpack, Hsame.
    destruct Hthere as [old ->]. done. }
  unfold ltdb_rename. rewrite Hctl. rewrite (op_bind_run _ _ _ _ _ Hload).
  cbn [Z.eqb negb]. rewrite Hsearch.
  destruct (Z.eqb_spec (ldb_dn_compare olddn newdn) 0); [done|].
  by rewrite (op_bind_run _ _ _ _ _ Hadd).
Qed.

End RenameRecords.

(** ** Connecting *)

Lemma starts_with_spec p s : starts_with p s = true -> s = String.append p (string_skip (String.length p) s).
Proof.
  revert s. induction p as [|c p IH]; intros s; [done|].
  destruct s as [|d s]; [done|]. cbn [starts_with].
  intros [Hc Hp]%andb_true_iff. apply Ascii.eqb_eq in Hc as ->.
  change (String d s = String d (String.append p (string_skip (String.length p) s))).
  f_equal. by apply IH.
Qed.

Lemma starts_with_append p s : starts_with p (String.append p s) = true.
Proof.
  induction p as [|c p IH]; [done|].
  change (Ascii.eqb c c && starts_with p (String.append p s) = true).
  by rewrite Ascii.eqb_refl.
Qed.

Lemma string_skip_append p s : string_skip (String.length p) (String.append p s) = s.
Proof.
  induction p as [|c p IH]; [done|].
  change (string_skip (String.length p) (String.append p s) = s). done.
Qed.

Section Connecting.
Context {tdb_data : Type} {C : ltdb_collaborators tdb_data}.
Variable env : connect_env tdb_data.

(** X29. [ltdb_connect] takes a URL that contains no colon as the
    path itself, and one that starts with "tdb://" as the path after
    that prefix; nothing else is a valid URL. The call returns -1
    without a module, or 0 with the module the cache load left after
    the file at that path was opened. *)
Theorem connect_url_forms (l : ldb_schema) (create_perms : Z) (url : string) (flags : Z) :
  (forall path,
     connect_path url = Some path <->
     (has_char ":" url = false /\ path = url) \/ url = String.append "tdb://" path) /\
  (ltdb_connect env l create_perms url flags = (-1, None) \/
   exists path t m,
     connect_path url = Some path /\
     ltdb_wrap_open env path 10000 (connect_tdb_flags env flags)
       (connect_open_flags env flags) create_perms = Some t /\
     ltdb_cache_load {| ldb := l; tdb := t |} = (0, m) /\
     ltdb_connect env l create_perms url flags = (0, Some m)).
Proof.
  split.
  - intros path. unfold connect_path. destruct (has_char ":" url) eqn:Hcolon.
    + destruct (starts_with "tdb://" url) eqn:Hpre; cbn [negb].
      * apply starts_with_spec in Hpre. split.
        { intros [= <-]. by right. }
        intros [[? _]|Hurl]; [done|]. f_equal.
        rewrite Hurl. apply (string_skip_append "tdb://").
      * split; [done|]. intros [[? _]|Hurl]; [done|].
        rewrite Hurl, (starts_with_append "tdb://") in Hpre. done.
    + split.
      * intros [= <-]. by left.
      * intros [[_ ->]|Hurl]; [done|]. rewrite Hurl in Hcolon. done.
  - unfold ltdb_connect. destruct (connect_path url) as [path|]; [|by left].
    destruct (ltdb_wrap_open _ _ _ _ _ _) as [t|] eqn:Hopen; [|by left].
    destruct (ltdb_cache_load _) as [r m] eqn:Hload.
    destruct (Z.eqb_spec r 0) as [->|?]; [|by left].
    right. by exists path, t, m.
Qed.

End Connecting.

(** X24 on a request carrying one critical control. *)
Lemma critical_control_refused_witness :
  ltdb_delete
    {| req_controls := [ {| ctrl_oid := "1.2.840.113556.1.4.319"; ctrl_critical := true |} ];
       req_callback := None |}
    "cn=x" Sample.directory
  = ((LDB_ERR_UNSUPPORTED_CRITICAL_EXTENSION, None), Sample.directory).
Proof.
  refine (proj1 (proj2 (proj2 (critical_control_refused
            {| req_controls :=
                 [ {| ctrl_oid := "1.2.840.113556.1.4.319"; ctrl_critical := true |} ];
               req_callback := None |}
            {| ctrl_oid := "1.2.840.113556.1.4.319"; ctrl_critical := true |} _ eq_refl)))
            "cn=x" Sample.directory).
  apply list_elem_of_here.
Defined.

(** X25 on an add of cn=X, which is there as cn=x: the request
    returns success and the handle says entry-already-exists, though
    the request has a callback. *)
Lemma failure_goes_to_handle_witness :
  exists ret h,
    ltdb_add {| req_controls := []; req_callback := Some 7 |}
      {| msg_dn := "cn=X"; msg_elements := [] |} Sample.directory
    = ((ret, h), Sample.directory) /\
    reported {| req_controls := []; req_callback := Some 7 |}
      LDB_ERR_ENTRY_ALREADY_EXISTS ret h.
Proof.
  exact (proj1 (failure_goes_to_handle {| req_controls := []; req_callback := Some 7 |}
                  eq_refl)
           {| msg_dn := "cn=X"; msg_elements := [] |} Sample.directory
           LDB_ERR_ENTRY_ALREADY_EXISTS Sample.directory eq_refl).
Defined.

(** X26 on an @ATTRIBUTES record with a flag name that is not known. *)
Lemma bad_attributes_record_refused_witness :
  ltdb_add_internal (C := Fixture.checking)
    {| msg_dn := LTDB_ATTRIBUTES;
       msg_elements := [Sample.element 0 "mail" ["CASE_INSENSITIVE"; "SHOUTED"]] |}
    Sample.directory
  = (LDB_ERR_INVALID_ATTRIBUTE_SYNTAX, Sample.directory).
Proof.
  refine (proj1 (bad_attributes_record_refused (C := Fixture.checking)
            {| msg_dn := LTDB_ATTRIBUTES;
               msg_elements := [Sample.element 0 "mail" ["CASE_INSENSITIVE"; "SHOUTED"]] |}
            (Sample.element 0 "mail" ["CASE_INSENSITIVE"; "SHOUTED"]) "SHOUTED"
            eq_refl _ _ _) Sample.directory).
  - apply list_elem_of_here.
  - apply list_elem_of_further, list_elem_of_here.
  - vm_compute. discriminate.
Defined.

(** X27 on the rename of cn=x to cn=z. *)
Lemma rename_moves_entry_witness :
  exists els,
    ltdb_search_dn1 "cn=x" Sample.directory
    = inr {| msg_dn := "cn=x"; msg_elements := els |} /\
    ltdb_search_dn1 "cn=z"
      (snd (ltdb_rename Sample.no_controls "cn=x" "cn=z" Sample.directory))
    = inr {| msg_dn := "cn=z"; msg_elements := els |} /\
    ltdb_search_dn1 "cn=x"
      (snd (ltdb_rename Sample.no_controls "cn=x" "cn=z" Sample.directory))
    = inl LDB_ERR_NO_SUCH_OBJECT.
Proof.
  destruct (rename_moves_entry (fun k => k <> Sample.baseinfo_key) sample_store_contract
              Sample.no_controls "cn=x" "cn=z" Sample.directory
              (snd (ltdb_rename Sample.no_controls "cn=x" "cn=z" Sample.directory))
              Sample.cn_x_key (record_key "CN=Z") eq_refl eq_refl eq_refl
              ltac:(vm_compute; discriminate) ltac:(vm_compute; discriminate) eq_refl)
    as (els & Hold & Hnew & Hgone & _).
  exists els. split; [exact Hold|]. split; [exact Hnew|].
  apply Hgone. vm_compute. discriminate.
Defined.

(** X28 on the rename of cn=x to cn=y when cn=y is there. *)
Lemma rename_onto_existing_entry_witness :
  ltdb_rename Sample.no_controls "cn=x" "cn=y" Fixture.two_entries
  = (rename_done LDB_ERR_ENTRY_ALREADY_EXISTS,
     snd (ltdb_cache_load Fixture.two_entries)) /\
  tdb (snd (ltdb_cache_load Fixture.two_entries)) !! Sample.cn_x_key
  = tdb Fixture.two_entries !! Sample.cn_x_key.
Proof.
  destruct (rename_onto_existing_entry (fun k => k <> Sample.baseinfo_key)
              sample_store_contract Sample.no_controls "cn=x" "cn=y"
              Fixture.two_entries Fixture.two_entries
              {| msg_dn := "cn=x";
                 msg_elements := [Sample.element 0 "cn" ["x"];
                                  Sample.element 0 "member" ["alice"]] |}
              Fixture.cn_y_key eq_refl eq_refl eq_refl
              ltac:(vm_compute; discriminate) eq_refl ltac:(vm_compute; discriminate)
              ltac:(vm_compute; by eexists) eq_refl eq_refl ltac:(by eexists))
    as [Hret Hsame].
  split; [exact Hret|]. apply Hsame. vm_compute. discriminate.
Defined.
